(** * Switch-port network configuration of the baremetal-operator

    A shallow embedding of the network-attachment subsystem of the
    baremetal-operator: the HostNetworkAttachment admission webhook
    (package [webhooks]), the BareMetalHost network reconciliation and the
    BareMetalSwitch configuration generator (package [controllers]) and the
    Ironic port reconciliation (package [ironic]).

    Go values are modelled as follows.
    - [string] is a byte sequence: Rocq's [string].
    - [[]byte] is [list byte]; [string(b)] and [[]byte(s)] copy the bytes.
    - [int], [int32] are [Z]; the code only compares and prints them.
    - a slice or map whose nil-ness is observable is an [option]: [None] is
      the nil value, [Some []] (resp. [Some ∅]) the empty non-nil one.
    - a pointer to a scalar ([*int], [*bool], [*int32]) is an [option].
    - [map[string]T] is [gmap string T].
    - [error] is the tree of [error] values below; a nil error is [None]. *)

From stdpp Require Import base gmap strings list sorting pretty.
From Stdlib Require Import Strings.Byte Strings.Ascii.

(** ** Go standard library: strings, fmt, strconv *)

Module Go.

(** The line feed "\n" and the double quote. *)
Definition LF : string := String "010" "".
Definition DQUOTE : string := String "034" "".

(** [strings.Contains(s, substr)]. *)
Fixpoint strings_Contains (s substr : string) : bool :=
  String.prefix substr s ||
  match s with
  | "" => false
  | String _ s' => strings_Contains s' substr
  end.

(** [strings.Join(elems, sep)]. *)
Fixpoint strings_Join (elems : list string) (sep : string) : string :=
  match elems with
  | [] => ""
  | [e] => e
  | e :: rest => e +:+ sep +:+ strings_Join rest sep
  end.

(** [strings.ReplaceAll(s, old, new)] for a non-empty [old], which is how
    every call site uses it. [skip] counts the bytes of a match of [old]
    that are still to be dropped. *)
Fixpoint replaceAll_go (skip : nat) (s old new : string) : string :=
  match s with
  | "" => ""
  | String c s' =>
      match skip with
      | S k => replaceAll_go k s' old new
      | O =>
          if String.prefix old s
          then new +:+ replaceAll_go (String.length old - 1) s' old new
          else String c (replaceAll_go O s' old new)
      end
  end.
Definition strings_ReplaceAll (s old new : string) : string :=
  replaceAll_go O s old new.

(** [strings.ToLower] on ASCII text (MAC addresses and interface names). *)
Definition lower_ascii (c : ascii) : ascii :=
  let n := nat_of_ascii c in
  if (65 <=? n)%nat && (n <=? 90)%nat then ascii_of_nat (n + 32) else c.
Fixpoint strings_ToLower (s : string) : string :=
  match s with
  | "" => ""
  | String c s' => String (lower_ascii c) (strings_ToLower s')
  end.

(** [strings.EqualFold] on ASCII text. *)
Definition strings_EqualFold (a b : string) : bool :=
  bool_decide (strings_ToLower a = strings_ToLower b).

(** The verb [%d] of [fmt]. *)
Definition fmt_d (n : Z) : string := pretty n.

(** [strconv.FormatBool]. *)
Definition strconv_FormatBool (b : bool) : string :=
  if b then "true" else "false".

(** [sort.Strings]: ascending byte-wise order. *)
Definition sort_Strings (l : list string) : list string :=
  merge_sort String.le l.

(** A [bytes.Buffer] is the bytes written so far. *)
Definition Buffer := list byte.
Definition WriteString (buf : Buffer) (s : string) : Buffer :=
  buf ++ String.list_byte_of_string s.
Definition Write (buf : Buffer) (b : list byte) : Buffer := buf ++ b.

Global Instance byte_eq_decision : EqDecision byte := byte_eq_dec.

(** [bytes.Equal]. *)
Definition bytes_Equal (a b : list byte) : bool := bool_decide (a = b).

(** Go slices and maps whose nil value is observable. *)
Definition len {A} (s : option (list A)) : nat :=
  match s with None => O | Some l => length l end.
Definition elems {A} (s : option (list A)) : list A :=
  match s with None => [] | Some l => l end.

End Go.
Import Go.

(** ** Go error values *)

(** [metav1.StatusReason], as far as the code inspects it. *)
Inductive StatusReason :=
| StatusReasonUnknown
| StatusReasonNotFound
| StatusReasonForbidden
| StatusReasonConflict.

Global Instance StatusReason_eq_dec : EqDecision StatusReason.
Proof. solve_decision. Defined.

(** The shapes of error the code builds or receives: [errors.New] and
    [fmt.Errorf] without [%w]; [fmt.Errorf] with [%w], which keeps the
    formatted message and the wrapped error; an API [StatusError]; and the
    aggregate of [kerrors.NewAggregate]. *)
#[warnings="-register-all"]
Inductive error :=
| errorString (s : string)
| wrapError (msg : string) (err : error)
| StatusError (reason : StatusReason) (message : string)
| Aggregate (errs : list error).

Module kerrors.

(** The walk of [aggregate.Error] over the messages: a message already
    seen is skipped, the others are joined with ", ". *)
Fixpoint visit (msgs : list string) (seen : gset string) (result : string)
  : gset string * string :=
  match msgs with
  | [] => (seen, result)
  | msg :: rest =>
      if bool_decide (msg ∈ seen) then visit rest seen result
      else
        let seen' := {[msg]} ∪ seen in
        let result' := if bool_decide (1 < size seen')%nat
                       then result +:+ ", " else result in
        visit rest seen' (result' +:+ msg)
  end.

Definition aggregate_Error (msgs : list string) : string :=
  match msgs with
  | [] => ""
  | [m] => m
  | _ =>
      let '(seen, result) := visit msgs ∅ "" in
      if bool_decide (size seen = 1%nat) then result
      else "[" +:+ result +:+ "]"
  end.

End kerrors.

(** [err.Error()]. *)
Fixpoint Error (e : error) : string :=
  match e with
  | errorString s => s
  | wrapError msg _ => msg
  | StatusError _ message => message
  | Aggregate errs => kerrors.aggregate_Error (map Error errs)
  end.

(** [fmt.Errorf(prefix + "%w", err)]. *)
Definition Errorf_w (prefix : string) (err : error) : error :=
  wrapError (prefix +:+ Error err) err.

(** [kerrors.NewAggregate]: no errors give a nil error. *)
Definition NewAggregate (errs : list error) : option error :=
  match errs with
  | [] => None
  | _ => Some (Aggregate errs)
  end.

(** [apierrors.ReasonForError]: the reason of the first [StatusError] in the
    chain of wrapped errors. *)
Fixpoint ReasonForError (e : error) : StatusReason :=
  match e with
  | StatusError r _ => r
  | wrapError _ e' => ReasonForError e'
  | _ => StatusReasonUnknown
  end.

Definition IsNotFound (e : error) : bool :=
  bool_decide (ReasonForError e = StatusReasonNotFound).
Definition IsForbidden (e : error) : bool :=
  bool_decide (ReasonForError e = StatusReasonForbidden).

(** [apierrors.NewForbidden] for a non-empty group resource and name; object
    names are DNS labels, which [%q] prints between double quotes as they
    are. *)
Definition NewForbidden (group resource name : string) (err : error) : error :=
  StatusError StatusReasonForbidden
    (resource +:+ "." +:+ group +:+ " " +:+ DQUOTE +:+ name +:+ DQUOTE
       +:+ " is forbidden: " +:+ Error err).

(** ** API types (package [metal3api]) *)

Module metal3api.

(** [HostNetworkAttachmentRef]. *)
Record HostNetworkAttachmentRef := {
  ref_Name : string;
  ref_Namespace : string;
}.

(** [SwitchportMode] is a string type with three named constants. *)
Definition SwitchportMode := string.
Definition SwitchportModeAccess : SwitchportMode := "access".
Definition SwitchportModeTrunk : SwitchportMode := "trunk".
Definition SwitchportModeHybrid : SwitchportMode := "hybrid".

(** [HostNetworkAttachmentSpec]: [AllowedVLANs] is a slice ([None] is
    nil), [MTU] a pointer. *)
Record HostNetworkAttachmentSpec := {
  Mode : SwitchportMode;
  NativeVLAN : Z;
  AllowedVLANs : option (list Z);
  MTU : option Z;
}.

(** [HostNetworkAttachment]: of the object metadata, the namespace, the
    name and the labels. *)
Record HostNetworkAttachment := {
  hna_Namespace : string;
  hna_Name : string;
  hna_Labels : gmap string string;
  hna_Spec : HostNetworkAttachmentSpec;
}.

(** Modelled from the spec: the type [NetworkInterface] of a host's
    declared interface list, whose declaration is not among the sources.
    An entry is identified by its name or its MAC address and carries a
    reference to a HostNetworkAttachment. *)
Record NetworkInterface := {
  ni_Name : string;
  ni_MACAddress : string;
  ni_HostNetworkAttachment : HostNetworkAttachmentRef;
}.

(** Modelled from the spec: the method [GetKey] of [NetworkInterface],
    whose declaration is not among the sources: the name if set, else the
    MAC address. *)
Definition GetKey (netIf : NetworkInterface) : string :=
  if bool_decide (ni_Name netIf = "") then ni_MACAddress netIf
  else ni_Name netIf.

(** A discovered NIC of the hardware details: name, MAC address, IP
    address, PXE flag and the LLDP neighbour data. *)
Record NIC := {
  nic_Name : string;
  nic_MAC : string;
  nic_IP : string;
  nic_PXE : bool;
  nic_LLDP_SwitchID : string;
  nic_LLDP_PortID : string;
  nic_LLDP_SwitchSystemName : string;
}.

Record HardwareDetails := {
  hw_NIC : list NIC;
}.

(** [metav1.ConditionStatus]. *)
Inductive ConditionStatus := ConditionTrue | ConditionFalse | ConditionUnknown.

(** [metav1.Condition]; the transition time is a number. *)
Record Condition := {
  cond_Type : string;
  cond_Status : ConditionStatus;
  cond_ObservedGeneration : Z;
  cond_LastTransitionTime : Z;
  cond_Reason : string;
  cond_Message : string;
}.

Definition ConditionNetworkInterfacesValid : string := "NetworkInterfacesValid".

(** [BareMetalHost], flattened: the fields of the metadata, the spec and
    the status that the network code reads or writes. The two interface
    lists are slices whose nil value is observable. *)
Record BareMetalHost := {
  bmh_Namespace : string;
  bmh_Name : string;
  bmh_Spec_NetworkInterfaces : option (list NetworkInterface);
  bmh_Status_HardwareDetails : option HardwareDetails;
  bmh_Status_AppliedNetworkInterfaces : option (list NetworkInterface);
  bmh_Status_Conditions : list Condition;
  bmh_Status_Provisioning_State : string;
}.

(** [SwitchCredentialType]. *)
Definition SwitchCredentialType := string.
Definition SwitchCredentialTypePassword : SwitchCredentialType := "password".
Definition SwitchCredentialTypePublicKey : SwitchCredentialType := "publickey".

Record SwitchCredentials := {
  cred_Type : SwitchCredentialType;
  cred_SecretName : string;
}.

Record BareMetalSwitchSpec := {
  Address : string;
  MACAddress : string;
  Driver : string;
  DeviceType : string;
  Credentials : SwitchCredentials;
  Port : option Z;
  DisableCertificateVerification : option bool;
}.

Record BareMetalSwitch := {
  sw_Namespace : string;
  sw_Name : string;
  sw_Spec : BareMetalSwitchSpec;
}.

Global Instance HostNetworkAttachmentRef_eq_dec : EqDecision HostNetworkAttachmentRef.
Proof. solve_decision. Defined.
Global Instance HostNetworkAttachmentSpec_eq_dec : EqDecision HostNetworkAttachmentSpec.
Proof. solve_decision. Defined.
Global Instance NetworkInterface_eq_dec : EqDecision NetworkInterface.
Proof. solve_decision. Defined.
Global Instance ConditionStatus_eq_dec : EqDecision ConditionStatus.
Proof. solve_decision. Defined.

End metal3api.
Import metal3api.

(** [reflect.DeepEqual] on values of a type built from strings, numbers,
    pointers to them and slices: structural equality, in which a nil slice
    differs from an empty one and pointers are followed. On the embedding
    that is decidable equality. *)
Definition reflect_DeepEqual {A} `{EqDecision A} (x y : A) : bool :=
  bool_decide (x = y).

(** The outcome of a call that returns a value or a non-nil error. *)
Inductive result (A : Type) :=
| Ok (a : A)
| Err (e : error).
Arguments Ok {A} a.
Arguments Err {A} e.

(** ** The HostNetworkAttachment webhook (package [webhooks]) *)

Module webhooks.

Definition bmhNetworkAttachmentIndexField : string :=
  ".spec.networkInterfaces.hostNetworkAttachment.name".

(** The index function that [SetupWebhookWithManager] registers for
    BareMetalHost: one key "namespace/name" per declared interface with a
    non-empty attachment name. *)
Definition indexBMH (bmh : BareMetalHost) : list string :=
  flat_map
    (fun iface =>
       if bool_decide (ref_Name (ni_HostNetworkAttachment iface) ≠ "") then
         let ns := ref_Namespace (ni_HostNetworkAttachment iface) in
         let ns := if bool_decide (ns = "") then bmh_Namespace bmh else ns in
         [ns +:+ "/" +:+ ref_Name (ni_HostNetworkAttachment iface)]
       else [])
    (elems (bmh_Spec_NetworkInterfaces bmh)).

(** The API client behind the webhook: the stored hosts, and the error
    with which a list call fails, if it does. *)
Record Client := {
  cl_Hosts : list BareMetalHost;
  cl_ListError : option error;
}.

(** [client.ListOptions] with a one-term field selector. *)
Record ListOptions := {
  lo_Field : string;
  lo_Value : string;
  lo_Namespace : string;
}.

(** [Client.List] for BareMetalHosts: the hosts of the namespace (all
    namespaces when it is empty) whose index values for the selected field
    include the selected value. *)
Definition List (c : Client) (opts : ListOptions) : result (list BareMetalHost) :=
  match cl_ListError c with
  | Some e => Err e
  | None =>
      if bool_decide (lo_Field opts = bmhNetworkAttachmentIndexField) then
        Ok (filter
              (fun bmh =>
                 (lo_Namespace opts = "" ∨ bmh_Namespace bmh = lo_Namespace opts)
                 ∧ lo_Value opts ∈ indexBMH bmh)
              (cl_Hosts c))
      else
        Err (errorString ("Index with name field:" +:+ lo_Field opts +:+ " does not exist"))
  end.

(** [validateVLANID]. *)
Definition validateVLANID (vlan : Z) : option error :=
  if ((vlan <? 1) || (vlan >? 4094))%Z then
    Some (errorString ("VLAN ID " +:+ fmt_d vlan +:+ " is out of range (1-4094)"))
  else None.

(** [validateVLANList]: the first invalid entry decides. *)
Fixpoint validateVLANList (vlans : list Z) : option error :=
  match vlans with
  | [] => None
  | vlan :: rest =>
      match validateVLANID vlan with
      | Some err => Some err
      | None => validateVLANList rest
      end
  end.

(** [validateSwitchportConfiguration]: the switch on the mode returns at
    its first error; the native VLAN is checked after it. *)
Definition validateSwitchportConfiguration (attachment : HostNetworkAttachment)
  : option error :=
  let mode := Mode (hna_Spec attachment) in
  let allowedVLANs := AllowedVLANs (hna_Spec attachment) in
  let switch : option error :=
    if bool_decide (mode = SwitchportModeAccess) then
      if bool_decide (0 < len allowedVLANs)%nat then
        Some (errorString "allowedVlans cannot be specified for access mode")
      else None
    else if bool_decide (mode = SwitchportModeTrunk ∨ mode = SwitchportModeHybrid) then
      match validateVLANList (elems allowedVLANs) with
      | Some err => Some (Errorf_w "invalid allowedVlans: " err)
      | None => None
      end
    else Some (errorString ("invalid switchport mode: " +:+ mode)) in
  match switch with
  | Some err => Some err
  | None =>
      match validateVLANID (NativeVLAN (hna_Spec attachment)) with
      | Some err => Some (Errorf_w "invalid nativeVlan: " err)
      | None => None
      end
  end.

(** [validateMTU]. *)
Definition validateMTU (attachment : HostNetworkAttachment) : option error :=
  match MTU (hna_Spec attachment) with
  | Some mtu =>
      if ((mtu <? 68) || (mtu >? 9000))%Z then
        Some (errorString ("MTU " +:+ fmt_d mtu +:+ " is out of range (68-9000)"))
      else None
  | None => None
  end.

(** [validateAttachment]: the two checks, each adding at most one error. *)
Definition validateAttachment (attachment : HostNetworkAttachment) : list error :=
  let errs := [] in
  let errs := match validateSwitchportConfiguration attachment with
              | Some err => errs ++ [err]
              | None => errs
              end in
  let errs := match validateMTU attachment with
              | Some err => errs ++ [err]
              | None => errs
              end in
  errs.

(** The reference strings "namespace/name[interface]" that
    [findBMHReferences] collects from one listed host. *)
Definition referencesOf (attachment : HostNetworkAttachment) (bmh : BareMetalHost)
  : list string :=
  flat_map
    (fun netIf =>
       let refNS := ref_Namespace (ni_HostNetworkAttachment netIf) in
       let refNS := if bool_decide (refNS = "") then bmh_Namespace bmh else refNS in
       if bool_decide (ref_Name (ni_HostNetworkAttachment netIf) = hna_Name attachment
                       ∧ refNS = hna_Namespace attachment) then
         [bmh_Namespace bmh +:+ "/" +:+ bmh_Name bmh +:+ "[" +:+ ni_Name netIf +:+ "]"]
       else [])
    (elems (bmh_Spec_NetworkInterfaces bmh)).

(** [findBMHReferences]: an indexed list call limited to the namespace of
    the attachment, then the scan of the listed hosts. *)
Definition findBMHReferences (c : Client) (attachment : HostNetworkAttachment)
  : result (list string) :=
  let indexKey := hna_Namespace attachment +:+ "/" +:+ hna_Name attachment in
  let listOpts := {| lo_Field := bmhNetworkAttachmentIndexField;
                     lo_Value := indexKey;
                     lo_Namespace := hna_Namespace attachment |} in
  match List c listOpts with
  | Err err => Err (Errorf_w "failed to list BMHs using index: " err)
  | Ok items => Ok (flat_map (referencesOf attachment) items)
  end.

(** [validateUpdate]: warnings and error. *)
Definition validateUpdate (c : Client) (oldAttachment newAttachment : HostNetworkAttachment)
  : list string * option error :=
  let warnings : list string := [] in
  let errs : list error := [] in
  let errs := match validateAttachment newAttachment with
              | [] => errs
              | validationErrs => errs ++ validationErrs
              end in
  if reflect_DeepEqual (hna_Spec oldAttachment) (hna_Spec newAttachment) then
    (warnings, None)
  else
    match findBMHReferences c oldAttachment with
    | Err err =>
        (warnings,
         Some (Errorf_w "failed to check BMH references, cannot safely allow update: " err))
    | Ok references =>
        let '(warnings, errs) :=
          if bool_decide (0 < length references)%nat then
            (warnings ++
               ["Cannot modify attachment while in use by: "
                  +:+ strings_Join references ", "
                  +:+ ". Remove references first or create a new attachment."],
             errs ++
               [errorString
                  ("HostNetworkAttachment spec is immutable while referenced by BMH interfaces: "
                     +:+ strings_Join references ", ")])
          else
            (warnings ++ ["NetworkAttachment modified successfully. No BMH references found."],
             errs) in
        if bool_decide (0 < length errs)%nat then (warnings, NewAggregate errs)
        else (warnings, None)
    end.

(** [validateDelete]. *)
Definition validateDelete (c : Client) (attachment : HostNetworkAttachment)
  : list string * option error :=
  let warnings : list string := [] in
  match findBMHReferences c attachment with
  | Err err => (warnings, Some (Errorf_w "failed to check BMH references: " err))
  | Ok references =>
      if bool_decide (0 < length references)%nat then
        (warnings ++ ["This attachment is referenced by: " +:+ strings_Join references ", "],
         Some (NewForbidden "metal3.io" "hostnetworkattachments" (hna_Name attachment)
                 (errorString ("cannot delete attachment while referenced by BMH interfaces: "
                                 +:+ strings_Join references ", "))))
      else (warnings, None)
  end.

End webhooks.

(** ** Status conditions (package [meta] of apimachinery) *)

Module meta.

(** [FindStatusCondition]: the first condition of the type. *)
Fixpoint FindStatusCondition (conditions : list Condition) (conditionType : string)
  : option Condition :=
  match conditions with
  | [] => None
  | c :: rest =>
      if bool_decide (cond_Type c = conditionType) then Some c
      else FindStatusCondition rest conditionType
  end.

(** The update that [SetStatusCondition] makes to an existing condition:
    the transition time moves only when the status changes. [now] is the
    reading of the clock. *)
Definition updateCondition (now : Z) (existing newCondition : Condition) : Condition :=
  let statusChanged := bool_decide (cond_Status existing ≠ cond_Status newCondition) in
  {| cond_Type := cond_Type existing;
     cond_Status := cond_Status newCondition;
     cond_ObservedGeneration := cond_ObservedGeneration newCondition;
     cond_LastTransitionTime :=
       if statusChanged then
         if bool_decide (cond_LastTransitionTime newCondition ≠ 0%Z)
         then cond_LastTransitionTime newCondition else now
       else cond_LastTransitionTime existing;
     cond_Reason := cond_Reason newCondition;
     cond_Message := cond_Message newCondition |}.

Fixpoint updateFirst (now : Z) (conditions : list Condition) (newCondition : Condition)
  : list Condition :=
  match conditions with
  | [] => []
  | c :: rest =>
      if bool_decide (cond_Type c = cond_Type newCondition)
      then updateCondition now c newCondition :: rest
      else c :: updateFirst now rest newCondition
  end.

(** [SetStatusCondition]: append when the type is absent (stamping a zero
    transition time with the clock), else update the first one in place. *)
Definition SetStatusCondition (now : Z) (conditions : list Condition)
    (newCondition : Condition) : list Condition :=
  match FindStatusCondition conditions (cond_Type newCondition) with
  | None =>
      let stamped :=
        if bool_decide (cond_LastTransitionTime newCondition = 0%Z)
        then {| cond_Type := cond_Type newCondition;
                cond_Status := cond_Status newCondition;
                cond_ObservedGeneration := cond_ObservedGeneration newCondition;
                cond_LastTransitionTime := now;
                cond_Reason := cond_Reason newCondition;
                cond_Message := cond_Message newCondition |}
        else newCondition in
      conditions ++ [stamped]
  | Some _ => updateFirst now conditions newCondition
  end.

(** [RemoveStatusCondition]: drop every condition of the type. *)
Definition RemoveStatusCondition (conditions : list Condition) (conditionType : string)
  : list Condition :=
  filter (fun c => cond_Type c ≠ conditionType) conditions.

End meta.

(** ** Resolved switch-port configuration (package [provisioner]) *)

Module provisioner.

Record SwitchPortConfig := {
  spc_Mode : string;
  spc_NativeVLAN : Z;
  spc_AllowedVLANs : option (list Z);
  spc_MTU : option Z;
}.

Global Instance SwitchPortConfig_eq_dec : EqDecision SwitchPortConfig.
Proof. solve_decision. Defined.

End provisioner.
Import provisioner.

(** ** The API client of the controllers *)

Module client.

(** [corev1.Secret]: namespace, name, labels, and the data map, whose nil
    value is [None]. *)
Record Secret := {
  sec_Namespace : string;
  sec_Name : string;
  sec_Labels : gmap string string;
  sec_Data : option (gmap string (list byte));
}.

(** The calls the controllers make. *)
Inductive Request :=
| GetAttachment (namespace name : string)
| GetSecret (namespace name : string)
| ListSwitches (namespace : string)
| UpdateSecret (namespace name : string).

(** What the cluster stores of an attachment and of a secret under the
    key (namespace, name). *)
Record AttachmentContent := {
  ac_Labels : gmap string string;
  ac_Spec : HostNetworkAttachmentSpec;
}.
Record SecretContent := {
  sc_Labels : gmap string string;
  sc_Data : option (gmap string (list byte));
}.

(** The cluster behind the client: the stored objects by (namespace,
    name), the switches in list order, the failure injected into a call,
    if any, and the secrets sent in update calls, oldest first. *)
Record Client := {
  cl_Attachments : gmap (string * string) AttachmentContent;
  cl_Secrets : gmap (string * string) SecretContent;
  cl_Switches : list BareMetalSwitch;
  cl_Fault : Request → option error;
  cl_Updates : list Secret;
}.

(** [apierrors.NewNotFound]. *)
Definition NewNotFound (resource name : string) : error :=
  StatusError StatusReasonNotFound
    (resource +:+ " " +:+ DQUOTE +:+ name +:+ DQUOTE +:+ " not found").

Definition GetAttachmentObj (c : Client) (namespace name : string)
  : result HostNetworkAttachment :=
  match cl_Fault c (GetAttachment namespace name) with
  | Some e => Err e
  | None =>
      match cl_Attachments c !! (namespace, name) with
      | Some a => Ok {| hna_Namespace := namespace; hna_Name := name;
                        hna_Labels := ac_Labels a; hna_Spec := ac_Spec a |}
      | None => Err (NewNotFound "hostnetworkattachments.metal3.io" name)
      end
  end.

Definition GetSecretObj (c : Client) (namespace name : string) : result Secret :=
  match cl_Fault c (GetSecret namespace name) with
  | Some e => Err e
  | None =>
      match cl_Secrets c !! (namespace, name) with
      | Some s => Ok {| sec_Namespace := namespace; sec_Name := name;
                        sec_Labels := sc_Labels s; sec_Data := sc_Data s |}
      | None => Err (NewNotFound "secrets" name)
      end
  end.

Definition ListSwitchObjs (c : Client) (namespace : string)
  : result (list BareMetalSwitch) :=
  match cl_Fault c (ListSwitches namespace) with
  | Some e => Err e
  | None => Ok (filter (fun sw => sw_Namespace sw = namespace) (cl_Switches c))
  end.

(** [Client.Update] of a secret: the call is recorded; unless it fails,
    the stored object is replaced. *)
Definition UpdateSecretObj (c : Client) (s : Secret) : Client * option error :=
  let key := (sec_Namespace s, sec_Name s) in
  let logged (secrets : gmap (string * string) SecretContent) :=
    {| cl_Attachments := cl_Attachments c;
       cl_Secrets := secrets;
       cl_Switches := cl_Switches c;
       cl_Fault := cl_Fault c;
       cl_Updates := cl_Updates c ++ [s] |} in
  match cl_Fault c (UpdateSecret (sec_Namespace s) (sec_Name s)) with
  | Some e => (logged (cl_Secrets c), Some e)
  | None =>
      match cl_Secrets c !! key with
      | Some _ =>
          (logged (<[key := {| sc_Labels := sec_Labels s; sc_Data := sec_Data s |}]>
                     (cl_Secrets c)),
           None)
      | None => (logged (cl_Secrets c), Some (NewNotFound "secrets" (sec_Name s)))
      end
  end.

End client.
Import client.

(** ** BareMetalHost network reconciliation (package [controllers]) *)

Module controllers.

(** A host with its conditions replaced. *)
Definition withConditions (host : BareMetalHost) (conditions : list Condition)
  : BareMetalHost :=
  {| bmh_Namespace := bmh_Namespace host;
     bmh_Name := bmh_Name host;
     bmh_Spec_NetworkInterfaces := bmh_Spec_NetworkInterfaces host;
     bmh_Status_HardwareDetails := bmh_Status_HardwareDetails host;
     bmh_Status_AppliedNetworkInterfaces := bmh_Status_AppliedNetworkInterfaces host;
     bmh_Status_Conditions := conditions;
     bmh_Status_Provisioning_State := bmh_Status_Provisioning_State host |}.

(** [networkInterfaceValidationPassed]. *)
Definition networkInterfaceValidationPassed (host : BareMetalHost) : bool :=
  match meta.FindStatusCondition (bmh_Status_Conditions host)
          ConditionNetworkInterfacesValid with
  | Some cond => bool_decide (cond_Status cond = ConditionTrue)
  | None => false
  end.

(** [setNetworkInterfaceValidation]: the host after the call, the dirty
    flag and the error. *)
Definition setNetworkInterfaceValidation (now : Z) (host : BareMetalHost)
    (status : ConditionStatus) (reason message : string)
  : BareMetalHost * (bool * option error) :=
  let existing := meta.FindStatusCondition (bmh_Status_Conditions host)
                    ConditionNetworkInterfacesValid in
  let upToDate :=
    match existing with
    | Some e => bool_decide (cond_Status e = status) && bool_decide (cond_Reason e = reason)
    | None => false
    end in
  if upToDate then (host, (false, None))
  else
    (withConditions host
       (meta.SetStatusCondition now (bmh_Status_Conditions host)
          {| cond_Type := ConditionNetworkInterfacesValid;
             cond_Status := status;
             cond_ObservedGeneration := 0;
             cond_LastTransitionTime := 0;
             cond_Reason := reason;
             cond_Message := message |}),
     (true, None)).

(** [clearNetworkInterfaceValidation]. *)
Definition clearNetworkInterfaceValidation (host : BareMetalHost)
  : BareMetalHost * (bool * option error) :=
  match meta.FindStatusCondition (bmh_Status_Conditions host)
          ConditionNetworkInterfacesValid with
  | Some _ =>
      (withConditions host
         (meta.RemoveStatusCondition (bmh_Status_Conditions host)
            ConditionNetworkInterfacesValid),
       (true, None))
  | None => (host, (false, None))
  end.

(** [getAvailableNICNames]: the non-empty names, sorted. *)
Definition getAvailableNICNames (nics : list NIC) : list string :=
  sort_Strings
    (flat_map (fun nic => if bool_decide (nic_Name nic ≠ "") then [nic_Name nic] else [])
       nics).

(** The set of valid keys that [performNetworkInterfaceValidation] builds:
    every discovered name and MAC address. *)
Definition availableNICs (nics : list NIC) : gmap string bool :=
  foldl
    (fun m nic =>
       let m := if bool_decide (nic_Name nic ≠ "") then <[nic_Name nic := true]> m else m in
       if bool_decide (nic_MAC nic ≠ "") then <[nic_MAC nic := true]> m else m)
    ∅ nics.

(** The keys of the declared interfaces that are not among the valid
    keys, in declaration order. *)
Definition invalidInterfacesOf (host : BareMetalHost) (details : HardwareDetails)
  : list string :=
  let available := availableNICs (hw_NIC details) in
  flat_map
    (fun netIf =>
       let key := GetKey netIf in
       if default false (available !! key) then [] else [key])
    (elems (bmh_Spec_NetworkInterfaces host)).

(** [performNetworkInterfaceValidation]; [details] is the value behind
    the hardware-details pointer of the host, which the only caller has
    checked to be non-nil. *)
Definition performNetworkInterfaceValidation (now : Z) (host : BareMetalHost)
    (details : HardwareDetails) : BareMetalHost * (bool * option error) :=
  let invalidInterfaces := invalidInterfacesOf host details in
  if bool_decide (0 < length invalidInterfaces)%nat then
    let reason := "InvalidInterfaceNames" in
    let availableNames := getAvailableNICNames (hw_NIC details) in
    let message :=
      if bool_decide (length availableNames = 0%nat) then
        "Invalid interface names: " +:+ strings_Join invalidInterfaces ", "
          +:+ ". No network interfaces discovered on this host."
      else
        "Invalid interface names: " +:+ strings_Join invalidInterfaces ", "
          +:+ ". Available interfaces: " +:+ strings_Join availableNames ", " in
    setNetworkInterfaceValidation now host ConditionFalse reason message
  else
    setNetworkInterfaceValidation now host ConditionTrue "AllInterfacesValid"
      "All network interfaces are valid".

(** [validateNetworkInterfaces]; the match on the hardware details is the
    nil test of [isHardwareDiscoveryComplete]. *)
Definition validateNetworkInterfaces (now : Z) (host : BareMetalHost)
  : BareMetalHost * (bool * option error) :=
  if bool_decide (len (bmh_Spec_NetworkInterfaces host) = 0%nat) then
    clearNetworkInterfaceValidation host
  else
    match bmh_Status_HardwareDetails host with
    | None => clearNetworkInterfaceValidation host
    | Some details => performNetworkInterfaceValidation now host details
    end.

(** [switchPortConfigurationNeedsUpdate]. *)
Definition switchPortConfigurationNeedsUpdate (host : BareMetalHost) : bool * string :=
  if bool_decide (len (bmh_Spec_NetworkInterfaces host) = 0%nat) then
    if bool_decide (0 < len (bmh_Status_AppliedNetworkInterfaces host))%nat then
      (true, "NetworkInterfacesRemoved")
    else (false, "")
  else if negb (networkInterfaceValidationPassed host) then (false, "")
  else if bool_decide (bmh_Status_AppliedNetworkInterfaces host = None) then
    (true, "InitialConfiguration")
  else if negb (reflect_DeepEqual (bmh_Spec_NetworkInterfaces host)
                  (bmh_Status_AppliedNetworkInterfaces host)) then
    (true, "NetworkInterfaceSpecChanged")
  else (false, "").

(** The loop of [resolveSwitchPortConfigs] over the declared interfaces,
    with the map built so far. *)
Fixpoint resolveLoop (c : Client) (hostNamespace : string)
    (netIfs : list NetworkInterface) (configs : gmap string SwitchPortConfig)
  : option (gmap string SwitchPortConfig) * option error :=
  match netIfs with
  | [] => (Some configs, None)
  | netIf :: rest =>
      let attachmentNS := ref_Namespace (ni_HostNetworkAttachment netIf) in
      let attachmentNS :=
        if bool_decide (attachmentNS = "") then hostNamespace else attachmentNS in
      match GetAttachmentObj c attachmentNS (ref_Name (ni_HostNetworkAttachment netIf)) with
      | Err err =>
          if IsNotFound err then resolveLoop c hostNamespace rest configs
          else
            (None,
             Some (Errorf_w
                     ("failed to get network attachment " +:+ attachmentNS +:+ "/"
                        +:+ ref_Name (ni_HostNetworkAttachment netIf) +:+ ": ")
                     err))
      | Ok attachment =>
          let key := GetKey netIf in
          resolveLoop c hostNamespace rest
            (<[key := {| spc_Mode := Mode (hna_Spec attachment);
                         spc_NativeVLAN := NativeVLAN (hna_Spec attachment);
                         spc_AllowedVLANs := AllowedVLANs (hna_Spec attachment);
                         spc_MTU := MTU (hna_Spec attachment) |}]> configs)
      end
  end.

(** [resolveSwitchPortConfigs]: the map (nil on error) and the error. *)
Definition resolveSwitchPortConfigs (c : Client) (host : BareMetalHost)
  : option (gmap string SwitchPortConfig) * option error :=
  resolveLoop c (bmh_Namespace host) (elems (bmh_Spec_NetworkInterfaces host)) ∅.

End controllers.

(** ** Switch configuration generation (package [controllers]) *)

Module switchconfig.

Definition switchConfigKey : string := "switch-configs.conf".

(** [switchConfigResult]. *)
Record switchConfigResult := {
  configEntries : gmap string (list byte);
  keyFiles : gmap string (list byte);
}.

(** [secretDataEqual]: equal sizes, and every entry of [a] found in [b]
    with equal bytes. A nil map has no entries. *)
Definition secretDataEqual (a b : option (gmap string (list byte))) : bool :=
  let a := default ∅ a in
  let b := default ∅ b in
  if bool_decide (size a ≠ size b) then false
  else
    forallb
      (fun '(k, v) =>
         match b !! k with
         | Some bv => bytes_Equal v bv
         | None => false
         end)
      (map_to_list a).

(** [updateSecretData]: the cluster after the call and the error. *)
Definition updateSecretData (c : Client) (namespace secretName : string)
    (newData : option (gmap string (list byte))) : Client * option error :=
  match GetSecretObj c namespace secretName with
  | Err err => (c, Some (Errorf_w ("failed to get secret " +:+ secretName +:+ ": ") err))
  | Ok secret =>
      if secretDataEqual (sec_Data secret) newData then (c, None)
      else
        let secret := {| sec_Namespace := sec_Namespace secret;
                         sec_Name := sec_Name secret;
                         sec_Labels := sec_Labels secret;
                         sec_Data := newData |} in
        match UpdateSecretObj c secret with
        | (c', Some err) =>
            (c', Some (Errorf_w ("failed to update secret " +:+ secretName +:+ ": ") err))
        | (c', None) => (c', None)
        end
  end.

Section Generation.

(** [filepath.Join] of two elements is left to the Go library. *)
Variable filepath_Join : string → string → string.

(** The order in which a [range] over a map of config entries yields its
    keys; Go leaves it unspecified. *)
Variable rangeKeys : gmap string (list byte) → list string.

(** [writeSwitchEntry]: the two maps after the call and the error. The
    maps are written only after the last point of failure. *)
Definition writeSwitchEntry (c : Client) (sw : BareMetalSwitch)
    (credentialsPath : string)
    (configEntries keyFiles : gmap string (list byte))
  : gmap string (list byte) * gmap string (list byte) * option error :=
  let spec := sw_Spec sw in
  let buf : Buffer := [] in
  let buf := WriteString buf ("[switch:" +:+ sw_Name sw +:+ "]" +:+ LF) in
  let buf := WriteString buf ("address=" +:+ Address spec +:+ LF) in
  let buf := WriteString buf ("mac_address=" +:+ MACAddress spec +:+ LF) in
  let buf := match Port spec with
             | Some port => WriteString buf ("port=" +:+ fmt_d port +:+ LF)
             | None => buf
             end in
  let driverType := Driver spec in
  let driverType := if bool_decide (driverType = "") then "generic-switch"
                    else driverType in
  let buf := WriteString buf ("driver_type=" +:+ driverType +:+ LF) in
  let buf := WriteString buf ("device_type=" +:+ DeviceType spec +:+ LF) in
  let buf := match DisableCertificateVerification spec with
             | Some b => WriteString buf ("insecure=" +:+ strconv_FormatBool b +:+ LF)
             | None => buf
             end in
  let secretName := cred_SecretName (Credentials spec) in
  match GetSecretObj c (sw_Namespace sw) secretName with
  | Err err =>
      (configEntries, keyFiles,
       Some (Errorf_w ("failed to get credentials secret " +:+ sw_Namespace sw
                         +:+ "/" +:+ secretName +:+ ": ") err))
  | Ok secret =>
      let data := default ∅ (sec_Data secret) in
      match data !! "username" with
      | None =>
          (configEntries, keyFiles,
           Some (errorString ("credentials secret " +:+ secretName
                                +:+ " missing 'username' key")))
      | Some username =>
          let buf := WriteString buf
                       ("username=" +:+ String.string_of_list_byte username +:+ LF) in
          if bool_decide (cred_Type (Credentials spec) = SwitchCredentialTypePublicKey) then
            match data !! "ssh-privatekey" with
            | None =>
                (configEntries, keyFiles,
                 Some (errorString ("credentials secret " +:+ secretName
                          +:+ " missing 'ssh-privatekey' key for publickey auth")))
            | Some privateKey =>
                let keyFileName :=
                  strings_ReplaceAll (MACAddress spec) ":" "-" +:+ ".key" in
                let keyFiles := <[keyFileName := privateKey]> keyFiles in
                let buf := WriteString buf
                             ("key_file=" +:+ filepath_Join credentialsPath keyFileName
                                +:+ LF) in
                let buf := WriteString buf LF in
                (<[sw_Name sw := buf]> configEntries, keyFiles, None)
            end
          else
            match data !! "password" with
            | None =>
                (configEntries, keyFiles,
                 Some (errorString ("credentials secret " +:+ secretName
                                      +:+ " missing 'password' key")))
            | Some password =>
                let buf := WriteString buf
                             ("password=" +:+ String.string_of_list_byte password +:+ LF) in
                let buf := WriteString buf LF in
                (<[sw_Name sw := buf]> configEntries, keyFiles, None)
            end
      end
  end.

(** The loop of [generateSwitchConfig] over the listed switches: the
    first failure ends it. *)
Fixpoint generateLoop (c : Client) (credentialsPath : string)
    (items : list BareMetalSwitch) (configEntries keyFiles : gmap string (list byte))
  : result switchConfigResult :=
  match items with
  | [] => Ok {| configEntries := configEntries; keyFiles := keyFiles |}
  | sw :: rest =>
      match writeSwitchEntry c sw credentialsPath configEntries keyFiles with
      | (_, _, Some err) =>
          Err (Errorf_w ("failed to generate config for switch " +:+ sw_Name sw +:+ ": ")
                 err)
      | (configEntries, keyFiles, None) =>
          generateLoop c credentialsPath rest configEntries keyFiles
      end
  end.

(** [generateSwitchConfig]. *)
Definition generateSwitchConfig (c : Client) (namespace credentialsPath : string)
  : result switchConfigResult :=
  match ListSwitchObjs c namespace with
  | Err err => Err (Errorf_w "failed to list BareMetalSwitch resources: " err)
  | Ok items => generateLoop c credentialsPath items ∅ ∅
  end.

Definition banner : string :=
  "# This file is managed by the Baremetal Operator" +:+ LF +:+ LF.

(** The blob that [updateSwitchConfigSecret] assembles: the banner, then
    the entries in the order of the sorted names. *)
Definition assembleConfig (entries : gmap string (list byte)) : list byte :=
  let switchNames := sort_Strings (rangeKeys entries) in
  let configBuf : Buffer := [] in
  let configBuf := WriteString configBuf banner in
  foldl (fun buf name => Write buf (default [] (entries !! name))) configBuf switchNames.

(** [updateSwitchConfigSecret]. *)
Definition updateSwitchConfigSecret (c : Client)
    (namespace configSecretName credentialSecretName credentialPath : string)
  : Client * option error :=
  match generateSwitchConfig c namespace credentialPath with
  | Err err => (c, Some err)
  | Ok result =>
      let config := assembleConfig (configEntries result) in
      match updateSecretData c namespace configSecretName
              (Some {[ switchConfigKey := config ]}) with
      | (c', Some err) =>
          (c', Some (Errorf_w "failed to update switch configs secret: " err))
      | (c', None) =>
          match updateSecretData c' namespace credentialSecretName
                  (Some (keyFiles result)) with
          | (c'', Some err) =>
              (c'', Some (Errorf_w "failed to update switch credentials secret: " err))
          | (c'', None) => (c'', None)
          end
      end
  end.

End Generation.

End switchconfig.

(** ** Ironic port reconciliation (package [ironic]) *)

Module ironic.

(** [ports.Port] of gophercloud, as far as [ensurePorts] reads it. *)
Record Port := {
  port_UUID : string;
  port_Address : string;
  port_PXEEnabled : bool;
}.

(** Modelled from the spec: [deduplicateNICsByMAC], whose body is not
    among the sources. MAC addresses are compared without regard to case,
    entries with an empty MAC address are dropped, and of the entries with
    one MAC address the first is kept, in input order. *)
Fixpoint dedupLoop (nics : list NIC) (seen : gset string) : list NIC :=
  match nics with
  | [] => []
  | nic :: rest =>
      let mac := strings_ToLower (nic_MAC nic) in
      if bool_decide (nic_MAC nic = "") then dedupLoop rest seen
      else if bool_decide (mac ∈ seen) then dedupLoop rest seen
      else nic :: dedupLoop rest ({[mac]} ∪ seen)
  end.
Definition deduplicateNICsByMAC (nics : list NIC) : list NIC := dedupLoop nics ∅.

(** The calls on Ironic whose bodies are not among the sources, over a
    state [World] of the Ironic service. *)
Class IronicAPI (World : Type) := {
  listNodePorts : string → World → World * result (list Port);
  ensurePort : string → NIC → bool → option SwitchPortConfig → option Port
               → World → World * option error;
  nodeHasAssignedPort : string → World → World * result bool;
  isAddressAllocatedToPort : string → World → World * result bool;
  createPXEEnabledNodePort : string → string → option SwitchPortConfig
                             → World → World * option error;
}.

(** The fields of [ironicProvisioner] that the port code reads; the stored
    hardware details are what [getStoredHardwareDetails] returns. *)
Record ironicProvisioner := {
  bootMACAddress : string;
  switchPortConfigs : gmap string SwitchPortConfig;
  storedHardwareDetails : option HardwareDetails;
}.

Section Ports.

Context {World : Type} `{IronicAPI World}.

(** [ensurePxePort]. *)
Definition ensurePxePort (p : ironicProvisioner) (nodeUUID : string) (w : World)
  : World * option error :=
  match nodeHasAssignedPort nodeUUID w with
  | (w, Err err) => (w, Some err)
  | (w, Ok assigned) =>
      if negb assigned then
        match isAddressAllocatedToPort (bootMACAddress p) w with
        | (w, Err err) => (w, Some err)
        | (w, Ok allocated) =>
            if negb allocated then
              createPXEEnabledNodePort nodeUUID (bootMACAddress p)
                (switchPortConfigs p !! bootMACAddress p) w
            else (w, None)
        end
      else (w, None)
  end.

(** The lookup map from lower-cased MAC address to port; a later port
    replaces an earlier one with the same address. *)
Definition portsByMAC (existingPorts : list Port) : gmap string Port :=
  foldl (fun m port => <[strings_ToLower (port_Address port) := port]> m)
    ∅ existingPorts.

(** One pass of the loop body of [ensurePorts] for a NIC with a MAC
    address: the call of [ensurePort] with its arguments. *)
Definition ensureNIC (p : ironicProvisioner) (nodeUUID : string)
    (byMAC : gmap string Port) (nic : NIC) (w : World) : World * option error :=
  let isPXEPort := nic_PXE nic || strings_EqualFold (nic_MAC nic) (bootMACAddress p) in
  let switchConfig : option SwitchPortConfig :=
    if bool_decide (nic_Name nic ≠ "")
    then switchPortConfigs p !! strings_ToLower (nic_Name nic) else None in
  let switchConfig :=
    match switchConfig with
    | None => if bool_decide (nic_MAC nic ≠ "")
              then switchPortConfigs p !! strings_ToLower (nic_MAC nic) else None
    | Some cfg => Some cfg
    end in
  let existingPort := byMAC !! strings_ToLower (nic_MAC nic) in
  ensurePort nodeUUID nic isPXEPort switchConfig existingPort w.

(** The loop of [ensurePorts] over the unique NICs, with the failures
    and the success count so far. *)
Fixpoint ensureLoop (p : ironicProvisioner) (nodeUUID : string)
    (byMAC : gmap string Port) (nics : list NIC)
    (failures : list string) (successCount : nat) (w : World)
  : World * (list string * nat) :=
  match nics with
  | [] => (w, (failures, successCount))
  | nic :: rest =>
      if bool_decide (nic_MAC nic = "") then
        ensureLoop p nodeUUID byMAC rest failures successCount w
      else
        match ensureNIC p nodeUUID byMAC nic w with
        | (w, Some err) =>
            ensureLoop p nodeUUID byMAC rest
              (failures ++ [nic_Name nic +:+ "(" +:+ nic_MAC nic +:+ "): " +:+ Error err])
              successCount w
        | (w, None) =>
            ensureLoop p nodeUUID byMAC rest failures (S successCount) w
        end
  end.

(** [ensurePorts]. *)
Definition ensurePorts (p : ironicProvisioner) (nodeUUID : string) (w : World)
  : World * option error :=
  match storedHardwareDetails p with
  | None =>
      if bool_decide (bootMACAddress p ≠ "") then ensurePxePort p nodeUUID w
      else (w, None)
  | Some hardwareDetails =>
      let uniqueNICs := deduplicateNICsByMAC (hw_NIC hardwareDetails) in
      match listNodePorts nodeUUID w with
      | (w, Err err) => (w, Some (Errorf_w "failed to list existing ports: " err))
      | (w, Ok existingPorts) =>
          let byMAC := portsByMAC existingPorts in
          let '(w, (failures, successCount)) :=
            ensureLoop p nodeUUID byMAC uniqueNICs [] O w in
          if bool_decide (0 < length failures)%nat then
            let reported := failures in
            let reported := if bool_decide (3 < length reported)%nat
                            then take 3 reported else reported in
            (w, Some (errorString
                        ("failed to ensure " +:+ fmt_d (Z.of_nat (length failures))
                           +:+ "/" +:+ fmt_d (Z.of_nat (length uniqueNICs))
                           +:+ " ports: " +:+ strings_Join reported "; ")))
          else (w, None)
      end
  end.

End Ports.

End ironic.

(** ** Applying the configuration to the provisioner (package [controllers]) *)

Module hostapply.

Import controllers.

(** The method of the provisioner interface that the host controller calls,
    over a state [P] of the provisioner; its implementations are not among
    the sources. The argument is a Go map, nil or not. *)
Class Provisioner (P : Type) := {
  SetSwitchPortConfigs : option (gmap string SwitchPortConfig) → P → P * option error;
}.

(** [actionResult], as far as [manageSwitchPortConfigs] builds it. *)
Inductive actionResult :=
| actionError (err : error)
| actionUpdate
| actionContinue.

(** A host with its applied interface list replaced. *)
Definition withApplied (host : BareMetalHost) (applied : option (list NetworkInterface))
  : BareMetalHost :=
  {| bmh_Namespace := bmh_Namespace host;
     bmh_Name := bmh_Name host;
     bmh_Spec_NetworkInterfaces := bmh_Spec_NetworkInterfaces host;
     bmh_Status_HardwareDetails := bmh_Status_HardwareDetails host;
     bmh_Status_AppliedNetworkInterfaces := applied;
     bmh_Status_Conditions := bmh_Status_Conditions host;
     bmh_Status_Provisioning_State := bmh_Status_Provisioning_State host |}.

Section Apply.

Context {P : Type} `{Provisioner P}.

(** The four provisioning states of [metal3api] that the table names; their
    declarations are not among the sources. *)
Variables StateRegistering StatePreparing StateAvailable StateInspecting : string.

(** [allowedPortUpdateStates]. *)
Definition allowedPortUpdateStates : gmap string bool :=
  <[StateInspecting := true]>
    (<[StateAvailable := true]>
       (<[StatePreparing := true]>
          (<[StateRegistering := true]> ∅))).

(** [ironicAllowsPortUpdates]. *)
Definition ironicAllowsPortUpdates (host : BareMetalHost) : bool :=
  default false (allowedPortUpdateStates !! bmh_Status_Provisioning_State host).

(** [applySwitchPortConfigs]: the host and the provisioner after the call,
    the dirty flag and the error. *)
Definition applySwitchPortConfigs (c : Client) (prov : P) (host : BareMetalHost)
  : BareMetalHost * P * (bool * option error) :=
  let '(needsUpdate, _) := switchPortConfigurationNeedsUpdate host in
  if negb needsUpdate then (host, prov, (false, None))
  else if negb (ironicAllowsPortUpdates host) then (host, prov, (false, None))
  else if bool_decide (len (bmh_Spec_NetworkInterfaces host) = 0%nat) then
    match SetSwitchPortConfigs (Some ∅) prov with
    | (prov, Some err) =>
        (host, prov,
         (false, Some (Errorf_w "failed to clear switch port configurations: " err)))
    | (prov, None) => (withApplied host None, prov, (true, None))
    end
  else
    match resolveSwitchPortConfigs c host with
    | (_, Some err) =>
        (host, prov,
         (false, Some (Errorf_w "failed to resolve switch port configurations: " err)))
    | (configs, None) =>
        match SetSwitchPortConfigs configs prov with
        | (prov, Some err) =>
            (host, prov,
             (false,
              Some (Errorf_w "failed to apply switch port configuration to ports: " err)))
        | (prov, None) =>
            (withApplied host (Some (elems (bmh_Spec_NetworkInterfaces host))), prov,
             (true, None))
        end
    end.

(** [manageSwitchPortConfigs]: validation first; the configuration is
    applied only when validation left the host as it was. *)
Definition manageSwitchPortConfigs (now : Z) (c : Client) (prov : P) (host : BareMetalHost)
  : BareMetalHost * P * actionResult :=
  match validateNetworkInterfaces now host with
  | (host, (_, Some err)) => (host, prov, actionError err)
  | (host, (true, None)) => (host, prov, actionUpdate)
  | (host, (false, None)) =>
      match applySwitchPortConfigs c prov host with
      | (host, prov, (_, Some err)) => (host, prov, actionError err)
      | (host, prov, (true, None)) => (host, prov, actionUpdate)
      | (host, prov, (false, None)) => (host, prov, actionContinue)
      end
  end.

End Apply.

End hostapply.

(** ** The BareMetalSwitch reconciler (package [controllers]) *)

Module switchcontroller.

Import switchconfig.

(** The configuration of [BareMetalSwitchReconciler]. *)
Record BareMetalSwitchReconciler := {
  SwitchConfigsSecretName : string;
  SwitchCredentialSecretName : string;
  SwitchCredentialPath : string;
}.

(** [types.NamespacedName], of a reconcile request or of a secret. *)
Record NamespacedName := {
  nn_Namespace : string;
  nn_Name : string;
}.

Section Reconcile.

Variable filepath_Join : string → string → string.
Variable rangeKeys : gmap string (list byte) → list string.

(** The error with which the get of a switch fails, if it does. *)
Variable getSwitchFault : NamespacedName → option error.

(** [Client.Get] of a BareMetalSwitch. *)
Definition GetSwitchObj (c : Client) (key : NamespacedName) : result BareMetalSwitch :=
  match getSwitchFault key with
  | Some e => Err e
  | None =>
      match list_find (fun sw => sw_Namespace sw = nn_Namespace key
                                 ∧ sw_Name sw = nn_Name key) (cl_Switches c) with
      | Some (_, sw) => Ok sw
      | None => Err (NewNotFound "baremetalswitches.metal3.io" (nn_Name key))
      end
  end.

(** [Reconcile]: the cluster after the call and the error; the returned
    [ctrl.Result] is always the zero value. *)
Definition Reconcile (r : BareMetalSwitchReconciler) (c : Client) (req : NamespacedName)
  : Client * option error :=
  match GetSwitchObj c req with
  | Err err =>
      if IsNotFound err then
        match updateSwitchConfigSecret filepath_Join rangeKeys c (nn_Namespace req)
                (SwitchConfigsSecretName r) (SwitchCredentialSecretName r)
                (SwitchCredentialPath r) with
        | (c, Some err) =>
            (c, Some (Errorf_w "failed to update switch config after deletion: " err))
        | (c, None) => (c, None)
        end
      else (c, Some (Errorf_w "could not load BareMetalSwitch: " err))
  | Ok bmSwitch =>
      match updateSwitchConfigSecret filepath_Join rangeKeys c (sw_Namespace bmSwitch)
              (SwitchConfigsSecretName r) (SwitchCredentialSecretName r)
              (SwitchCredentialPath r) with
      | (c, Some err) => (c, Some (Errorf_w "failed to update switch config: " err))
      | (c, None) => (c, None)
      end
  end.

End Reconcile.

(** [findSwitchesForSecret]: a request for every switch of the namespace of
    the secret that names it as its credentials; none when the list call
    fails. *)
Definition findSwitchesForSecret (c : Client) (secret : NamespacedName)
  : list NamespacedName :=
  match ListSwitchObjs c (nn_Namespace secret) with
  | Err _ => []
  | Ok items =>
      flat_map
        (fun sw =>
           if bool_decide (cred_SecretName (Credentials (sw_Spec sw)) = nn_Name secret)
           then [{| nn_Namespace := sw_Namespace sw; nn_Name := sw_Name sw |}]
           else [])
        items
  end.

End switchcontroller.

(** ** Comparing BMC addresses (package [ironic]) *)

Module ironicnode.

(** [strings.HasSuffix]. *)
Fixpoint hasSuffix (s suffix : string) : bool :=
  bool_decide (s = suffix) ||
  match s with
  | "" => false
  | String _ s' => hasSuffix s' suffix
  end.

(** A match of the regular expression "_address$": the key ends with
    "_address". *)
Definition matchesAddress (key : string) : bool := hasSuffix key "_address".

Section DriverInfo.

(** The values of a driver-info map, of Go type [any]. On the values such
    a map holds (strings, booleans, numbers other than NaN)
    [reflect.DeepEqual] is equality, which is what the embedding takes it
    to be. *)
Context {V : Type} `{EqDecision V}.

(** The order in which a [range] over a driver-info map yields its entries;
    Go leaves it unspecified. *)
Variable rangeEntries : gmap string V → list (string * V).

(** The map with the first entry, in range order, whose key matches; the
    loop breaks there. *)
Definition firstAddress (driverInfo : gmap string V) : gmap string V :=
  match list_find (fun kv => matchesAddress kv.1 = true) (rangeEntries driverInfo) with
  | Some (_, (key, value)) => {[ key := value ]}
  | None => ∅
  end.

(** [bmcAddressMatches]; a nil driver-info map of the node has no entry. *)
Definition bmcAddressMatches (nodeDriverInfo driverInfo : gmap string V) : bool :=
  let newAddress := firstAddress driverInfo in
  let ironicAddress := firstAddress nodeDriverInfo in
  reflect_DeepEqual newAddress ironicAddress.

End DriverInfo.

End ironicnode.

(** * Vocabulary of the statements, and the scenarios of the tests *)

Section StringVocabulary.

(** [x] occurs in [s]. *)
Definition Substr (x s : string) : Prop := ∃ p q, s = p +:+ x +:+ q.

End StringVocabulary.

Section ValidationVocabulary.

Import webhooks.

Definition vlanOutOfRange (vlan : Z) : Prop := (vlan < 1 ∨ 4094 < vlan)%Z.
Definition mtuOutOfRange (mtu : Z) : Prop := (mtu < 68 ∨ 9000 < mtu)%Z.

(** Some error of the list has a message containing "out of range". *)
Definition reportsOutOfRange (errs : list error) : Prop :=
  ∃ e, e ∈ errs ∧ strings_Contains (Error e) "out of range" = true.

(** Some field of the attachment is outside its range: the native VLAN,
    an allowed VLAN, or the MTU if present. *)
Definition rangeViolation (a : HostNetworkAttachment) : Prop :=
  vlanOutOfRange (NativeVLAN (hna_Spec a))
  ∨ (∃ vlan, vlan ∈ elems (AllowedVLANs (hna_Spec a)) ∧ vlanOutOfRange vlan)
  ∨ (∃ mtu, MTU (hna_Spec a) = Some mtu ∧ mtuOutOfRange mtu).

Definition isTrunkOrHybrid (a : HostNetworkAttachment) : Prop :=
  Mode (hna_Spec a) = SwitchportModeTrunk ∨ Mode (hna_Spec a) = SwitchportModeHybrid.

(** The switch on the mode of [validateSwitchportConfiguration] finds no
    error. *)
Definition modeCheckPasses (a : HostNetworkAttachment) : Prop :=
  (Mode (hna_Spec a) = SwitchportModeAccess ∧ len (AllowedVLANs (hna_Spec a)) = 0%nat)
  ∨ (isTrunkOrHybrid a
     ∧ ∀ vlan, vlan ∈ elems (AllowedVLANs (hna_Spec a)) → ¬ vlanOutOfRange vlan).

Definition isKnownMode (a : HostNetworkAttachment) : Prop :=
  Mode (hna_Spec a) = SwitchportModeAccess ∨ isTrunkOrHybrid a.

End ValidationVocabulary.

Section ValidationScenarios.

Import webhooks.

(** An access-mode attachment with one allowed VLAN and native VLAN 0. *)
Definition accessWithAllowed : HostNetworkAttachment :=
  {| hna_Namespace := "test-ns"; hna_Name := "test-attachment"; hna_Labels := ∅;
     hna_Spec := {| Mode := SwitchportModeAccess; NativeVLAN := 0;
                    AllowedVLANs := Some [200%Z]; MTU := None |} |}.

(** An attachment with an unknown mode and native VLAN 5000. *)
Definition unknownModeAttachment : HostNetworkAttachment :=
  {| hna_Namespace := "test-ns"; hna_Name := "test-attachment"; hna_Labels := ∅;
     hna_Spec := {| Mode := "invalid-mode"; NativeVLAN := 5000;
                    AllowedVLANs := None; MTU := None |} |}.

(** An attachment with native VLAN 5000 and the same with another label. *)
Definition invalidAttachment (labels : gmap string string) : HostNetworkAttachment :=
  {| hna_Namespace := "test-ns"; hna_Name := "test-attachment"; hna_Labels := labels;
     hna_Spec := {| Mode := SwitchportModeAccess; NativeVLAN := 5000;
                    AllowedVLANs := None; MTU := None |} |}.

End ValidationScenarios.

Section GuardVocabulary.

Import webhooks.

(** The attachment namespace an interface of a host refers to. *)
Definition refNamespace (h : BareMetalHost) (netIf : NetworkInterface) : string :=
  if bool_decide (ref_Namespace (ni_HostNetworkAttachment netIf) = "")
  then bmh_Namespace h else ref_Namespace (ni_HostNetworkAttachment netIf).

(** The declared interface [netIf] of host [h] references the attachment. *)
Definition references (att : HostNetworkAttachment) (h : BareMetalHost)
    (netIf : NetworkInterface) : Prop :=
  netIf ∈ elems (bmh_Spec_NetworkInterfaces h)
  ∧ ref_Name (ni_HostNetworkAttachment netIf) = hna_Name att
  ∧ refNamespace h netIf = hna_Namespace att.

(** How a referencing pair is named: "namespace/host[interface]". *)
Definition refString (h : BareMetalHost) (netIf : NetworkInterface) : string :=
  bmh_Namespace h +:+ "/" +:+ bmh_Name h +:+ "[" +:+ ni_Name netIf +:+ "]".

(** The hosts that the list call of [findBMHReferences] selects. *)
Definition listed (c : Client) (att : HostNetworkAttachment) : list BareMetalHost :=
  filter
    (fun bmh =>
       (hna_Namespace att = "" ∨ bmh_Namespace bmh = hna_Namespace att)
       ∧ hna_Namespace att +:+ "/" +:+ hna_Name att ∈ indexBMH bmh)
    (cl_Hosts c).

End GuardVocabulary.

Section GuardScenarios.

Import webhooks.

(** The attachment test-ns/test-attachment, and a changed spec for it. *)
Definition testAttachment (mode : SwitchportMode) (native : Z) : HostNetworkAttachment :=
  {| hna_Namespace := "test-ns"; hna_Name := "test-attachment"; hna_Labels := ∅;
     hna_Spec := {| Mode := mode; NativeVLAN := native;
                    AllowedVLANs := None; MTU := None |} |}.

Definition eth0To (refNS : string) : NetworkInterface :=
  {| ni_Name := "eth0"; ni_MACAddress := "";
     ni_HostNetworkAttachment :=
       {| ref_Name := "test-attachment"; ref_Namespace := refNS |} |}.

Definition hostWithRef (namespace refNS : string) : BareMetalHost :=
  {| bmh_Namespace := namespace; bmh_Name := "host-with-ref";
     bmh_Spec_NetworkInterfaces := Some [eth0To refNS];
     bmh_Status_HardwareDetails := None;
     bmh_Status_AppliedNetworkInterfaces := None;
     bmh_Status_Conditions := [];
     bmh_Status_Provisioning_State := "available" |}.

Definition clusterOf (hosts : list BareMetalHost) : Client :=
  {| cl_Hosts := hosts; cl_ListError := None |}.

End GuardScenarios.

Section DriftScenarios.

Import controllers.

Definition namedInterface (name : string) : NetworkInterface :=
  {| ni_Name := name; ni_MACAddress := "";
     ni_HostNetworkAttachment := {| ref_Name := "net-a"; ref_Namespace := "" |} |}.

Definition validCondition : Condition :=
  {| cond_Type := ConditionNetworkInterfacesValid; cond_Status := ConditionTrue;
     cond_ObservedGeneration := 0; cond_LastTransitionTime := 7;
     cond_Reason := "AllInterfacesValid";
     cond_Message := "All network interfaces are valid" |}.

Definition driftHost (declared applied : option (list NetworkInterface))
    (conditions : list Condition) : BareMetalHost :=
  {| bmh_Namespace := "test-ns"; bmh_Name := "host-0";
     bmh_Spec_NetworkInterfaces := declared;
     bmh_Status_HardwareDetails := None;
     bmh_Status_AppliedNetworkInterfaces := applied;
     bmh_Status_Conditions := conditions;
     bmh_Status_Provisioning_State := "available" |}.

End DriftScenarios.

Section ResolverVocabulary.

Import controllers.

(** The fetch that [resolveSwitchPortConfigs] makes for an interface of a
    host of namespace [ns]. *)
Definition fetch (c : Client) (ns : string) (netIf : NetworkInterface)
  : result HostNetworkAttachment :=
  GetAttachmentObj c
    (if bool_decide (ref_Namespace (ni_HostNetworkAttachment netIf) = "")
     then ns else ref_Namespace (ni_HostNetworkAttachment netIf))
    (ref_Name (ni_HostNetworkAttachment netIf)).

(** The fetch fails for a reason other than not-found. *)
Definition fetchFails (c : Client) (ns : string) (netIf : NetworkInterface) : Prop :=
  ∃ e, fetch c ns netIf = Err e ∧ IsNotFound e = false.

(** The attachment is not found. *)
Definition fetchNotFound (c : Client) (ns : string) (netIf : NetworkInterface) : Prop :=
  ∃ e, fetch c ns netIf = Err e ∧ IsNotFound e = true.

Definition configOf (a : HostNetworkAttachment) : SwitchPortConfig :=
  {| spc_Mode := Mode (hna_Spec a);
     spc_NativeVLAN := NativeVLAN (hna_Spec a);
     spc_AllowedVLANs := AllowedVLANs (hna_Spec a);
     spc_MTU := MTU (hna_Spec a) |}.

(** The entries that the interfaces with a found attachment contribute,
    in declaration order. *)
Definition foundConfigs (c : Client) (ns : string) (netIfs : list NetworkInterface)
  : list (string * SwitchPortConfig) :=
  flat_map
    (fun netIf =>
       match fetch c ns netIf with
       | Ok a => [(GetKey netIf, configOf a)]
       | Err _ => []
       end)
    netIfs.

Definition insertAll (entries : list (string * SwitchPortConfig))
    (configs : gmap string SwitchPortConfig) : gmap string SwitchPortConfig :=
  foldl (fun m kv => <[kv.1 := kv.2]> m) configs entries.

End ResolverVocabulary.

Section NetworkScenarios.

Import controllers.

Definition emptyCluster : Client :=
  {| cl_Attachments := ∅; cl_Secrets := ∅; cl_Switches := [];
     cl_Fault := fun _ => None; cl_Updates := [] |}.

Definition discoveredNIC (name mac : string) : NIC :=
  {| nic_Name := name; nic_MAC := mac; nic_IP := ""; nic_PXE := false;
     nic_LLDP_SwitchID := ""; nic_LLDP_PortID := ""; nic_LLDP_SwitchSystemName := "" |}.

(** A host that declares one interface, with the hardware details of two
    discovered NICs. *)
Definition inspectedHost (declared : string) : BareMetalHost :=
  {| bmh_Namespace := "test-ns"; bmh_Name := "host-0";
     bmh_Spec_NetworkInterfaces := Some [namedInterface declared];
     bmh_Status_HardwareDetails :=
       Some {| hw_NIC := [discoveredNIC "eth1" "00:11:22:33:44:56";
                          discoveredNIC "eth0" "00:11:22:33:44:55"] |};
     bmh_Status_AppliedNetworkInterfaces := None;
     bmh_Status_Conditions := [];
     bmh_Status_Provisioning_State := "available" |}.

(** A host whose only interface references an attachment that does not
    exist. *)
Definition danglingHost : BareMetalHost :=
  {| bmh_Namespace := "test-ns"; bmh_Name := "host-0";
     bmh_Spec_NetworkInterfaces :=
       Some [ {| ni_Name := "eth0"; ni_MACAddress := "";
                 ni_HostNetworkAttachment :=
                   {| ref_Name := "non-existent"; ref_Namespace := "" |} |} ];
     bmh_Status_HardwareDetails := None;
     bmh_Status_AppliedNetworkInterfaces := None;
     bmh_Status_Conditions := [];
     bmh_Status_Provisioning_State := "available" |}.

End NetworkScenarios.

Section SecretVocabulary.

Import switchconfig.

(** A secret with its data replaced. *)
Definition withData (secret : Secret) (data : option (gmap string (list byte))) : Secret :=
  {| sec_Namespace := sec_Namespace secret; sec_Name := sec_Name secret;
     sec_Labels := sec_Labels secret; sec_Data := data |}.

End SecretVocabulary.

Section GenerationVocabulary.

Import switchconfig.
Variable filepath_Join : string → string → string.

(** The section that [writeSwitchEntry] renders for a switch, if it
    succeeds. *)
Definition sectionOf (c : Client) (sw : BareMetalSwitch) (credentialsPath : string)
  : option (list byte) :=
  match writeSwitchEntry filepath_Join c sw credentialsPath ∅ ∅ with
  | (entries, _, None) => entries !! sw_Name sw
  | (_, _, Some _) => None
  end.

Definition sectionBytes (c : Client) (credentialsPath : string) (sw : BareMetalSwitch)
  : list byte :=
  default [] (sectionOf c sw credentialsPath).


End GenerationVocabulary.

Section GenerationScenarios.

Import switchconfig.

(** The switch of the scenario: switch1 with address, MAC address and device
    type, password credentials in the named secret, and no driver, port or
    certificate-verification flag. *)
Definition switch1 (ns secretName : string) : BareMetalSwitch :=
  {| sw_Namespace := ns; sw_Name := "switch1";
     sw_Spec := {| Address := "192.168.1.1";
                   MACAddress := "00:00:5e:00:53:01";
                   Driver := "";
                   DeviceType := "cisco_ios";
                   Credentials := {| cred_Type := SwitchCredentialTypePassword;
                                     cred_SecretName := secretName |};
                   Port := None;
                   DisableCertificateVerification := None |} |}.

Definition switch1Section : list byte :=
  String.list_byte_of_string
    ("[switch:switch1]" +:+ LF
     +:+ "address=192.168.1.1" +:+ LF
     +:+ "mac_address=00:00:5e:00:53:01" +:+ LF
     +:+ "driver_type=generic-switch" +:+ LF
     +:+ "device_type=cisco_ios" +:+ LF
     +:+ "username=admin" +:+ LF
     +:+ "password=secret123" +:+ LF
     +:+ LF).

Definition passwordSecret (user password : string) : SecretContent :=
  {| sc_Labels := ∅;
     sc_Data := Some {[ "username" := String.list_byte_of_string user;
                        "password" := String.list_byte_of_string password ]} |}.

(** The cluster of the scenario: switch1 and its credentials secret. *)
Definition switch1Cluster : Client :=
  {| cl_Attachments := ∅;
     cl_Secrets := {[ ("test-ns", "switch1-creds") := passwordSecret "admin" "secret123" ]};
     cl_Switches := [switch1 "test-ns" "switch1-creds"];
     cl_Fault := fun _ => None;
     cl_Updates := [] |}.

Definition simpleJoin (dir file : string) : string := dir +:+ "/" +:+ file.

End GenerationScenarios.

Section PublicationScenarios.

Import switchconfig.

Definition switch2 : BareMetalSwitch :=
  {| sw_Namespace := "test-ns"; sw_Name := "switch2";
     sw_Spec := {| Address := "switch.example.com";
                   MACAddress := "aa:bb:cc:dd:ee:ff";
                   Driver := "generic-switch";
                   DeviceType := "dell_os10";
                   Credentials := {| cred_Type := SwitchCredentialTypePublicKey;
                                     cred_SecretName := "switch2-creds" |};
                   Port := Some 8443%Z;
                   DisableCertificateVerification := Some true |} |}.

(** A namespace with switch2 listed before switch1, their credentials, and
    the two secrets to publish into, one with nil data and one with an
    empty map. *)
Definition twoSwitchCluster : Client :=
  {| cl_Attachments := ∅;
     cl_Secrets :=
       {[ ("test-ns", "switch1-creds") := passwordSecret "admin" "secret123";
          ("test-ns", "switch2-creds") :=
            {| sc_Labels := ∅;
               sc_Data := Some {[ "username" := String.list_byte_of_string "netops";
                                  "ssh-privatekey" := String.list_byte_of_string "KEY" ]} |};
          ("test-ns", "switch-configs") := {| sc_Labels := ∅; sc_Data := None |};
          ("test-ns", "switch-credentials") := {| sc_Labels := ∅; sc_Data := Some ∅ |} ]};
     cl_Switches := [switch2; switch1 "test-ns" "switch1-creds"];
     cl_Fault := fun _ => None;
     cl_Updates := [] |}.

Definition keysInMapOrder (m : gmap string (list byte)) : list string :=
  (map_to_list m).*1.
Definition keysReversed (m : gmap string (list byte)) : list string :=
  reverse (map_to_list m).*1.

Definition switch2Section : list byte :=
  String.list_byte_of_string
    ("[switch:switch2]" +:+ LF
     +:+ "address=switch.example.com" +:+ LF
     +:+ "mac_address=aa:bb:cc:dd:ee:ff" +:+ LF
     +:+ "port=8443" +:+ LF
     +:+ "driver_type=generic-switch" +:+ LF
     +:+ "device_type=dell_os10" +:+ LF
     +:+ "insecure=true" +:+ LF
     +:+ "username=netops" +:+ LF
     +:+ "key_file=/creds/aa-bb-cc-dd-ee-ff.key" +:+ LF
     +:+ LF).

End PublicationScenarios.

Section PortVocabulary.

Import ironic.
Context {World : Type} `{IronicAPI World}.

(** The pass over the NICs in which every NIC gets its call of
    [ensurePort], whatever the outcome of the calls before it: the state of
    Ironic after the last call and the outcome for each NIC. *)
Fixpoint ensureAll (p : ironicProvisioner) (nodeUUID : string)
    (byMAC : gmap string Port) (nics : list NIC) (w : World)
  : World * list (NIC * option error) :=
  match nics with
  | [] => (w, [])
  | nic :: rest =>
      let '(w1, outcome) := ensureNIC p nodeUUID byMAC nic w in
      let '(w2, outcomes) := ensureAll p nodeUUID byMAC rest w1 in
      (w2, (nic, outcome) :: outcomes)
  end.

(** One line "interface(MAC): cause" per failed NIC, in order. *)
Definition failureLines (outcomes : list (NIC * option error)) : list string :=
  flat_map
    (fun '(nic, outcome) =>
       match outcome with
       | Some err => [nic_Name nic +:+ "(" +:+ nic_MAC nic +:+ "): " +:+ Error err]
       | None => []
       end)
    outcomes.

Definition hasMAC (nic : NIC) : Prop := nic_MAC nic ≠ "".

End PortVocabulary.

Section PortScenarios.

Import ironic.

(** An Ironic that records the MAC addresses [ensurePort] is called for and
    refuses every NIC whose name starts with "bad". *)
Definition refusing (mac : string) (nic : NIC) (calls : list string)
  : list string * option error :=
  (calls ++ [mac],
   if String.prefix "bad" (nic_Name nic)
   then Some (errorString ("port create failed for " +:+ mac)) else None).

#[global] Instance recordingIronic : IronicAPI (list string) :=
  {| listNodePorts := fun _ calls => (calls, Ok []);
     ensurePort := fun _ nic _ _ _ calls => refusing (nic_MAC nic) nic calls;
     nodeHasAssignedPort := fun _ calls => (calls, Ok false);
     isAddressAllocatedToPort := fun _ calls => (calls, Ok false);
     createPXEEnabledNodePort := fun _ mac _ calls => (calls ++ [mac], None) |}.

Definition fiveNICs : HardwareDetails :=
  {| hw_NIC := [discoveredNIC "bad0" "aa:bb:cc:dd:ee:01";
                discoveredNIC "bad1" "aa:bb:cc:dd:ee:02";
                discoveredNIC "bad1" "AA:BB:CC:DD:EE:02";
                discoveredNIC "eth2" "aa:bb:cc:dd:ee:03";
                discoveredNIC "nomac" "";
                discoveredNIC "bad3" "aa:bb:cc:dd:ee:04";
                discoveredNIC "bad4" "aa:bb:cc:dd:ee:05"] |}.

Definition inspectedProvisioner : ironicProvisioner :=
  {| bootMACAddress := "aa:bb:cc:dd:ee:01"; switchPortConfigs := ∅;
     storedHardwareDetails := Some fiveNICs |}.

End PortScenarios.

Section AdmissionVocabulary.

Import webhooks.

(** The attachment passes every field check of [validateAttachment]. *)
Definition validAttachment (a : HostNetworkAttachment) : Prop :=
  modeCheckPasses a
  ∧ ¬ vlanOutOfRange (NativeVLAN (hna_Spec a))
  ∧ ∀ mtu, MTU (hna_Spec a) = Some mtu → ¬ mtuOutOfRange mtu.

(** The message of [validateVLANID] for a VLAN ID. *)
Definition vlanMessage (vlan : Z) : string :=
  "VLAN ID " +:+ fmt_d vlan +:+ " is out of range (1-4094)".

(** The hosts that a list call limited to the namespace of the attachment
    returns without a field selector. *)
Definition namespaceHosts (c : Client) (att : HostNetworkAttachment) : list BareMetalHost :=
  filter (fun bmh => hna_Namespace att = "" ∨ bmh_Namespace bmh = hna_Namespace att)
    (cl_Hosts c).

End AdmissionVocabulary.

Section HostVocabulary.

Import controllers.

(** The key is the name or the MAC address of a discovered NIC; an empty
    key is never one. *)
Definition keyDiscovered (nics : list NIC) (key : string) : Prop :=
  key ≠ "" ∧ ∃ nic, nic ∈ nics ∧ (nic_Name nic = key ∨ nic_MAC nic = key).

(** The NetworkInterfacesValid condition of a host, if any. *)
Definition validityCondition (host : BareMetalHost) : option Condition :=
  meta.FindStatusCondition (bmh_Status_Conditions host) ConditionNetworkInterfacesValid.

End HostVocabulary.

Section ApplyScenarios.

Import controllers hostapply.

(** A provisioner that records the maps it is given and accepts them. *)
#[global] Instance recordingProvisioner
  : Provisioner (list (option (gmap string SwitchPortConfig))) :=
  {| SetSwitchPortConfigs := fun configs calls => (calls ++ [configs], None) |}.

(** A cluster with the attachment test-ns/net-a. *)
Definition netACluster : Client :=
  {| cl_Attachments :=
       {[ ("test-ns", "net-a") :=
            {| ac_Labels := ∅;
               ac_Spec := {| Mode := "trunk"; NativeVLAN := 100;
                             AllowedVLANs := Some [200%Z; 300%Z]; MTU := Some 9000%Z |} |} ]};
     cl_Secrets := ∅; cl_Switches := [];
     cl_Fault := fun _ => None; cl_Updates := [] |}.

(** A validated host that declares eth0 and has nothing applied yet. *)
Definition pendingHost : BareMetalHost :=
  driftHost (Some [namedInterface "eth0"]) None [validCondition].

End ApplyScenarios.

Section CredentialVocabulary.

Import switchconfig.

(** The bytes that the credentials secret of a switch holds under a key,
    if the secret can be read and has the key. *)
Definition credential (c : Client) (sw : BareMetalSwitch) (key : string)
  : option (list byte) :=
  match GetSecretObj c (sw_Namespace sw) (cred_SecretName (Credentials (sw_Spec sw))) with
  | Ok secret => default ∅ (sec_Data secret) !! key
  | Err _ => None
  end.

Definition usesPublicKey (sw : BareMetalSwitch) : Prop :=
  cred_Type (Credentials (sw_Spec sw)) = SwitchCredentialTypePublicKey.

(** The key of the credentials secret that holds the secret part. *)
Definition secretKeyOf (sw : BareMetalSwitch) : string :=
  if bool_decide (usesPublicKey sw) then "ssh-privatekey" else "password".

Definition credentialsComplete (c : Client) (sw : BareMetalSwitch) : Prop :=
  is_Some (credential c sw "username") ∧ is_Some (credential c sw (secretKeyOf sw)).

(** The name of the key file of a switch. *)
Definition keyFileName (sw : BareMetalSwitch) : string :=
  strings_ReplaceAll (MACAddress (sw_Spec sw)) ":" "-" +:+ ".key".

(** The private key that a switch contributes to the key files. *)
Definition privateKeyOf (c : Client) (sw : BareMetalSwitch) : option (list byte) :=
  if bool_decide (usesPublicKey sw) then credential c sw "ssh-privatekey" else None.

Definition withKeyFile (c : Client) (sw : BareMetalSwitch)
    (keys : gmap string (list byte)) : gmap string (list byte) :=
  match privateKeyOf c sw with
  | Some key => <[keyFileName sw := key]> keys
  | None => keys
  end.

End CredentialVocabulary.

Section DriverInfoVocabulary.

Import ironicnode.

Context {V : Type}.

(** At most one key of the map ends with "_address". *)
Definition atMostOneAddress (m : gmap string V) : Prop :=
  ∀ k1 k2, is_Some (m !! k1) → is_Some (m !! k2) →
           matchesAddress k1 = true → matchesAddress k2 = true → k1 = k2.

(** A range order that yields the entry of one key first, when the map has
    it, and the other entries after it. *)
Definition rangeFirst (first : string) (m : gmap string V) : list (string * V) :=
  filter (fun kv => kv.1 = first) (map_to_list m)
  ++ filter (fun kv => kv.1 ≠ first) (map_to_list m).

End DriverInfoVocabulary.

Section CoverageScenarios.

Import controllers hostapply switchconfig switchcontroller.

(** What the attachment test-ns/net-a resolves to. *)
Definition netAConfig : SwitchPortConfig :=
  {| spc_Mode := "trunk"; spc_NativeVLAN := 100;
     spc_AllowedVLANs := Some [200%Z; 300%Z]; spc_MTU := Some 9000%Z |}.

(** What [generateSwitchConfig] returns for the two switches with the
    credentials path /creds. *)
Definition twoSwitchResult : switchConfigResult :=
  {| configEntries := {[ "switch1" := switch1Section; "switch2" := switch2Section ]};
     keyFiles := {[ "aa-bb-cc-dd-ee-ff.key" := String.list_byte_of_string "KEY" ]} |}.

(** A switch whose credentials secret does not exist, listed between the
    two switches. *)
Definition orphanSwitch : BareMetalSwitch :=
  {| sw_Namespace := "test-ns"; sw_Name := "switch3";
     sw_Spec := {| Address := "10.0.0.3";
                   MACAddress := "00:00:5e:00:53:03";
                   Driver := "";
                   DeviceType := "cisco_ios";
                   Credentials := {| cred_Type := SwitchCredentialTypePassword;
                                     cred_SecretName := "no-such-secret" |};
                   Port := None;
                   DisableCertificateVerification := None |} |}.

Definition orphanCluster : Client :=
  {| cl_Attachments := ∅;
     cl_Secrets := cl_Secrets twoSwitchCluster;
     cl_Switches := [switch2; orphanSwitch; switch1 "test-ns" "switch1-creds"];
     cl_Fault := fun _ => None;
     cl_Updates := [] |}.

Definition testReconciler : BareMetalSwitchReconciler :=
  {| SwitchConfigsSecretName := "switch-configs";
     SwitchCredentialSecretName := "switch-credentials";
     SwitchCredentialPath := "/creds" |}.

(** A cluster that stores the attachment test-ns/test-attachment. *)
Definition testAttachmentStore : Client :=
  {| cl_Attachments :=
       {[ ("test-ns", "test-attachment") :=
            {| ac_Labels := ∅; ac_Spec := hna_Spec (testAttachment "access" 100) |} ]};
     cl_Secrets := ∅; cl_Switches := [];
     cl_Fault := fun _ => None; cl_Updates := [] |}.

(** Driver-info maps with the address and the user name of a Redfish BMC. *)
Definition redfishInfo (address username : string) : gmap string string :=
  {[ "redfish_address" := address; "redfish_username" := username ]}.

End CoverageScenarios.

(** * Properties *)

(** ** Strings *)

Section StringFacts.

Lemma append_cons (c : ascii) (a b : string) :
  String c a +:+ b = String c (a +:+ b).
Proof. reflexivity. Qed.

Lemma append_nil_l (s : string) : "" +:+ s = s.
Proof. reflexivity. Qed.

Lemma append_nil_r (s : string) : s +:+ "" = s.
Proof. induction s as [|c s IH]; [done | by rewrite append_cons, IH]. Qed.

Lemma append_assoc (a b c : string) : (a +:+ b) +:+ c = a +:+ (b +:+ c).
Proof.
  induction a as [|x a IH]; [done | by rewrite !append_cons, IH].
Qed.

Lemma prefix_spec (x s : string) :
  String.prefix x s = true ↔ ∃ q, s = x +:+ q.
Proof.
  revert s. induction x as [|a x IH]; intros s.
  - split; [intros _; by exists s | by destruct s].
  - destruct s as [|b s]; simpl.
    + split; [done | intros [q Hq]; done].
    + destruct (ascii_dec a b) as [->|Hne].
      * rewrite IH. split; intros [q Hq]; exists q;
          rewrite ?append_cons in *; congruence.
      * split; [done | intros [q Hq]; rewrite append_cons in Hq; congruence].
Qed.

Lemma contains_spec (s x : string) :
  strings_Contains s x = true ↔ Substr x s.
Proof.
  split.
  - induction s as [|c s IH]; cbn [strings_Contains]; rewrite orb_true_iff.
    + intros [Hp | ?]; [|done].
      apply prefix_spec in Hp as [q ->]. by exists "", q.
    + intros [Hp | Hc].
      * apply prefix_spec in Hp as [q Hq]. exists "", q. by rewrite Hq.
      * destruct (IH Hc) as (p & q & ->). by exists (String c p), q.
  - intros (p & q & ->). induction p as [|c p IH].
    + rewrite append_nil_l.
      assert (String.prefix x (x +:+ q) = true) as Hp
        by (apply prefix_spec; by exists q).
      destruct (x +:+ q); cbn [strings_Contains]; by rewrite Hp.
    + rewrite append_cons. cbn [strings_Contains]. rewrite IH. apply orb_true_r.
Qed.

Lemma Substr_refl (x : string) : Substr x x.
Proof. exists "", "". by rewrite append_nil_l, append_nil_r. Qed.

Lemma Substr_trans (x y z : string) : Substr x y → Substr y z → Substr x z.
Proof.
  intros (p1 & q1 & ->) (p2 & q2 & ->).
  exists (p2 +:+ p1), (q1 +:+ q2). by rewrite !append_assoc.
Qed.

Lemma Substr_app_r (x a b : string) : Substr x b → Substr x (a +:+ b).
Proof. intros (p & q & ->). exists (a +:+ p), q. by rewrite !append_assoc. Qed.

Lemma Substr_app_l (x a b : string) : Substr x a → Substr x (a +:+ b).
Proof. intros (p & q & ->). exists p, (q +:+ b). by rewrite !append_assoc. Qed.

Lemma Substr_Join (x sep : string) (l : list string) :
  x ∈ l → Substr x (strings_Join l sep).
Proof.
  induction l as [|e l IH]; [by intros ?%elem_of_nil|].
  intros [->|Hin]%elem_of_cons.
  - destruct l; simpl; [apply Substr_refl | apply Substr_app_l, Substr_refl].
  - destruct l as [|e' l]; [by apply elem_of_nil in Hin|].
    cbn [strings_Join]. apply Substr_app_r, Substr_app_r. by apply IH.
Qed.

(** Every message of an aggregate occurs in the message of the aggregate. *)
Lemma visit_inv (msgs : list string) (seen : gset string) (result : string) :
  (∀ m, m ∈ seen → Substr m result) →
  ∀ m, m ∈ seen ∨ m ∈ msgs → Substr m (kerrors.visit msgs seen result).2.
Proof.
  revert seen result. induction msgs as [|msg rest IH]; intros seen result Hinv m Hm.
  - simpl. destruct Hm as [?|?%elem_of_nil]; [auto | done].
  - simpl. case_bool_decide as Hseen.
    + apply IH; [done|]. destruct Hm as [?|[->|?]%elem_of_cons]; auto.
    + apply IH.
      * intros m' [->%elem_of_singleton|Hm']%elem_of_union.
        -- apply Substr_app_r, Substr_refl.
        -- apply Substr_app_l. case_bool_decide; [apply Substr_app_l|]; auto.
      * destruct Hm as [?|[->|?]%elem_of_cons]; [left|left|right]; set_solver.
Qed.

Lemma Substr_aggregate (m : string) (msgs : list string) :
  m ∈ msgs → Substr m (kerrors.aggregate_Error msgs).
Proof.
  intros Hm. unfold kerrors.aggregate_Error.
  destruct msgs as [|m1 [|m2 rest]].
  - by apply elem_of_nil in Hm.
  - apply list_elem_of_singleton in Hm as ->. apply Substr_refl.
  - pose proof (visit_inv (m1 :: m2 :: rest) ∅ "" ltac:(set_solver) m (or_intror Hm)) as Hv.
    destruct (kerrors.visit (m1 :: m2 :: rest) ∅ "") as [seen result]. simpl in Hv.
    case_bool_decide; [done|]. apply Substr_app_r, Substr_app_l. done.
Qed.

Lemma Substr_Aggregate (e : error) (errs : list error) :
  e ∈ errs → Substr (Error e) (Error (Aggregate errs)).
Proof.
  intros He. simpl. apply Substr_aggregate.
  apply list_elem_of_fmap. by exists e.
Qed.

End StringFacts.

(** ** Field validation of attachments *)

Section ValidationFacts.

Import webhooks.

Lemma validateVLANID_Some (vlan : Z) (e : error) :
  validateVLANID vlan = Some e →
  vlanOutOfRange vlan ∧ Substr "out of range" (Error e).
Proof.
  unfold validateVLANID, vlanOutOfRange.
  destruct (_ || _)%bool eqn:E; [|done]. intros [= <-]. split; [lia|].
  simpl. apply Substr_app_r, Substr_app_r. by apply contains_spec.
Qed.

Lemma validateVLANID_None (vlan : Z) :
  validateVLANID vlan = None ↔ ¬ vlanOutOfRange vlan.
Proof.
  unfold validateVLANID, vlanOutOfRange.
  destruct (_ || _)%bool eqn:E; split; intros; try done; lia.
Qed.

Lemma validateVLANID_out (vlan : Z) :
  vlanOutOfRange vlan → ∃ e, validateVLANID vlan = Some e.
Proof.
  intros Hout. destruct (validateVLANID vlan) eqn:E; [eauto|].
  by apply validateVLANID_None in E.
Qed.

Lemma validateVLANList_Some (vlans : list Z) (e : error) :
  validateVLANList vlans = Some e →
  (∃ vlan, vlan ∈ vlans ∧ vlanOutOfRange vlan) ∧ Substr "out of range" (Error e).
Proof.
  induction vlans as [|vlan rest IH]; [done|]. simpl.
  destruct (validateVLANID vlan) eqn:E.
  - intros [= <-]. apply validateVLANID_Some in E as [??].
    split; [exists vlan; split; [left | done] | done].
  - intros [(v & ? & ?) ?]%IH. split; [exists v; split; [by right | done] | done].
Qed.

Lemma validateVLANList_None (vlans : list Z) :
  validateVLANList vlans = None ↔ ∀ vlan, vlan ∈ vlans → ¬ vlanOutOfRange vlan.
Proof.
  induction vlans as [|vlan rest IH]; simpl.
  - split; [intros _ ? ?%elem_of_nil; done | done].
  - destruct (validateVLANID vlan) eqn:E.
    + split; [done|]. intros Hall. apply validateVLANID_Some in E as [Hout _].
      destruct (Hall vlan); [left | done].
    + rewrite IH. apply validateVLANID_None in E. split.
      * intros Hall v [->|?]%elem_of_cons; auto.
      * intros Hall v ?. apply Hall. by right.
Qed.

Lemma Error_Errorf_w (prefix : string) (e : error) :
  Error (Errorf_w prefix e) = prefix +:+ Error e.
Proof. reflexivity. Qed.

(** The message for an unknown mode echoes the mode: it contains "out of
    range" exactly when the mode does. *)
Lemma invalid_mode_message (mode : string) :
  strings_Contains ("invalid switchport mode: " +:+ mode) "out of range"
  = strings_Contains mode "out of range".
Proof. reflexivity. Qed.

(** What [validateSwitchportConfiguration] returns, by case. *)
Lemma switchport_reports (a : HostNetworkAttachment) :
  (∃ e, validateSwitchportConfiguration a = Some e
        ∧ strings_Contains (Error e) "out of range" = true)
  ↔ (isTrunkOrHybrid a
     ∧ ∃ vlan, vlan ∈ elems (AllowedVLANs (hna_Spec a)) ∧ vlanOutOfRange vlan)
    ∨ (modeCheckPasses a ∧ vlanOutOfRange (NativeVLAN (hna_Spec a)))
    ∨ (¬ isKnownMode a ∧ strings_Contains (Mode (hna_Spec a)) "out of range" = true).
Proof.
  unfold validateSwitchportConfiguration, modeCheckPasses, isKnownMode, isTrunkOrHybrid.
  set (mode := Mode (hna_Spec a)). set (allowed := AllowedVLANs (hna_Spec a)).
  set (native := NativeVLAN (hna_Spec a)).
  assert (SwitchportModeAccess ≠ SwitchportModeTrunk) as Hat by done.
  assert (SwitchportModeAccess ≠ SwitchportModeHybrid) as Hah by done.
  case_bool_decide as Hacc.
  - (* access *)
    case_bool_decide as Hlen.
    + split.
      * intros (e & [= <-] & Hc). by vm_compute in Hc.
      * intros [[[?|?] _] | [[[[_ ?]|[[?|?] _]] _] | [Hk _]]]; try congruence; try lia.
        destruct Hk. by left.
    + destruct (validateVLANID native) as [e|] eqn:E.
      * apply validateVLANID_Some in E as [Hout Hsub]. split.
        -- intros _. right; left. split; [left; split; [done | lia] | done].
        -- intros _. eexists. split; [done|]. rewrite Error_Errorf_w.
           by apply contains_spec, Substr_app_r.
      * apply validateVLANID_None in E. split.
        -- by intros (e & ? & _).
        -- intros [[[?|?] _] | [[_ ?] | [Hk _]]]; try congruence; try done.
           destruct Hk. by left.
  - case_bool_decide as Hth.
    + (* trunk or hybrid *)
      destruct (validateVLANList (elems allowed)) as [e|] eqn:E.
      * apply validateVLANList_Some in E as [Hex Hsub]. split.
        -- intros _. by left.
        -- intros _. eexists. split; [done|]. rewrite Error_Errorf_w.
           by apply contains_spec, Substr_app_r.
      * pose proof (proj1 (validateVLANList_None _) E) as Hall.
        destruct (validateVLANID native) as [e|] eqn:En.
        -- apply validateVLANID_Some in En as [Hout Hsub]. split.
           ++ intros _. right; left. split; [by right | done].
           ++ intros _. eexists. split; [done|]. rewrite Error_Errorf_w.
              by apply contains_spec, Substr_app_r.
        -- apply validateVLANID_None in En. split.
           ++ by intros (e & ? & _).
           ++ intros [[_ (v & Hv & Hout)] | [[_ ?] | [Hk _]]]; try done.
              ** by destruct (Hall v Hv).
              ** destruct Hk. by right.
    + (* any other mode *)
      split.
      * intros (e & [= <-] & Hc). right; right. split.
        -- intros [?|?]; done.
        -- by rewrite <- invalid_mode_message.
      * intros [[? _] | [[[[? _]|[? _]] _] | [_ Hc]]]; try done.
        eexists. split; [done|]. by rewrite <- invalid_mode_message in Hc.
Qed.

Lemma mtu_reports (a : HostNetworkAttachment) :
  (∃ e, validateMTU a = Some e ∧ strings_Contains (Error e) "out of range" = true)
  ↔ ∃ mtu, MTU (hna_Spec a) = Some mtu ∧ mtuOutOfRange mtu.
Proof.
  unfold validateMTU, mtuOutOfRange. destruct (MTU (hna_Spec a)) as [mtu|].
  - destruct (_ || _)%bool eqn:E.
    + split.
      * intros _. exists mtu. split; [done | lia].
      * intros _. eexists. split; [done|]. simpl.
        apply contains_spec, Substr_app_r, Substr_app_r. by apply contains_spec.
    + split; [by intros (e & ? & _)|]. intros (m & [= <-] & ?). lia.
  - split; [by intros (e & ? & _) | by intros (m & ? & _)].
Qed.

Lemma validateAttachment_elem (a : HostNetworkAttachment) (e : error) :
  e ∈ validateAttachment a
  ↔ validateSwitchportConfiguration a = Some e ∨ validateMTU a = Some e.
Proof.
  unfold validateAttachment.
  destruct (validateSwitchportConfiguration a), (validateMTU a); simpl;
    rewrite ?elem_of_cons, ?elem_of_nil; intuition congruence.
Qed.

End ValidationFacts.

Section ValidationClaims.

Import webhooks.

Example validateAttachment_accessWithAllowed :
  validateAttachment accessWithAllowed
  = [errorString "allowedVlans cannot be specified for access mode"].
Proof. reflexivity. Qed.

Example validateAttachment_unknownMode :
  validateAttachment unknownModeAttachment
  = [errorString "invalid switchport mode: invalid-mode"].
Proof. reflexivity. Qed.

Example validateAttachment_native_5000 :
  map Error (validateAttachment
    {| hna_Namespace := "test-ns"; hna_Name := "test-attachment"; hna_Labels := ∅;
       hna_Spec := {| Mode := SwitchportModeAccess; NativeVLAN := 5000;
                      AllowedVLANs := None; MTU := Some 50%Z |} |})
  = ["invalid nativeVlan: VLAN ID 5000 is out of range (1-4094)";
     "MTU 50 is out of range (68-9000)"].
Proof. vm_compute. reflexivity. Qed.

(** C2, as stated, fails: for an access-mode attachment with an allowed
    VLAN list, native VLAN 0 is outside [1,4094], yet no error of
    [validateAttachment] contains "out of range". *)
Lemma C2_native_vlan_unreported_in_access_mode :
  ¬ (reportsOutOfRange (validateAttachment accessWithAllowed)
     ↔ rangeViolation accessWithAllowed).
Proof.
  intros [_ Hback].
  destruct Hback as (e & He & Hc).
  - left. unfold vlanOutOfRange. simpl. lia.
  - rewrite validateAttachment_accessWithAllowed in He.
    apply list_elem_of_singleton in He as ->. by vm_compute in Hc.
Qed.

(** C2, amended: the error list of [validateAttachment] contains an error
    whose message contains "out of range" if and only if the MTU is
    present and outside [68,9000], or the mode is trunk or hybrid and some
    allowed VLAN is outside [1,4094], or the switch on the mode finds no
    error (access without allowed VLANs, or trunk or hybrid with every
    allowed VLAN in range) and the native VLAN is outside [1,4094], or the
    mode is none of the three and its own text, which the message for an
    unknown mode echoes, contains "out of range". *)
Theorem C2_out_of_range_reported (a : HostNetworkAttachment) :
  reportsOutOfRange (validateAttachment a)
  ↔ (isTrunkOrHybrid a
     ∧ ∃ vlan, vlan ∈ elems (AllowedVLANs (hna_Spec a)) ∧ vlanOutOfRange vlan)
    ∨ (modeCheckPasses a ∧ vlanOutOfRange (NativeVLAN (hna_Spec a)))
    ∨ (∃ mtu, MTU (hna_Spec a) = Some mtu ∧ mtuOutOfRange mtu)
    ∨ (¬ isKnownMode a ∧ strings_Contains (Mode (hna_Spec a)) "out of range" = true).
Proof.
  unfold reportsOutOfRange.
  pose proof (switchport_reports a) as Hs. pose proof (mtu_reports a) as Hm.
  split.
  - intros (e & [He|He]%validateAttachment_elem & Hc).
    + destruct (proj1 Hs) as [?|[?|?]]; eauto.
    + right; right; left. apply Hm. eauto.
  - intros [H|[H|[H|H]]].
    + destruct (proj2 Hs) as (e & He & Hc); [by left|].
      exists e. split; [apply validateAttachment_elem; by left | done].
    + destruct (proj2 Hs) as (e & He & Hc); [right; by left|].
      exists e. split; [apply validateAttachment_elem; by left | done].
    + destruct (proj2 Hm H) as (e & He & Hc).
      exists e. split; [apply validateAttachment_elem; by right | done].
    + destruct (proj2 Hs) as (e & He & Hc); [right; by right|].
      exists e. split; [apply validateAttachment_elem; by left | done].
Qed.

(** C10: when the specs of the old and the new attachment are deeply
    equal, [validateUpdate] returns no error and no warning, whatever the
    field validation of the new attachment found and whatever the cluster
    holds. *)
Theorem C10_unchanged_spec_admitted (c : Client)
    (oldAttachment newAttachment : HostNetworkAttachment) :
  hna_Spec oldAttachment = hna_Spec newAttachment →
  validateUpdate c oldAttachment newAttachment = ([], None).
Proof.
  intros Heq. unfold validateUpdate, reflect_DeepEqual.
  by rewrite bool_decide_true.
Qed.

(** A metadata-only update of an attachment whose native VLAN is 5000
    fails field validation and is admitted all the same. *)
Lemma C10_unchanged_spec_admitted_witness :
  validateAttachment (invalidAttachment {[ "tier" := "gold" ]}) ≠ []
  ∧ validateUpdate {| cl_Hosts := []; cl_ListError := None |}
      (invalidAttachment ∅) (invalidAttachment {[ "tier" := "gold" ]}) = ([], None).
Proof.
  split; [done|]. by apply C10_unchanged_spec_admitted.
Defined.

End ValidationClaims.

(** ** The reference guard *)

Section ReferenceGuard.

Import webhooks.

Lemma elem_of_flat_map {A B} (f : A → list B) (l : list A) (y : B) :
  y ∈ flat_map f l ↔ ∃ x, x ∈ l ∧ y ∈ f x.
Proof.
  rewrite list_elem_of_In, in_flat_map.
  split; intros (x & ? & ?); exists x; by rewrite ?list_elem_of_In in *.
Qed.

Lemma findBMHReferences_ok (c : Client) (att : HostNetworkAttachment) :
  cl_ListError c = None →
  findBMHReferences c att = Ok (flat_map (referencesOf att) (listed c att)).
Proof.
  intros Hok. unfold findBMHReferences, List. by rewrite Hok.
Qed.

Lemma findBMHReferences_err (c : Client) (att : HostNetworkAttachment) (err : error) :
  cl_ListError c = Some err →
  findBMHReferences c att = Err (Errorf_w "failed to list BMHs using index: " err).
Proof. intros Herr. unfold findBMHReferences, List. by rewrite Herr. Qed.

Lemma referencesOf_elem (att : HostNetworkAttachment) (h : BareMetalHost) (r : string) :
  r ∈ referencesOf att h ↔ ∃ netIf, references att h netIf ∧ r = refString h netIf.
Proof.
  unfold referencesOf, references, refNamespace, refString.
  rewrite elem_of_flat_map. split.
  - intros (netIf & Hin & Hr). exists netIf.
    case_bool_decide as Hm; [|by apply elem_of_nil in Hr].
    apply list_elem_of_singleton in Hr. by destruct Hm.
  - intros (netIf & (Hin & Hn & Hns) & ->). exists netIf. split; [done|].
    rewrite bool_decide_true; [apply list_elem_of_singleton; done | done].
Qed.

Lemma indexBMH_elem (att : HostNetworkAttachment) (h : BareMetalHost)
    (netIf : NetworkInterface) :
  hna_Name att ≠ "" → references att h netIf →
  hna_Namespace att +:+ "/" +:+ hna_Name att ∈ indexBMH h.
Proof.
  intros Hname (Hin & Hn & Hns). unfold indexBMH. apply elem_of_flat_map.
  exists netIf. split; [done|]. unfold refNamespace in Hns.
  rewrite bool_decide_true by congruence.
  apply list_elem_of_singleton. by rewrite Hn, Hns.
Qed.

(** A reference from a host of the attachment's namespace is found. *)
Lemma reference_found (c : Client) (att : HostNetworkAttachment)
    (h : BareMetalHost) (netIf : NetworkInterface) :
  hna_Name att ≠ "" → h ∈ cl_Hosts c → bmh_Namespace h = hna_Namespace att →
  references att h netIf →
  refString h netIf ∈ flat_map (referencesOf att) (listed c att).
Proof.
  intros Hname Hh Hns Href. apply elem_of_flat_map. exists h. split.
  - unfold listed. apply list_elem_of_filter. split; [|done].
    split; [by right | by eapply indexBMH_elem].
  - apply referencesOf_elem. by exists netIf.
Qed.

(** Without a reference from a host of the attachment's namespace nothing
    is found. *)
Lemma no_reference_found (c : Client) (att : HostNetworkAttachment) :
  (∀ h netIf, h ∈ cl_Hosts c → bmh_Namespace h = hna_Namespace att →
              ¬ references att h netIf) →
  flat_map (referencesOf att) (listed c att) = [].
Proof.
  intros Hnone. destruct (flat_map _ _) as [|r rest] eqn:E; [done|].
  assert (r ∈ flat_map (referencesOf att) (listed c att)) as Hr
    by (rewrite E; left).
  apply elem_of_flat_map in Hr as (h & Hh & Hr).
  apply list_elem_of_filter in Hh as [[Hns _] Hh].
  apply referencesOf_elem in Hr as (netIf & Href & _).
  destruct (Hnone h netIf); [done | | done].
  destruct Hns as [Hempty | ?]; [|done].
  destruct Href as (_ & _ & Hrns). unfold refNamespace in Hrns.
  case_bool_decide; congruence.
Qed.

Lemma validateUpdate_changed (c : Client) (old new : HostNetworkAttachment)
    (refs : list string) :
  hna_Spec new ≠ hna_Spec old →
  findBMHReferences c old = Ok refs →
  (validateUpdate c old new).2 =
    match refs with
    | [] => NewAggregate (validateAttachment new)
    | _ =>
        NewAggregate
          (validateAttachment new ++
             [errorString
                ("HostNetworkAttachment spec is immutable while referenced by BMH interfaces: "
                   +:+ strings_Join refs ", ")])
    end.
Proof.
  intros Hne Hrefs. unfold validateUpdate, reflect_DeepEqual.
  rewrite bool_decide_false by congruence. rewrite Hrefs.
  destruct (validateAttachment new) as [|v vs], refs as [|r rest]; simpl; try done;
    rewrite ?bool_decide_true by (simpl; lia); done.
Qed.

Lemma validateDelete_refs (c : Client) (att : HostNetworkAttachment) (refs : list string) :
  findBMHReferences c att = Ok refs →
  (validateDelete c att).2 =
    match refs with
    | [] => None
    | _ =>
        Some (NewForbidden "metal3.io" "hostnetworkattachments" (hna_Name att)
                (errorString ("cannot delete attachment while referenced by BMH interfaces: "
                                +:+ strings_Join refs ", ")))
    end.
Proof.
  intros Hrefs. unfold validateDelete. rewrite Hrefs.
  destruct refs; [done|]. by rewrite bool_decide_true by (simpl; lia).
Qed.

End ReferenceGuard.

Section ReferenceGuardClaims.

Import webhooks.

Example update_rejected_same_namespace :
  option_map Error
    (validateUpdate (clusterOf [hostWithRef "test-ns" ""])
       (testAttachment "access" 100) (testAttachment "trunk" 1)).2
  = Some ("HostNetworkAttachment spec is immutable while referenced by BMH interfaces: "
            +:+ "test-ns/host-with-ref[eth0]").
Proof. vm_compute. reflexivity. Qed.

Example delete_rejected_same_namespace :
  option_map Error
    (validateDelete (clusterOf [hostWithRef "test-ns" ""]) (testAttachment "access" 100)).2
  = Some ("hostnetworkattachments.metal3.io " +:+ DQUOTE +:+ "test-attachment" +:+ DQUOTE
            +:+ " is forbidden: cannot delete attachment while referenced by BMH interfaces: "
            +:+ "test-ns/host-with-ref[eth0]").
Proof. vm_compute. reflexivity. Qed.

(** C1: the code at the failing input. The host other-ns/host-with-ref
    declares the interface eth0 with the reference test-ns/test-attachment,
    so it references the attachment in the sense of the claim; yet a
    spec-changing update and the delete of the attachment are both
    admitted, because the list call of [findBMHReferences] is limited to
    the namespace of the attachment. The same reference from a host of
    the namespace test-ns is rejected by both. *)
Theorem C1_cross_namespace_reference_unguarded :
  let host := hostWithRef "other-ns" "test-ns" in
  let att := testAttachment "access" 100 in
  let new := testAttachment "trunk" 1 in
  host ∈ cl_Hosts (clusterOf [host])
  ∧ references att host (eth0To "test-ns")
  ∧ hna_Spec new ≠ hna_Spec att
  ∧ validateAttachment new = []
  ∧ (validateUpdate (clusterOf [host]) att new).2 = None
  ∧ (validateDelete (clusterOf [host]) att).2 = None
  ∧ references att (hostWithRef "test-ns" "test-ns") (eth0To "test-ns")
  ∧ (validateUpdate (clusterOf [hostWithRef "test-ns" "test-ns"]) att new).2 ≠ None
  ∧ (validateDelete (clusterOf [hostWithRef "test-ns" "test-ns"]) att).2 ≠ None.
Proof.
  simpl. split; [left|]. split; [split; [left | done]|].
  split; [by vm_compute|]. split; [by vm_compute|]. split; [by vm_compute|].
  split; [by vm_compute|]. split; [split; [left | done]|].
  split; by vm_compute.
Qed.

(** X24: inside the namespace of the attachment the guard holds, for every
    attachment with the non-empty name every stored object has. (1) If the
    reference lookup succeeds and a host of the attachment's own namespace
    declares an interface that references the attachment (reference
    namespace, defaulting to the host's, equal to the attachment's), then
    [validateUpdate] rejects every spec-changing update and
    [validateDelete] rejects the delete as forbidden, each with an error
    whose message contains "namespace/host[interface]" for that pair.
    (2) If the lookup fails, both reject. (3) If the lookup succeeds and
    no host of the attachment's namespace references it, a spec-changing
    update that passes field validation and the delete are admitted. *)
Theorem same_namespace_reference_guard (c : Client) (att : HostNetworkAttachment) :
  hna_Name att ≠ "" →
  (cl_ListError c = None →
   ∀ h netIf, h ∈ cl_Hosts c → bmh_Namespace h = hna_Namespace att →
     references att h netIf →
     (∀ new, hna_Spec new ≠ hna_Spec att →
        ∃ e, (validateUpdate c att new).2 = Some e
             ∧ Substr (refString h netIf) (Error e))
     ∧ (∃ e, (validateDelete c att).2 = Some e
             ∧ IsForbidden e = true
             ∧ Substr (refString h netIf) (Error e)))
  ∧ (∀ err, cl_ListError c = Some err →
       (∀ new, hna_Spec new ≠ hna_Spec att →
          ∃ e, (validateUpdate c att new).2 = Some e)
       ∧ (∃ e, (validateDelete c att).2 = Some e))
  ∧ (cl_ListError c = None →
     (∀ h netIf, h ∈ cl_Hosts c → bmh_Namespace h = hna_Namespace att →
        ¬ references att h netIf) →
     (∀ new, hna_Spec new ≠ hna_Spec att → validateAttachment new = [] →
        (validateUpdate c att new).2 = None)
     ∧ (validateDelete c att).2 = None).
Proof.
  intros Hname. split; [|split].
  - intros Hok h netIf Hh Hns Href.
    pose proof (findBMHReferences_ok c att Hok) as Hfind.
    pose proof (reference_found c att h netIf Hname Hh Hns Href) as Hin.
    destruct (flat_map (referencesOf att) (listed c att)) as [|r rest] eqn:E;
      [by apply elem_of_nil in Hin|].
    split.
    + intros new Hne. rewrite (validateUpdate_changed c att new _ Hne Hfind).
      set (immutable := errorString _).
      assert (validateAttachment new ++ [immutable] ≠ []) as Hnonempty
        by (by destruct (validateAttachment new)).
      unfold NewAggregate.
      destruct (validateAttachment new ++ [immutable]) as [|e0 es] eqn:Eerrs; [done|].
      eexists. split; [done|]. rewrite <- Eerrs.
      eapply Substr_trans; [|apply (Substr_Aggregate immutable)].
      * subst immutable. cbn [Error]. apply Substr_app_r. by apply Substr_Join.
      * apply elem_of_app. right. left.
    + rewrite (validateDelete_refs c att _ Hfind).
      eexists. split; [done|]. split; [done|].
      unfold NewForbidden. cbn [Error].
      do 9 apply Substr_app_r. by apply Substr_Join.
  - intros err Herr. pose proof (findBMHReferences_err c att err Herr) as Hfind. split.
    + intros new Hne. unfold validateUpdate, reflect_DeepEqual.
      rewrite bool_decide_false by congruence. rewrite Hfind. eauto.
    + unfold validateDelete. rewrite Hfind. eauto.
  - intros Hok Hnone.
    pose proof (findBMHReferences_ok c att Hok) as Hfind.
    rewrite (no_reference_found c att Hnone) in Hfind. split.
    + intros new Hne Hvalid.
      rewrite (validateUpdate_changed c att new _ Hne Hfind). by rewrite Hvalid.
    + by rewrite (validateDelete_refs c att _ Hfind).
Qed.

(** The guard at the host test-ns/host-with-ref of the tests: the update
    and the delete are rejected with the pair named, both are rejected
    when the list call fails, and both are admitted once no host is left. *)
Lemma same_namespace_reference_guard_witness :
  let att := testAttachment "access" 100 in
  let referenced := clusterOf [hostWithRef "test-ns" ""] in
  let failing := {| cl_Hosts := [hostWithRef "test-ns" ""];
                    cl_ListError := Some (errorString "list failed") |} in
  (∃ e, (validateUpdate referenced att (testAttachment "trunk" 1)).2 = Some e
        ∧ Substr "test-ns/host-with-ref[eth0]" (Error e))
  ∧ (∃ e, (validateDelete referenced att).2 = Some e
          ∧ IsForbidden e = true
          ∧ Substr "test-ns/host-with-ref[eth0]" (Error e))
  ∧ (∃ e, (validateUpdate failing att (testAttachment "trunk" 1)).2 = Some e)
  ∧ (∃ e, (validateDelete failing att).2 = Some e)
  ∧ (validateUpdate (clusterOf []) att (testAttachment "trunk" 1)).2 = None
  ∧ (validateDelete (clusterOf []) att).2 = None.
Proof.
  intros att referenced failing.
  assert (hna_Name att ≠ "") as Hname by done.
  destruct (same_namespace_reference_guard referenced att Hname) as (Hrej & _ & _).
  destruct (Hrej eq_refl (hostWithRef "test-ns" "") (eth0To "")) as [Hupd Hdel];
    [left | reflexivity | split; [left | split; reflexivity] |].
  destruct (same_namespace_reference_guard failing att Hname) as (_ & Hclosed & _).
  destruct (Hclosed (errorString "list failed") eq_refl) as [Hupd' Hdel'].
  destruct (same_namespace_reference_guard (clusterOf []) att Hname) as (_ & _ & Hfree).
  destruct Hfree as [Hupd'' Hdel''];
    [reflexivity | intros h netIf Hh; by apply elem_of_nil in Hh |].
  split; [by apply (Hupd (testAttachment "trunk" 1))|]. split; [exact Hdel|].
  split; [by apply (Hupd' (testAttachment "trunk" 1))|]. split; [exact Hdel'|].
  split; [by apply (Hupd'' (testAttachment "trunk" 1)) | exact Hdel''].
Defined.

End ReferenceGuardClaims.

Section CrossNamespaceResolution.

Import controllers.

(** The sibling path: [resolveSwitchPortConfigs] honours the reference of
    the host other-ns/host-with-ref to the attachment of namespace test-ns,
    and configures eth0 from it. *)
Example cross_namespace_reference_resolved :
  resolveSwitchPortConfigs testAttachmentStore (hostWithRef "other-ns" "test-ns")
  = (Some {[ "eth0" := {| spc_Mode := "access"; spc_NativeVLAN := 100;
                          spc_AllowedVLANs := None; spc_MTU := None |} ]}, None).
Proof. by vm_compute. Qed.

End CrossNamespaceResolution.

(** ** Drift detection *)

Section DriftClaims.

Import controllers.

Example needsUpdate_removed :
  switchPortConfigurationNeedsUpdate
    (driftHost None (Some [namedInterface "eth0"]) [])
  = (true, "NetworkInterfacesRemoved").
Proof. reflexivity. Qed.

(** An applied list that is set and empty is not the unset one. *)
Example needsUpdate_applied_empty_but_set :
  switchPortConfigurationNeedsUpdate
    (driftHost (Some [namedInterface "eth0"]) (Some []) [validCondition])
  = (true, "NetworkInterfaceSpecChanged").
Proof. reflexivity. Qed.

(** The comparison is sensitive to order. *)
Example needsUpdate_reordered :
  switchPortConfigurationNeedsUpdate
    (driftHost (Some [namedInterface "eth0"; namedInterface "eth1"])
       (Some [namedInterface "eth1"; namedInterface "eth0"]) [validCondition])
  = (true, "NetworkInterfaceSpecChanged").
Proof. reflexivity. Qed.

(** C3: the rules of [switchPortConfigurationNeedsUpdate], in order. With
    no declared interface: update with "NetworkInterfacesRemoved" when
    the applied list is non-empty, no update when it is empty. With
    declared interfaces: no update when the NetworkInterfacesValid
    condition is absent or not True; else "InitialConfiguration" when the
    applied list is nil; else "NetworkInterfaceSpecChanged" when the
    declared list and the applied list differ as lists; else no update. *)
Theorem C3_needs_update_rules (host : BareMetalHost) :
  let declared := bmh_Spec_NetworkInterfaces host in
  let applied := bmh_Status_AppliedNetworkInterfaces host in
  let cond := meta.FindStatusCondition (bmh_Status_Conditions host)
                ConditionNetworkInterfacesValid in
  let valid := ∃ c, cond = Some c ∧ cond_Status c = ConditionTrue in
  (elems declared = [] → elems applied ≠ [] →
     switchPortConfigurationNeedsUpdate host = (true, "NetworkInterfacesRemoved"))
  ∧ (elems declared = [] → elems applied = [] →
     switchPortConfigurationNeedsUpdate host = (false, ""))
  ∧ (elems declared ≠ [] → ¬ valid →
     switchPortConfigurationNeedsUpdate host = (false, ""))
  ∧ (elems declared ≠ [] → valid → applied = None →
     switchPortConfigurationNeedsUpdate host = (true, "InitialConfiguration"))
  ∧ (elems declared ≠ [] → valid → ∀ l, applied = Some l → elems declared ≠ l →
     switchPortConfigurationNeedsUpdate host = (true, "NetworkInterfaceSpecChanged"))
  ∧ (elems declared ≠ [] → valid → applied = Some (elems declared) →
     switchPortConfigurationNeedsUpdate host = (false, "")).
Proof.
  intros declared applied cond valid.
  assert (∀ A (s : option (list A)), len s = 0%nat ↔ elems s = []) as Hlen.
  { intros A [[|??]|]; simpl; split; intros; done. }
  assert (networkInterfaceValidationPassed host = true ↔ valid) as Hvalid.
  { unfold networkInterfaceValidationPassed, valid, cond.
    destruct (meta.FindStatusCondition _ _) as [c|].
    - rewrite bool_decide_eq_true. split; [eauto | by intros (c' & [= <-] & ?)].
    - split; [done | by intros (c' & ? & _)]. }
  unfold switchPortConfigurationNeedsUpdate, reflect_DeepEqual.
  fold declared applied.
  repeat split.
  - intros Hd Ha. rewrite bool_decide_true by by apply Hlen.
    rewrite bool_decide_true; [done|].
    destruct applied as [[|??]|]; simpl in *; try done; lia.
  - intros Hd Ha. rewrite bool_decide_true by by apply Hlen.
    rewrite bool_decide_false; [done|]. apply Hlen in Ha. lia.
  - intros Hd Hnv. rewrite bool_decide_false by by rewrite Hlen.
    destruct (networkInterfaceValidationPassed host); [|done].
    destruct Hnv. by apply Hvalid.
  - intros Hd Hv Ha. rewrite bool_decide_false by by rewrite Hlen.
    apply Hvalid in Hv as ->. simpl. by rewrite bool_decide_true.
  - intros Hd Hv l Ha Hne. rewrite bool_decide_false by by rewrite Hlen.
    apply Hvalid in Hv as ->. simpl. rewrite Ha.
    rewrite bool_decide_false by done.
    rewrite bool_decide_false; [done|].
    destruct declared; simpl in *; congruence.
  - intros Hd Hv Ha. rewrite bool_decide_false by by rewrite Hlen.
    apply Hvalid in Hv as ->. simpl. rewrite Ha.
    rewrite bool_decide_false by done.
    rewrite bool_decide_true; [done|].
    destruct declared; simpl in *; congruence.
Qed.

(** The initial configuration of a validated host. *)
Lemma C3_needs_update_rules_witness :
  switchPortConfigurationNeedsUpdate
    (driftHost (Some [namedInterface "eth0"]) None [validCondition])
  = (true, "InitialConfiguration").
Proof.
  apply (C3_needs_update_rules
           (driftHost (Some [namedInterface "eth0"]) None [validCondition])).
  - done.
  - by exists validCondition.
  - done.
Defined.

End DriftClaims.

(** ** Interface validation *)

Section ConditionFacts.

Import meta.

Lemma Find_app_None (cs : list Condition) (c : Condition) (t : string) :
  FindStatusCondition cs t = None → cond_Type c = t →
  FindStatusCondition (cs ++ [c]) t = Some c.
Proof.
  intros Hnone Ht. induction cs as [|c0 cs IH]; simpl in *.
  - by rewrite bool_decide_true.
  - case_bool_decide; [done | auto].
Qed.

Lemma Find_updateFirst (now : Z) (cs : list Condition) (new existing : Condition) :
  FindStatusCondition cs (cond_Type new) = Some existing →
  FindStatusCondition (updateFirst now cs new) (cond_Type new)
  = Some (updateCondition now existing new).
Proof.
  induction cs as [|c0 cs IH]; simpl; [done|].
  case_bool_decide as Ht.
  - intros [= <-]. simpl. by rewrite bool_decide_true.
  - intros Hf. simpl. rewrite bool_decide_false by done. auto.
Qed.

(** After [SetStatusCondition] the condition found has the status and the
    reason that were set. *)
Lemma Find_SetStatusCondition (now : Z) (cs : list Condition) (new : Condition) :
  ∃ c, FindStatusCondition (SetStatusCondition now cs new) (cond_Type new) = Some c
       ∧ cond_Status c = cond_Status new ∧ cond_Reason c = cond_Reason new.
Proof.
  unfold SetStatusCondition.
  destruct (FindStatusCondition cs (cond_Type new)) as [existing|] eqn:E.
  - eexists. split; [by apply Find_updateFirst|]. done.
  - eexists. split; [apply Find_app_None; [done|] |]; by case_bool_decide.
Qed.

Lemma Find_RemoveStatusCondition (cs : list Condition) (t : string) :
  FindStatusCondition (RemoveStatusCondition cs t) t = None.
Proof.
  unfold RemoveStatusCondition. induction cs as [|c0 cs IH]; [done|].
  rewrite filter_cons. case_decide as Ht; [|done].
  simpl. by rewrite bool_decide_false.
Qed.

End ConditionFacts.

Section InterfaceValidationClaims.

Import controllers.

Lemma set_noop (now : Z) (host : BareMetalHost) (status : ConditionStatus)
    (reason message : string) (c : Condition) :
  meta.FindStatusCondition (bmh_Status_Conditions host)
    ConditionNetworkInterfacesValid = Some c →
  cond_Status c = status → cond_Reason c = reason →
  setNetworkInterfaceValidation now host status reason message = (host, (false, None)).
Proof.
  intros Hf Hs Hr. unfold setNetworkInterfaceValidation. rewrite Hf.
  by rewrite !bool_decide_true.
Qed.

Lemma clear_noop (host : BareMetalHost) :
  meta.FindStatusCondition (bmh_Status_Conditions host)
    ConditionNetworkInterfacesValid = None →
  clearNetworkInterfaceValidation host = (host, (false, None)).
Proof. intros Hf. unfold clearNetworkInterfaceValidation. by rewrite Hf. Qed.

(** After a call of [setNetworkInterfaceValidation] the host carries a
    condition with the status and the reason of the call, and only its
    conditions may have changed. *)
Lemma set_establishes (now : Z) (host : BareMetalHost) (status : ConditionStatus)
    (reason message : string) :
  let host' := (setNetworkInterfaceValidation now host status reason message).1 in
  (∃ c, meta.FindStatusCondition (bmh_Status_Conditions host')
          ConditionNetworkInterfacesValid = Some c
        ∧ cond_Status c = status ∧ cond_Reason c = reason)
  ∧ bmh_Spec_NetworkInterfaces host' = bmh_Spec_NetworkInterfaces host
  ∧ bmh_Status_HardwareDetails host' = bmh_Status_HardwareDetails host.
Proof.
  unfold setNetworkInterfaceValidation.
  destruct (meta.FindStatusCondition (bmh_Status_Conditions host)
              ConditionNetworkInterfacesValid) as [e|] eqn:E.
  - destruct (bool_decide (cond_Status e = status)) eqn:Es;
      destruct (bool_decide (cond_Reason e = reason)) eqn:Er; simpl;
      try (split; [|done];
           apply (Find_SetStatusCondition now (bmh_Status_Conditions host)
                    {| cond_Type := ConditionNetworkInterfacesValid;
                       cond_Status := status; cond_ObservedGeneration := 0;
                       cond_LastTransitionTime := 0; cond_Reason := reason;
                       cond_Message := message |})).
    apply bool_decide_eq_true in Es, Er. split; [eauto | done].
  - simpl. split; [|done].
    apply (Find_SetStatusCondition now (bmh_Status_Conditions host)
             {| cond_Type := ConditionNetworkInterfacesValid;
                cond_Status := status; cond_ObservedGeneration := 0;
                cond_LastTransitionTime := 0; cond_Reason := reason;
                cond_Message := message |}).
Qed.

Lemma clear_establishes (host : BareMetalHost) :
  let host' := (clearNetworkInterfaceValidation host).1 in
  meta.FindStatusCondition (bmh_Status_Conditions host')
    ConditionNetworkInterfacesValid = None
  ∧ bmh_Spec_NetworkInterfaces host' = bmh_Spec_NetworkInterfaces host
  ∧ bmh_Status_HardwareDetails host' = bmh_Status_HardwareDetails host.
Proof.
  unfold clearNetworkInterfaceValidation.
  destruct (meta.FindStatusCondition (bmh_Status_Conditions host)
              ConditionNetworkInterfacesValid) eqn:E; simpl; [|done].
  split; [apply Find_RemoveStatusCondition | done].
Qed.

(** [performNetworkInterfaceValidation] is one call of the setter, with a
    status and a reason that depend on the declared interfaces and the
    hardware details only. *)
Lemma perform_is_set (now : Z) (host : BareMetalHost) (details : HardwareDetails) :
  ∃ status reason,
    ∀ now' host', bmh_Spec_NetworkInterfaces host' = bmh_Spec_NetworkInterfaces host →
      ∃ message,
        performNetworkInterfaceValidation now' host' details
        = setNetworkInterfaceValidation now' host' status reason message.
Proof.
  assert (∀ host', bmh_Spec_NetworkInterfaces host' = bmh_Spec_NetworkInterfaces host →
            invalidInterfacesOf host' details = invalidInterfacesOf host details) as Hsame
    by (intros host' Hspec; unfold invalidInterfacesOf; by rewrite Hspec).
  unfold performNetworkInterfaceValidation.
  destruct (bool_decide (0 < length (invalidInterfacesOf host details))%nat) eqn:E.
  - exists ConditionFalse, "InvalidInterfaceNames". intros now' host' Hspec.
    rewrite (Hsame host' Hspec), E. eauto.
  - exists ConditionTrue, "AllInterfacesValid". intros now' host' Hspec.
    rewrite (Hsame host' Hspec), E. eauto.
Qed.

(** C9: a second run of [validateNetworkInterfaces], on the host as the
    first run left it and at any later time, reports not dirty and leaves
    the host as it is; setting the condition is a no-op when the existing
    condition has the status and the reason, and clearing it is a no-op
    when there is no such condition. *)
Theorem C9_validation_idempotent (now now' : Z) (host : BareMetalHost) :
  (let host1 := (validateNetworkInterfaces now host).1 in
   validateNetworkInterfaces now' host1 = (host1, (false, None)))
  ∧ (∀ status reason message c,
       meta.FindStatusCondition (bmh_Status_Conditions host)
         ConditionNetworkInterfacesValid = Some c →
       cond_Status c = status → cond_Reason c = reason →
       setNetworkInterfaceValidation now host status reason message
       = (host, (false, None)))
  ∧ (meta.FindStatusCondition (bmh_Status_Conditions host)
       ConditionNetworkInterfacesValid = None →
     clearNetworkInterfaceValidation host = (host, (false, None))).
Proof.
  split; [|split].
  - unfold validateNetworkInterfaces. cbv zeta.
    destruct (bool_decide (len (bmh_Spec_NetworkInterfaces host) = 0%nat)) eqn:Hlen;
      cbv beta iota.
    + destruct (clear_establishes host) as (Hf & Hspec & _). cbv zeta in *.
      rewrite Hspec, Hlen. by apply clear_noop.
    + destruct (bmh_Status_HardwareDetails host) as [details|] eqn:Ehw; cbv beta iota.
      * destruct (perform_is_set now host details) as (status & reason & Hset).
        destruct (Hset now host eq_refl) as (message & ->).
        destruct (set_establishes now host status reason message)
          as ((c & Hf & Hs & Hr) & Hspec & Hhw).
        cbv zeta in *. rewrite Hspec, Hlen, Hhw, Ehw.
        destruct (Hset now' (setNetworkInterfaceValidation now host status reason message).1
                    Hspec) as (message' & ->).
        by eapply set_noop.
      * destruct (clear_establishes host) as (Hf & Hspec & Hhw). cbv zeta in *.
        rewrite Hspec, Hlen, Hhw, Ehw. by apply clear_noop.
  - intros status reason message c. apply set_noop.
  - apply clear_noop.
Qed.

End InterfaceValidationClaims.

(** ** Attachment resolution *)

Section ResolverClaims.

Import controllers.

Lemma resolveLoop_fails (c : Client) (ns : string) (netIfs : list NetworkInterface)
    (configs : gmap string SwitchPortConfig) :
  (∃ netIf, netIf ∈ netIfs ∧ fetchFails c ns netIf) →
  ∃ e, resolveLoop c ns netIfs configs = (None, Some e).
Proof.
  revert configs. induction netIfs as [|n rest IH]; intros configs (netIf & Hin & Hfail).
  - by apply elem_of_nil in Hin.
  - cbn [resolveLoop]. fold (fetch c ns n).
    destruct (fetch c ns n) as [a|e] eqn:E.
    + apply IH. exists netIf. split; [|done].
      apply elem_of_cons in Hin as [->|?]; [|done].
      destruct Hfail as (e & He & _). congruence.
    + destruct (IsNotFound e) eqn:Enf; [|eauto].
      apply IH. exists netIf. split; [|done].
      apply elem_of_cons in Hin as [->|?]; [|done].
      destruct Hfail as (e' & He & Hnf). congruence.
Qed.

Lemma resolveLoop_ok (c : Client) (ns : string) (netIfs : list NetworkInterface)
    (configs : gmap string SwitchPortConfig) :
  (∀ netIf, netIf ∈ netIfs → ¬ fetchFails c ns netIf) →
  resolveLoop c ns netIfs configs
  = (Some (insertAll (foundConfigs c ns netIfs) configs), None).
Proof.
  revert configs. induction netIfs as [|n rest IH]; intros configs Hno; [done|].
  cbn [resolveLoop foundConfigs flat_map]. fold (fetch c ns n).
  fold (foundConfigs c ns rest).
  assert (∀ netIf, netIf ∈ rest → ¬ fetchFails c ns netIf) as Hrest
    by (intros ??; apply Hno; by right).
  destruct (fetch c ns n) as [a|e] eqn:E.
  - rewrite IH by done. done.
  - destruct (IsNotFound e) eqn:Enf.
    + by rewrite IH.
    + destruct (Hno n); [left|]. by exists e.
Qed.

Lemma insertAll_lookup_None (entries : list (string * SwitchPortConfig))
    (configs : gmap string SwitchPortConfig) (key : string) :
  insertAll entries configs !! key = None
  ↔ configs !! key = None ∧ key ∉ entries.*1.
Proof.
  revert configs. induction entries as [|[k v] rest IH]; intros configs.
  - simpl. split; [intros ?; split; [done | apply not_elem_of_nil] | by intros [? _]].
  - change (insertAll ((k, v) :: rest) configs)
      with (insertAll rest (<[k:=v]> configs)).
    rewrite IH. simpl. rewrite not_elem_of_cons.
    destruct (decide (k = key)) as [->|Hne].
    + rewrite lookup_insert_eq. split; [by intros [? _] | by intros (_ & ? & _)].
    + rewrite lookup_insert_ne by done. intuition congruence.
Qed.

Lemma foundConfigs_key (c : Client) (ns : string) (netIfs : list NetworkInterface)
    (key : string) :
  key ∈ (foundConfigs c ns netIfs).*1
  ↔ ∃ netIf a, netIf ∈ netIfs ∧ GetKey netIf = key ∧ fetch c ns netIf = Ok a.
Proof.
  rewrite list_elem_of_fmap. unfold foundConfigs. split.
  - intros ([k v] & -> & Hin). apply elem_of_flat_map in Hin as (netIf & Hn & Hkv).
    destruct (fetch c ns netIf) as [a|e] eqn:E; [|by apply elem_of_nil in Hkv].
    apply list_elem_of_singleton in Hkv as [= -> ->]. eauto.
  - intros (netIf & a & Hn & <- & Hf). exists (GetKey netIf, configOf a).
    split; [done|]. apply elem_of_flat_map. exists netIf. split; [done|].
    rewrite Hf. by apply list_elem_of_singleton.
Qed.

(** C6: [resolveSwitchPortConfigs] returns an error and a nil map when
    the fetch of some declared interface fails for a reason other than
    not-found. Otherwise it returns no error and the map built from the
    interfaces whose attachment was found only; the key of an interface
    whose attachment is not found is absent, unless an interface with a
    found attachment has the same key. For a host whose only interface
    references a missing attachment the result is the empty map and no
    error. *)
Theorem C6_missing_attachments_skipped (c : Client) (host : BareMetalHost) :
  let ns := bmh_Namespace host in
  let netIfs := elems (bmh_Spec_NetworkInterfaces host) in
  ((∃ netIf, netIf ∈ netIfs ∧ fetchFails c ns netIf) →
     ∃ e, resolveSwitchPortConfigs c host = (None, Some e))
  ∧ ((∀ netIf, netIf ∈ netIfs → ¬ fetchFails c ns netIf) →
     ∃ configs,
       resolveSwitchPortConfigs c host = (Some configs, None)
       ∧ configs = insertAll (foundConfigs c ns netIfs) ∅
       ∧ ∀ netIf, netIf ∈ netIfs → fetchNotFound c ns netIf →
           (∀ other a, other ∈ netIfs → fetch c ns other = Ok a →
                       GetKey other ≠ GetKey netIf) →
           configs !! GetKey netIf = None)
  ∧ (∀ netIf, bmh_Spec_NetworkInterfaces host = Some [netIf] →
       fetchNotFound c ns netIf →
       resolveSwitchPortConfigs c host = (Some ∅, None)).
Proof.
  intros ns netIfs. unfold resolveSwitchPortConfigs. fold ns netIfs.
  split; [|split].
  - apply resolveLoop_fails.
  - intros Hno. eexists. split; [by apply resolveLoop_ok|]. split; [done|].
    intros netIf Hin Hnf Hkeys. apply insertAll_lookup_None. split; [done|].
    rewrite foundConfigs_key. intros (other & a & Ho & Hk & Hf).
    by apply (Hkeys other a).
  - intros netIf Hspec (e & He & Hnf). subst netIfs. rewrite Hspec.
    cbn [elems resolveLoop]. fold (fetch c ns netIf). by rewrite He, Hnf.
Qed.

End ResolverClaims.

Section NetworkWitnesses.

Import controllers.

Example validate_all_valid :
  (validateNetworkInterfaces 10 (inspectedHost "eth0")).2 = (true, None)
  ∧ bmh_Status_Conditions (validateNetworkInterfaces 10 (inspectedHost "eth0")).1
    = [ {| cond_Type := "NetworkInterfacesValid"; cond_Status := ConditionTrue;
           cond_ObservedGeneration := 0; cond_LastTransitionTime := 10;
           cond_Reason := "AllInterfacesValid";
           cond_Message := "All network interfaces are valid" |} ].
Proof. by vm_compute. Qed.

Example validate_invalid_name :
  cond_Message <$>
    bmh_Status_Conditions (validateNetworkInterfaces 10 (inspectedHost "bond0")).1
  = ["Invalid interface names: bond0. Available interfaces: eth0, eth1"].
Proof. by vm_compute. Qed.

(** The second run on the host of [validate_all_valid]. *)
Lemma C9_validation_idempotent_witness :
  (validateNetworkInterfaces 10 (inspectedHost "eth0")).2 = (true, None)
  ∧ validateNetworkInterfaces 20 (validateNetworkInterfaces 10 (inspectedHost "eth0")).1
    = ((validateNetworkInterfaces 10 (inspectedHost "eth0")).1, (false, None)).
Proof.
  split; [by vm_compute|].
  apply (C9_validation_idempotent 10 20 (inspectedHost "eth0")).
Defined.

Lemma C6_missing_attachments_skipped_witness :
  resolveSwitchPortConfigs emptyCluster danglingHost = (Some ∅, None).
Proof.
  pose proof (C6_missing_attachments_skipped emptyCluster danglingHost) as H.
  cbv zeta in H. destruct H as (_ & _ & H).
  eapply H; [reflexivity|].
  exists (NewNotFound "hostnetworkattachments.metal3.io" "non-existent").
  split; reflexivity.
Defined.

(** The fetch of the second interface is refused: no partial map. *)
Example resolve_fail_fast :
  let c := {| cl_Attachments :=
                {[ ("test-ns", "net-a") :=
                     {| ac_Labels := ∅;
                        ac_Spec := {| Mode := "access"; NativeVLAN := 100;
                                      AllowedVLANs := None; MTU := None |} |} ]};
              cl_Secrets := ∅; cl_Switches := [];
              cl_Fault := fun r =>
                match r with
                | GetAttachment _ "net-b" =>
                    Some (StatusError StatusReasonForbidden "forbidden")
                | _ => None
                end;
              cl_Updates := [] |} in
  let netIf name att :=
    {| ni_Name := name; ni_MACAddress := "";
       ni_HostNetworkAttachment := {| ref_Name := att; ref_Namespace := "" |} |} in
  (resolveSwitchPortConfigs c
     (driftHost (Some [netIf "eth0" "net-a"; netIf "eth1" "net-b"]) None [])).1 = None
  ∧ (resolveSwitchPortConfigs c
       (driftHost (Some [netIf "eth0" "net-a"; netIf "eth1" "net-gone"]) None []))
    = (Some {[ "eth0" := {| spc_Mode := "access"; spc_NativeVLAN := 100;
                            spc_AllowedVLANs := None; spc_MTU := None |} ]}, None).
Proof. by vm_compute. Qed.

End NetworkWitnesses.

(** ** Secret publication *)

Section SecretFacts.

Import switchconfig.

(** [secretDataEqual] decides equality of the two maps, a nil map counting
    as an empty one. *)
Lemma secretDataEqual_spec (a b : option (gmap string (list byte))) :
  secretDataEqual a b = true ↔ default ∅ a = default ∅ b.
Proof.
  unfold secretDataEqual.
  set (ma := default ∅ a). set (mb := default ∅ b).
  case_bool_decide as Hsize.
  - split; [done|]. intros Heq. by rewrite Heq in Hsize.
  - rewrite forallb_forall. split.
    + intros Hall. apply map_subseteq_size_eq; [|lia].
      apply map_subseteq_spec. intros k v Hk.
      specialize (Hall (k, v)). simpl in Hall.
      destruct (mb !! k) as [bv|] eqn:Eb.
      * f_equal. symmetry. eapply bool_decide_eq_true, Hall.
        apply list_elem_of_In. by apply elem_of_map_to_list.
      * discriminate Hall. apply list_elem_of_In. by apply elem_of_map_to_list.
    + intros <- [k v] Hin. apply list_elem_of_In, elem_of_map_to_list in Hin.
      rewrite Hin. by apply bool_decide_eq_true.
Qed.

Lemma GetSecretObj_inv (c : Client) (ns name : string) (secret : Secret) :
  GetSecretObj c ns name = Ok secret →
  cl_Fault c (GetSecret ns name) = None
  ∧ cl_Secrets c !! (ns, name)
    = Some {| sc_Labels := sec_Labels secret; sc_Data := sec_Data secret |}
  ∧ sec_Namespace secret = ns ∧ sec_Name secret = name.
Proof.
  unfold GetSecretObj. destruct (cl_Fault c _); [done|].
  destruct (cl_Secrets c !! (ns, name)) as [[labels data]|]; [|done].
  by intros [= <-].
Qed.

(** What [updateSecretData] does once the secret has been read. *)
Lemma updateSecretData_read (c : Client) (ns name : string)
    (newData : option (gmap string (list byte))) (secret : Secret) :
  GetSecretObj c ns name = Ok secret →
  (default ∅ (sec_Data secret) = default ∅ newData →
     updateSecretData c ns name newData = (c, None))
  ∧ (default ∅ (sec_Data secret) ≠ default ∅ newData →
     cl_Updates (updateSecretData c ns name newData).1
     = cl_Updates c ++ [withData secret newData]
     ∧ cl_Fault (updateSecretData c ns name newData).1 = cl_Fault c
     ∧ (cl_Fault c (UpdateSecret ns name) = None →
        (updateSecretData c ns name newData).2 = None
        ∧ cl_Secrets (updateSecretData c ns name newData).1
          = <[(ns, name) := {| sc_Labels := sec_Labels secret; sc_Data := newData |}]>
              (cl_Secrets c))
     ∧ ((updateSecretData c ns name newData).2 = None →
        cl_Secrets (updateSecretData c ns name newData).1
        = <[(ns, name) := {| sc_Labels := sec_Labels secret; sc_Data := newData |}]>
            (cl_Secrets c))).
Proof.
  intros Hget. pose proof (GetSecretObj_inv c ns name secret Hget) as (Hf & Hs & Hns & Hn).
  unfold updateSecretData. rewrite Hget. split.
  - intros Heq. by rewrite (proj2 (secretDataEqual_spec _ _) Heq).
  - intros Hne.
    destruct (secretDataEqual (sec_Data secret) newData) eqn:E;
      [by apply secretDataEqual_spec in E|].
    unfold UpdateSecretObj. cbn [sec_Namespace sec_Name sec_Labels sec_Data].
    rewrite Hns, Hn, Hs.
    destruct (cl_Fault c (UpdateSecret ns name)) as [e|] eqn:Ef; simpl;
      unfold withData; rewrite ?Hns, ?Hn; done.
Qed.

End SecretFacts.

Section SecretClaims.

Import switchconfig.

(** C8: for a secret that can be read. When the new data equals the data of
    the secret key for key with equal bytes, a nil map counting as an empty
    one, which is what [secretDataEqual] decides, [updateSecretData] issues
    no update call and leaves the cluster, and so the stored secret, as it
    is. Otherwise it issues one update call, for the secret with its data
    replaced by the new map and nothing else changed, and once the call is
    accepted the stored secret is that secret. *)
Theorem C8_secret_data_replaced (c : Client) (ns name : string)
    (newData : option (gmap string (list byte))) (secret : Secret) :
  GetSecretObj c ns name = Ok secret →
  let equal := default ∅ (sec_Data secret) = default ∅ newData in
  let after := updateSecretData c ns name newData in
  (secretDataEqual (sec_Data secret) newData = true ↔ equal)
  ∧ (equal → after = (c, None))
  ∧ (¬ equal →
     cl_Updates after.1 = cl_Updates c ++ [withData secret newData]
     ∧ (cl_Fault c (UpdateSecret ns name) = None →
        after.2 = None ∧ GetSecretObj after.1 ns name = Ok (withData secret newData))).
Proof.
  intros Hget equal after.
  pose proof (GetSecretObj_inv c ns name secret Hget) as (Hf & Hs & Hns & Hn).
  destruct (updateSecretData_read c ns name newData secret Hget) as [Heq Hne].
  split; [apply secretDataEqual_spec|]. split; [done|].
  intros Hneq. destruct (Hne Hneq) as (Hlog & Hfault & Hacc & _).
  split; [done|]. intros Hok. destruct (Hacc Hok) as [Herr Hstore].
  split; [done|]. unfold GetSecretObj. subst after.
  rewrite Hfault, Hf, Hstore, lookup_insert_eq.
  unfold withData. by rewrite Hns, Hn.
Qed.

End SecretClaims.

(** ** Switch configuration generation *)

Section GenerationFacts.

Import switchconfig.

Variable filepath_Join : string → string → string.







End GenerationFacts.

Section PublicationFacts.

Import switchconfig.





(** [updateSecretData] leaves the cluster's failures as they are and
    writes at most the secret it was called for. *)
Lemma updateSecretData_store (c : Client) (ns name : string)
    (newData : option (gmap string (list byte))) :
  cl_Fault (updateSecretData c ns name newData).1 = cl_Fault c
  ∧ (cl_Secrets (updateSecretData c ns name newData).1 = cl_Secrets c
     ∨ ∃ content, cl_Secrets (updateSecretData c ns name newData).1
                  = <[(ns, name) := content]> (cl_Secrets c)).
Proof.
  unfold updateSecretData.
  destruct (GetSecretObj c ns name) as [secret|e] eqn:Hget; [|by split; [|left]].
  pose proof (GetSecretObj_inv c ns name secret Hget) as (_ & _ & Hns & Hn).
  destruct (secretDataEqual (sec_Data secret) newData); [by split; [|left]|].
  unfold UpdateSecretObj. cbn [sec_Namespace sec_Name sec_Labels sec_Data].
  rewrite Hns, Hn.
  destruct (cl_Fault c (UpdateSecret ns name)); [by split; [|left]|].
  destruct (cl_Secrets c !! (ns, name)); [|by split; [|left]].
  split; [done|]. right. by eexists.
Qed.

Lemma updateSecretData_frame (c : Client) (ns name other : string)
    (newData : option (gmap string (list byte))) :
  other ≠ name →
  GetSecretObj (updateSecretData c ns name newData).1 ns other = GetSecretObj c ns other.
Proof.
  intros Hne. destruct (updateSecretData_store c ns name newData) as [Hf [Hs | [x Hs]]];
    unfold GetSecretObj; rewrite Hf, Hs; [done|].
  rewrite lookup_insert_ne; [done | congruence].
Qed.


End PublicationFacts.

Section GenerationOutcomeFacts.

Import switchconfig.

Variable filepath_Join : string → string → string.

(** The two outcomes of [writeSwitchEntry]: with complete credentials it
    records the section and, for public-key authentication, the key file;
    otherwise it fails with an error that does not depend on the maps, and
    returns them as they were. *)
Lemma writeSwitchEntry_outcome (c : Client) (sw : BareMetalSwitch) (path : string) :
  (credentialsComplete c sw
   ∧ ∀ entries keys,
       writeSwitchEntry filepath_Join c sw path entries keys
       = (<[sw_Name sw := sectionBytes filepath_Join c path sw]> entries,
          withKeyFile c sw keys, None))
  ∨ (¬ credentialsComplete c sw
     ∧ ∃ e, ∀ entries keys,
         writeSwitchEntry filepath_Join c sw path entries keys = (entries, keys, Some e)).
Proof.
  unfold credentialsComplete, withKeyFile, privateKeyOf, secretKeyOf, credential,
    sectionBytes, sectionOf, usesPublicKey, writeSwitchEntry.
  destruct (GetSecretObj c (sw_Namespace sw) _) as [secret|e].
  - destruct (default ∅ (sec_Data secret) !! "username") as [username|].
    + case_bool_decide.
      * destruct (default ∅ (sec_Data secret) !! "ssh-privatekey") as [key|].
        -- left. split; [by split; eexists|]. intros entries keys.
           by rewrite lookup_insert_eq.
        -- right. split; [by intros [_ [? ?]]|]. by eexists.
      * destruct (default ∅ (sec_Data secret) !! "password") as [password|].
        -- left. split; [by split; eexists|]. intros entries keys.
           by rewrite lookup_insert_eq.
        -- right. split; [by intros [_ [? ?]]|]. by eexists.
    + right. split; [by intros [[? ?] _]|]. by eexists.
  - right. split; [by intros [[? ?] _]|]. by eexists.
Qed.

(** The loop over the listed switches: with complete credentials throughout
    it succeeds; otherwise the first switch with incomplete credentials
    ends it. *)
Lemma generateLoop_outcome (c : Client) (path : string) (items : list BareMetalSwitch)
    (entries keys : gmap string (list byte)) :
  (Forall (credentialsComplete c) items
   ∧ ∃ r, generateLoop filepath_Join c path items entries keys = Ok r
          ∧ keyFiles r = foldl (fun m sw => withKeyFile c sw m) keys items)
  ∨ (∃ before sw after e,
       items = before ++ sw :: after
       ∧ Forall (credentialsComplete c) before
       ∧ ¬ credentialsComplete c sw
       ∧ (∀ entries keys,
            writeSwitchEntry filepath_Join c sw path entries keys = (entries, keys, Some e))
       ∧ generateLoop filepath_Join c path items entries keys
         = Err (Errorf_w ("failed to generate config for switch " +:+ sw_Name sw +:+ ": ")
                  e)).
Proof.
  revert entries keys. induction items as [|sw rest IH]; intros entries keys.
  - left. split; [done|]. by eexists.
  - cbn [generateLoop foldl].
    destruct (writeSwitchEntry_outcome c sw path) as [[Hc Hw] | [Hc [e Hw]]]; rewrite Hw.
    + destruct (IH (<[sw_Name sw := sectionBytes filepath_Join c path sw]> entries)
                  (withKeyFile c sw keys))
        as [[Hall Hr] | (before & sw' & after & e & -> & Hall & Hrest)].
      * left. split; [by constructor | done].
      * right. exists (sw :: before), sw', after, e. split; [done|].
        split; [by constructor | done].
    + right. exists [], sw, rest, e. done.
Qed.



End GenerationOutcomeFacts.

Section GenerationClaims.

Import switchconfig.

(** C4: for switch1 of the scenario, with a credentials secret that holds
    the username admin and the password secret123, [writeSwitchEntry]
    returns no error, records under the key switch1 exactly the bytes of
    the expected section, and leaves the key files as they are. *)
Theorem C4_switch1_entry (filepath_Join : string → string → string)
    (c : Client) (ns secretName credentialsPath : string)
    (entries keys : gmap string (list byte))
    (secret : Secret) (data : gmap string (list byte)) :
  GetSecretObj c ns secretName = Ok secret →
  sec_Data secret = Some data →
  data !! "username" = Some (String.list_byte_of_string "admin") →
  data !! "password" = Some (String.list_byte_of_string "secret123") →
  writeSwitchEntry filepath_Join c (switch1 ns secretName) credentialsPath entries keys
  = (<["switch1" := switch1Section]> entries, keys, None).
Proof.
  intros Hget Hdata Huser Hpass. unfold writeSwitchEntry.
  cbn [switch1 sw_Namespace sw_Name sw_Spec Credentials cred_SecretName cred_Type
       Address MACAddress Driver DeviceType Port DisableCertificateVerification].
  rewrite Hget, Hdata. change (default ∅ (Some data)) with data. rewrite Huser.
  rewrite bool_decide_false by done. rewrite Hpass.
  reflexivity.
Qed.

Lemma C4_switch1_entry_witness :
  writeSwitchEntry simpleJoin switch1Cluster (switch1 "test-ns" "switch1-creds")
    "/etc/ironic/switch-credentials" ∅ ∅
  = ({[ "switch1" := switch1Section ]}, ∅, None).
Proof.
  apply (C4_switch1_entry simpleJoin switch1Cluster "test-ns" "switch1-creds"
           "/etc/ironic/switch-credentials" ∅ ∅
           {| sec_Namespace := "test-ns"; sec_Name := "switch1-creds";
              sec_Labels := ∅; sec_Data := sc_Data (passwordSecret "admin" "secret123") |}
           {[ "username" := String.list_byte_of_string "admin";
              "password" := String.list_byte_of_string "secret123" ]});
    reflexivity.
Defined.

End GenerationClaims.

Section PublicationClaims.

Import switchconfig.


End PublicationClaims.

Section PublicationWitnesses.

Import switchconfig.

Example publish_two_switches :
  let after := updateSwitchConfigSecret simpleJoin keysReversed twoSwitchCluster
                 "test-ns" "switch-configs" "switch-credentials" "/creds" in
  after.2 = None
  ∧ sc_Data <$> cl_Secrets after.1 !! ("test-ns", "switch-configs")
    = Some (Some {[ switchConfigKey :=
                      String.list_byte_of_string banner ++ switch1Section ++ switch2Section ]})
  ∧ sc_Data <$> cl_Secrets after.1 !! ("test-ns", "switch-credentials")
    = Some (Some {[ "aa-bb-cc-dd-ee-ff.key" := String.list_byte_of_string "KEY" ]}).
Proof. by vm_compute. Qed.

Example publish_no_switch :
  let c := {| cl_Attachments := ∅;
              cl_Secrets :=
                {[ ("test-ns", "switch-configs") := {| sc_Labels := ∅; sc_Data := None |};
                   ("test-ns", "switch-credentials") :=
                     {| sc_Labels := ∅; sc_Data := None |} ]};
              cl_Switches := []; cl_Fault := fun _ => None; cl_Updates := [] |} in
  let after := updateSwitchConfigSecret simpleJoin keysInMapOrder c
                 "test-ns" "switch-configs" "switch-credentials" "/creds" in
  after.2 = None
  ∧ sec_Data <$> cl_Updates after.1
    = [Some {[ switchConfigKey :=
                 String.list_byte_of_string
                   ("# This file is managed by the Baremetal Operator" +:+ LF +:+ LF) ]}].
Proof. by vm_compute. Qed.


(** Publishing an empty map into a secret whose data is nil: no update. *)
Lemma C8_secret_data_replaced_witness :
  updateSecretData twoSwitchCluster "test-ns" "switch-configs" (Some ∅)
  = (twoSwitchCluster, None).
Proof.
  pose proof (C8_secret_data_replaced twoSwitchCluster "test-ns" "switch-configs" (Some ∅)
                {| sec_Namespace := "test-ns"; sec_Name := "switch-configs";
                   sec_Labels := ∅; sec_Data := None |} eq_refl) as H.
  cbv zeta in H. destruct H as (_ & H & _). by apply H.
Defined.

Example update_replaces_data :
  let after := updateSecretData twoSwitchCluster "test-ns" "switch-credentials"
                 (Some {[ "a.key" := String.list_byte_of_string "K" ]}) in
  after.2 = None
  ∧ sec_Data <$> cl_Updates after.1
    = [Some {[ "a.key" := String.list_byte_of_string "K" ]}]
  ∧ sc_Data <$> cl_Secrets after.1 !! ("test-ns", "switch-credentials")
    = Some (Some {[ "a.key" := String.list_byte_of_string "K" ]}).
Proof. by vm_compute. Qed.

End PublicationWitnesses.

(** ** Port reconciliation *)

Section PortFacts.

Import ironic.

Context {World : Type} `{IronicAPI World}.

Lemma ensureAll_nics (p : ironicProvisioner) (nodeUUID : string)
    (byMAC : gmap string Port) (nics : list NIC) (w : World) :
  (ensureAll p nodeUUID byMAC nics w).2.*1 = nics.
Proof.
  revert w. induction nics as [|nic rest IH]; intros w; [done|].
  cbn [ensureAll]. destruct (ensureNIC p nodeUUID byMAC nic w) as [w1 outcome].
  specialize (IH w1). destruct (ensureAll p nodeUUID byMAC rest w1) as [w2 outcomes].
  cbn [snd fmap list_fmap fst] in *. by f_equal.
Qed.

(** The loop of [ensurePorts] is that pass over the NICs with a MAC
    address: a failure is recorded and the loop goes on. *)
Lemma ensureLoop_ensureAll (p : ironicProvisioner) (nodeUUID : string)
    (byMAC : gmap string Port) (nics : list NIC)
    (failures : list string) (successCount : nat) (w : World) :
  let loop := ensureLoop p nodeUUID byMAC nics failures successCount w in
  let run := ensureAll p nodeUUID byMAC (filter hasMAC nics) w in
  loop.1 = run.1 ∧ loop.2.1 = failures ++ failureLines run.2.
Proof.
  revert failures successCount w.
  induction nics as [|nic rest IH]; intros failures successCount w.
  - simpl. by rewrite app_nil_r.
  - cbn [ensureLoop]. rewrite filter_cons.
    case_bool_decide as Hmac; destruct (decide (hasMAC nic)) as [Hm|Hm];
      unfold hasMAC in Hm; try done; try apply IH.
    cbn [ensureAll].
    destruct (ensureNIC p nodeUUID byMAC nic w) as [w1 [err|]].
    + specialize (IH (failures ++ [nic_Name nic +:+ "(" +:+ nic_MAC nic +:+ "): "
                                       +:+ Error err]) successCount w1).
        destruct (ensureAll p nodeUUID byMAC (filter hasMAC rest) w1) as [w2 outcomes].
        destruct IH as [IH1 IH2]. split; [done|].
        rewrite IH2. cbn [failureLines flat_map snd]. by rewrite <- app_assoc.
    + specialize (IH failures (S successCount) w1).
        destruct (ensureAll p nodeUUID byMAC (filter hasMAC rest) w1) as [w2 outcomes].
        destruct IH as [IH1 IH2]. split; done.
Qed.

(** C7: with stored hardware details and the existing ports listed,
    [ensurePorts] calls [ensurePort] for every deduplicated NIC with a MAC
    address, in order and whatever the outcome of the earlier calls. It
    returns nil when no call failed; otherwise it returns one error whose
    message gives the number of failures, the number of deduplicated NICs
    and the lines "interface(MAC): cause" of the first three failures at
    most. *)
Theorem C7_failures_aggregated (p : ironicProvisioner) (nodeUUID : string)
    (w w1 : World) (hardwareDetails : HardwareDetails) (existingPorts : list Port) :
  storedHardwareDetails p = Some hardwareDetails →
  listNodePorts nodeUUID w = (w1, Ok existingPorts) →
  let uniqueNICs := deduplicateNICsByMAC (hw_NIC hardwareDetails) in
  let run := ensureAll p nodeUUID (portsByMAC existingPorts) (filter hasMAC uniqueNICs) w1 in
  let failures := failureLines run.2 in
  (ensurePorts p nodeUUID w).1 = run.1
  ∧ run.2.*1 = filter hasMAC uniqueNICs
  ∧ (failures = [] → (ensurePorts p nodeUUID w).2 = None)
  ∧ (failures ≠ [] →
     (ensurePorts p nodeUUID w).2
     = Some (errorString
               ("failed to ensure " +:+ fmt_d (Z.of_nat (length failures))
                  +:+ "/" +:+ fmt_d (Z.of_nat (length uniqueNICs))
                  +:+ " ports: " +:+ strings_Join (take 3 failures) "; "))).
Proof.
  intros Hhw Hlist uniqueNICs run failures.
  unfold ensurePorts. rewrite Hhw, Hlist. fold uniqueNICs.
  pose proof (ensureLoop_ensureAll p nodeUUID (portsByMAC existingPorts) uniqueNICs [] O w1)
    as Hloop.
  cbv zeta in Hloop. fold run in Hloop.
  destruct (ensureLoop p nodeUUID (portsByMAC existingPorts) uniqueNICs [] 0 w1)
    as [w2 [failed successCount]].
  simpl in Hloop. destruct Hloop as [-> ->]. fold failures.
  split; [by case_bool_decide|]. split; [apply ensureAll_nics|]. split.
  - intros ->. by rewrite bool_decide_false by (simpl; lia).
  - intros Hne. rewrite bool_decide_true by (destruct failures; simpl; [done | lia]).
    simpl. do 3 f_equal. case_bool_decide as Hlen; [done|].
    by rewrite take_ge by lia.
Qed.

End PortFacts.

Section PortWitnesses.

Import ironic.

Example dedup_fiveNICs :
  nic_MAC <$> deduplicateNICsByMAC (hw_NIC fiveNICs)
  = ["aa:bb:cc:dd:ee:01"; "aa:bb:cc:dd:ee:02"; "aa:bb:cc:dd:ee:03";
     "aa:bb:cc:dd:ee:04"; "aa:bb:cc:dd:ee:05"].
Proof. by vm_compute. Qed.

(** Four of five NICs fail: all five are tried, three are named. *)
Lemma C7_failures_aggregated_witness :
  ensurePorts inspectedProvisioner "node-0" []
  = (["aa:bb:cc:dd:ee:01"; "aa:bb:cc:dd:ee:02"; "aa:bb:cc:dd:ee:03";
      "aa:bb:cc:dd:ee:04"; "aa:bb:cc:dd:ee:05"],
     Some (errorString
             ("failed to ensure 4/5 ports: "
              +:+ "bad0(aa:bb:cc:dd:ee:01): port create failed for aa:bb:cc:dd:ee:01; "
              +:+ "bad1(aa:bb:cc:dd:ee:02): port create failed for aa:bb:cc:dd:ee:02; "
              +:+ "bad3(aa:bb:cc:dd:ee:04): port create failed for aa:bb:cc:dd:ee:04"))).
Proof.
  pose proof (C7_failures_aggregated inspectedProvisioner "node-0" [] [] fiveNICs []
                eq_refl eq_refl) as Hclaim.
  cbv zeta in Hclaim. destruct Hclaim as (Hworld & _ & _ & Herr).
  apply injective_projections.
  - rewrite Hworld. by vm_compute.
  - rewrite Herr; by vm_compute.
Defined.

Example ensurePorts_no_hardware_details :
  ensurePorts {| bootMACAddress := "11:22:33:44:55:66"; switchPortConfigs := ∅;
                 storedHardwareDetails := None |} "node-0" []
  = (["11:22:33:44:55:66"], None).
Proof. reflexivity. Qed.

End PortWitnesses.

(** * Further properties *)

(** ** Admission of attachments *)

Section AdmissionFacts.

Import webhooks.

Lemma validateSwitchportConfiguration_None (a : HostNetworkAttachment) :
  validateSwitchportConfiguration a = None
  ↔ modeCheckPasses a ∧ ¬ vlanOutOfRange (NativeVLAN (hna_Spec a)).
Proof.
  unfold validateSwitchportConfiguration, modeCheckPasses, isTrunkOrHybrid.
  assert (SwitchportModeAccess ≠ SwitchportModeTrunk) as Hat by done.
  assert (SwitchportModeAccess ≠ SwitchportModeHybrid) as Hah by done.
  case_bool_decide as Hacc.
  - case_bool_decide as Hlen.
    + split; [done|]. intros [[[_ ?]|[[?|?] _]] _]; [lia | congruence | congruence].
    + destruct (validateVLANID _) eqn:E.
      * split; [done|]. intros [_ Hin]. by apply validateVLANID_None in Hin; congruence.
      * apply validateVLANID_None in E. split; [|done]. intros _.
        split; [left; split; [done | lia] | done].
  - case_bool_decide as Hth.
    + destruct (validateVLANList _) eqn:El.
      * split; [done|]. intros [[[? _]|[_ Hall]] _]; [done|].
        apply validateVLANList_None in Hall. congruence.
      * pose proof (proj1 (validateVLANList_None _) El) as Hall.
        destruct (validateVLANID _) eqn:E.
        -- split; [done|]. intros [_ Hin]. apply validateVLANID_None in Hin. congruence.
        -- apply validateVLANID_None in E. split; [|done]. intros _. split; [by right | done].
    + split; [done|]. intros [[[? _]|[? _]] _]; done.
Qed.

Lemma validateMTU_None (a : HostNetworkAttachment) :
  validateMTU a = None ↔ ∀ mtu, MTU (hna_Spec a) = Some mtu → ¬ mtuOutOfRange mtu.
Proof.
  unfold validateMTU, mtuOutOfRange. destruct (MTU (hna_Spec a)) as [m|]; [|done].
  destruct (_ || _)%bool eqn:E.
  - split; [done|]. intros Hm. destruct (Hm m eq_refl). lia.
  - split; [|done]. intros _ mtu [= <-]. lia.
Qed.

(** X1: what [ValidateCreate] returns for an attachment is
    [NewAggregate (validateAttachment a)]: it is nil exactly for the
    attachments that pass the mode check, with the native VLAN in [1,4094]
    and the MTU, if present, in [68,9000]; and the list never holds more
    than two errors. *)
Theorem create_admits_exactly_valid (a : HostNetworkAttachment) :
  (NewAggregate (validateAttachment a) = None ↔ validAttachment a)
  ∧ (length (validateAttachment a) ≤ 2)%nat.
Proof.
  assert (validateAttachment a = []
          ↔ validateSwitchportConfiguration a = None ∧ validateMTU a = None) as Hnil.
  { unfold validateAttachment.
    destruct (validateSwitchportConfiguration a), (validateMTU a); simpl;
      split; try done; intros [??]; done. }
  split.
  - assert (NewAggregate (validateAttachment a) = None ↔ validateAttachment a = []) as ->
      by (destruct (validateAttachment a); simpl; split; done).
    rewrite Hnil, validateSwitchportConfiguration_None, validateMTU_None.
    unfold validAttachment. tauto.
  - unfold validateAttachment.
    destruct (validateSwitchportConfiguration a), (validateMTU a); simpl; lia.
Qed.

(** X2: [validateVLANList] reports the first VLAN ID outside [1,4094], and only
    that one. *)
Theorem vlan_list_reports_first_invalid (vlans : list Z) (e : error) :
  validateVLANList vlans = Some e
  ↔ ∃ before vlan after,
      vlans = before ++ vlan :: after
      ∧ (∀ v, v ∈ before → ¬ vlanOutOfRange v)
      ∧ vlanOutOfRange vlan
      ∧ e = errorString (vlanMessage vlan).
Proof.
  induction vlans as [|v rest IH]; simpl.
  - split; [done|]. intros (b & ? & ? & Heq & _). by destruct b.
  - destruct (validateVLANID v) as [e'|] eqn:E.
    + pose proof E as [Hout _]%validateVLANID_Some.
      assert (e' = errorString (vlanMessage v)) as ->.
      { revert E. unfold validateVLANID. by case_match; intros [= <-]. }
      split.
      * intros [= <-]. exists [], v, rest. split; [done|].
        split; [by intros ? ?%elem_of_nil | done].
      * intros ([|b before] & vlan & after & Heq & Hpre & _ & ->).
        -- by injection Heq as -> _.
        -- injection Heq as -> _. destruct (Hpre b); [left | done].
    + apply validateVLANID_None in E. rewrite IH. split.
      * intros (before & vlan & after & -> & Hpre & Hout & ->).
        exists (v :: before), vlan, after. split; [done|]. split; [|done].
        intros v' [->|?]%elem_of_cons; auto.
      * intros ([|b before] & vlan & after & Heq & Hpre & Hout & ->).
        -- injection Heq as -> _. done.
        -- injection Heq as -> ->. exists before, vlan, after. split; [done|].
           split; [|done]. intros v' ?. apply Hpre. by right.
Qed.

Lemma flat_map_filter_nil {A B} (f : A → list B) (P Q : A → Prop)
    `{∀ x, Decision (P x)} `{∀ x, Decision (Q x)} (l : list A) :
  (∀ x, P x → ¬ Q x → f x = []) →
  flat_map f (filter (fun x => P x ∧ Q x) l) = flat_map f (filter P l).
Proof.
  intros Hnil. induction l as [|x l IH]; [done|].
  rewrite !filter_cons. destruct (decide (P x)) as [HP|HP].
  - destruct (decide (Q x)) as [HQ|HQ].
    + rewrite decide_True by done. simpl. by rewrite IH.
    + rewrite decide_False by tauto. simpl. by rewrite IH, Hnil.
  - rewrite decide_False by tauto. done.
Qed.

(** X3: the field index only narrows the list call: for an attachment with a
    non-empty name, [findBMHReferences] returns what a scan of all hosts of
    the attachment's namespace returns, in the same order, and each entry
    names a host of that list and an interface of it that references the
    attachment. *)
Theorem index_lookup_is_namespace_scan (c : Client) (att : HostNetworkAttachment) :
  hna_Name att ≠ "" →
  cl_ListError c = None →
  findBMHReferences c att = Ok (flat_map (referencesOf att) (namespaceHosts c att))
  ∧ ∀ r, r ∈ flat_map (referencesOf att) (namespaceHosts c att)
         ↔ ∃ h netIf, h ∈ namespaceHosts c att ∧ references att h netIf
                      ∧ r = refString h netIf.
Proof.
  intros Hname Hok. split.
  - rewrite (findBMHReferences_ok c att Hok). f_equal. unfold listed, namespaceHosts.
    apply (flat_map_filter_nil (referencesOf att)
             (fun bmh => hna_Namespace att = "" ∨ bmh_Namespace bmh = hna_Namespace att)
             (fun bmh => hna_Namespace att +:+ "/" +:+ hna_Name att ∈ indexBMH bmh)).
    intros h _ Hidx. destruct (referencesOf att h) as [|r rest] eqn:E; [done|].
    assert (r ∈ referencesOf att h) as Hr by (rewrite E; left).
    apply referencesOf_elem in Hr as (netIf & Href & _).
    destruct Hidx. by eapply indexBMH_elem.
  - intros r. rewrite elem_of_flat_map. split.
    + intros (h & Hh & (netIf & Href & ->)%referencesOf_elem). eauto.
    + intros (h & netIf & Hh & Href & ->). exists h. split; [done|].
      apply referencesOf_elem. eauto.
Qed.

(** X4: [validateUpdate] admits an update exactly when the spec is unchanged,
    or the reference lookup succeeds and finds nothing and the new
    attachment passes field validation. *)
Theorem update_admitted_iff (c : Client) (old new : HostNetworkAttachment) :
  (validateUpdate c old new).2 = None
  ↔ hna_Spec old = hna_Spec new
    ∨ (findBMHReferences c old = Ok [] ∧ validateAttachment new = []).
Proof.
  destruct (decide (hna_Spec old = hna_Spec new)) as [Heq|Hne].
  - unfold validateUpdate, reflect_DeepEqual. rewrite bool_decide_true by done.
    simpl. tauto.
  - destruct (findBMHReferences c old) as [refs|err] eqn:Hfind.
    + rewrite (validateUpdate_changed c old new refs) by done.
      destruct refs as [|r rest].
      * destruct (validateAttachment new) eqn:E; simpl; split; try done; try tauto.
        intros [?|[_ ?]]; done.
      * destruct (validateAttachment new); simpl; split; try done;
          intros [?|[? _]]; done.
    + unfold validateUpdate, reflect_DeepEqual.
      rewrite bool_decide_false by done. rewrite Hfind. simpl.
      split; [done | intros [?|[? _]]; done].
Qed.

End AdmissionFacts.

(** ** Validation of the declared interfaces *)

Section HostValidationFacts.

Import controllers.

Lemma availableNICs_step (m : gmap string bool) (nic : NIC) (key : string) :
  let m' := (if bool_decide (nic_MAC nic ≠ "")
             then <[nic_MAC nic := true]>
                    (if bool_decide (nic_Name nic ≠ "") then <[nic_Name nic := true]> m else m)
             else if bool_decide (nic_Name nic ≠ "") then <[nic_Name nic := true]> m else m) in
  default false (m' !! key) = true
  ↔ default false (m !! key) = true
    ∨ (key ≠ "" ∧ (nic_Name nic = key ∨ nic_MAC nic = key)).
Proof.
  cbv zeta. repeat case_bool_decide;
    repeat match goal with
           | Hnn : ¬ (_ ≠ _) |- _ => apply dec_stable in Hnn
           end;
    repeat match goal with
           | |- context [<[?k := _]> _ !! key] =>
               let Heq := fresh "Heq" in
               destruct (decide (k = key)) as [Heq|?];
               [rewrite Heq, lookup_insert_eq | rewrite lookup_insert_ne by done]
           end; simpl; intuition congruence.
Qed.

Lemma availableNICs_lookup (nics : list NIC) (key : string) :
  default false (controllers.availableNICs nics !! key) = true ↔ keyDiscovered nics key.
Proof.
  unfold controllers.availableNICs, keyDiscovered.
  induction nics as [|nic l IH] using rev_ind.
  - simpl. split; [done|]. intros (_ & nic & ?%elem_of_nil & _). done.
  - rewrite foldl_snoc.
    match goal with
    | |- default false (?m' !! key) = true ↔ _ =>
        change m' with
          (if bool_decide (nic_MAC nic ≠ "")
           then <[nic_MAC nic := true]>
                  (if bool_decide (nic_Name nic ≠ "")
                   then <[nic_Name nic := true]> (controllers.availableNICs l)
                   else controllers.availableNICs l)
           else if bool_decide (nic_Name nic ≠ "")
                then <[nic_Name nic := true]> (controllers.availableNICs l)
                else controllers.availableNICs l)
    end.
    rewrite availableNICs_step. unfold controllers.availableNICs. rewrite IH. split.
    + intros [(Hk & n & Hn & Hor) | (Hk & Hor)].
      * split; [done|]. exists n. split; [apply elem_of_app; by left | done].
      * split; [done|]. exists nic. split; [apply elem_of_app; right; left | done].
    + intros (Hk & n & [Hn | ->%list_elem_of_singleton]%elem_of_app & Hor).
      * left. eauto.
      * right. done.
Qed.

Lemma invalidInterfacesOf_elem (host : BareMetalHost) (details : HardwareDetails)
    (key : string) :
  key ∈ invalidInterfacesOf host details
  ↔ ∃ netIf, netIf ∈ elems (bmh_Spec_NetworkInterfaces host)
             ∧ GetKey netIf = key ∧ ¬ keyDiscovered (hw_NIC details) key.
Proof.
  unfold invalidInterfacesOf. rewrite elem_of_flat_map. split.
  - intros (netIf & Hin & Hk). exists netIf.
    destruct (default false _) eqn:E; [by apply elem_of_nil in Hk|].
    apply list_elem_of_singleton in Hk as ->. split; [done|]. split; [done|].
    rewrite <- availableNICs_lookup. congruence.
  - intros (netIf & Hin & <- & Hnot). exists netIf. split; [done|].
    destruct (default false _) eqn:E; [by apply availableNICs_lookup in E|].
    by apply list_elem_of_singleton.
Qed.

Lemma invalidInterfacesOf_nil (host : BareMetalHost) (details : HardwareDetails) :
  invalidInterfacesOf host details = []
  ↔ ∀ netIf, netIf ∈ elems (bmh_Spec_NetworkInterfaces host) →
             keyDiscovered (hw_NIC details) (GetKey netIf).
Proof.
  split.
  - intros Hnil netIf Hin.
    destruct (decide (default false (controllers.availableNICs (hw_NIC details)
                                       !! GetKey netIf) = true)) as [Hd|Hd].
    + by apply availableNICs_lookup.
    + assert (GetKey netIf ∈ invalidInterfacesOf host details) as Hk.
      { apply invalidInterfacesOf_elem. exists netIf. split; [done|]. split; [done|].
        by rewrite <- availableNICs_lookup. }
      rewrite Hnil in Hk. by apply elem_of_nil in Hk.
  - intros Hall. destruct (invalidInterfacesOf host details) as [|k rest] eqn:E; [done|].
    assert (k ∈ invalidInterfacesOf host details) as Hk by (rewrite E; left).
    apply invalidInterfacesOf_elem in Hk as (netIf & Hin & <- & Hnot).
    destruct Hnot. by apply Hall.
Qed.

Lemma passed_after_set (now : Z) (host : BareMetalHost) (status : ConditionStatus)
    (reason message : string) :
  networkInterfaceValidationPassed
    (setNetworkInterfaceValidation now host status reason message).1
  = bool_decide (status = ConditionTrue).
Proof.
  destruct (set_establishes now host status reason message)
    as ((c & Hf & Hs & _) & _).
  unfold networkInterfaceValidationPassed. cbv zeta in Hf. by rewrite Hf, Hs.
Qed.

Lemma passed_after_clear (host : BareMetalHost) :
  networkInterfaceValidationPassed (clearNetworkInterfaceValidation host).1 = false.
Proof.
  destruct (clear_establishes host) as (Hf & _).
  unfold networkInterfaceValidationPassed. cbv zeta in Hf. by rewrite Hf.
Qed.

(** X5: after [validateNetworkInterfaces] the validation counts as passed
    exactly when the host declares interfaces, its hardware details are
    known, and the key of every declared interface is the name or the MAC
    address of a discovered NIC. An interface with neither name nor MAC
    address never passes. *)
Theorem validation_passes_iff_keys_discovered (now : Z) (host : BareMetalHost) :
  networkInterfaceValidationPassed (validateNetworkInterfaces now host).1 = true
  ↔ elems (bmh_Spec_NetworkInterfaces host) ≠ []
    ∧ ∃ details, bmh_Status_HardwareDetails host = Some details
                 ∧ ∀ netIf, netIf ∈ elems (bmh_Spec_NetworkInterfaces host) →
                            keyDiscovered (hw_NIC details) (GetKey netIf).
Proof.
  unfold validateNetworkInterfaces.
  assert (len (bmh_Spec_NetworkInterfaces host) = 0%nat
          ↔ elems (bmh_Spec_NetworkInterfaces host) = []) as Hlen
    by (destruct (bmh_Spec_NetworkInterfaces host) as [[|??]|]; simpl; split; done).
  case_bool_decide as Hempty.
  - rewrite passed_after_clear. apply Hlen in Hempty. split; [done | by intros [? _]].
  - rewrite Hlen in Hempty.
    destruct (bmh_Status_HardwareDetails host) as [details|].
    + unfold performNetworkInterfaceValidation.
      pose proof (invalidInterfacesOf_nil host details) as Hnil.
      destruct (invalidInterfacesOf host details) as [|k rest] eqn:E.
      * rewrite bool_decide_false by (simpl; lia). rewrite passed_after_set.
        split; [|done]. intros _. split; [done|]. exists details. split; [done|].
        by apply Hnil.
      * rewrite bool_decide_true by (simpl; lia). rewrite passed_after_set.
        split; [done|]. intros (_ & d & [= <-] & Hall). by apply Hnil in Hall.
    + rewrite passed_after_clear. split; [done | by intros (_ & ? & ? & _)].
Qed.

End HostValidationFacts.

Section HostMessageFacts.

Import controllers.

Lemma Find_Set_fields (now : Z) (cs : list Condition) (new : Condition) :
  ∃ c, meta.FindStatusCondition (meta.SetStatusCondition now cs new) (cond_Type new) = Some c
       ∧ cond_Status c = cond_Status new ∧ cond_Reason c = cond_Reason new
       ∧ cond_Message c = cond_Message new.
Proof.
  unfold meta.SetStatusCondition.
  destruct (meta.FindStatusCondition cs (cond_Type new)) as [existing|] eqn:E.
  - eexists. split; [by apply Find_updateFirst|]. done.
  - eexists. split; [apply Find_app_None; [done|] |]; by case_bool_decide.
Qed.

Lemma getAvailableNICNames_elem (nics : list NIC) (name : string) :
  name ∈ getAvailableNICNames nics ↔ name ≠ "" ∧ ∃ nic, nic ∈ nics ∧ nic_Name nic = name.
Proof.
  unfold getAvailableNICNames, sort_Strings.
  rewrite merge_sort_Permutation, elem_of_flat_map. split.
  - intros (nic & Hin & Hn). case_bool_decide; [|by apply elem_of_nil in Hn].
    apply list_elem_of_singleton in Hn as ->. eauto.
  - intros (Hne & nic & Hin & <-). exists nic. split; [done|].
    rewrite bool_decide_true by done. by apply list_elem_of_singleton.
Qed.

(** X6: [getAvailableNICNames] returns the non-empty names of the NICs, each as
    often as it occurs, in ascending order. *)
Theorem available_names_sorted (nics : list NIC) :
  StronglySorted String.le (getAvailableNICNames nics)
  ∧ getAvailableNICNames nics ≡ₚ filter (fun name => name ≠ "") (nic_Name <$> nics).
Proof.
  unfold getAvailableNICNames, sort_Strings. split.
  - apply StronglySorted_merge_sort; apply _.
  - rewrite merge_sort_Permutation.
    induction nics as [|nic rest IH]; [done|].
    cbn [flat_map fmap list_fmap]. rewrite filter_cons.
    destruct (decide (nic_Name nic ≠ "")) as [Hn|Hn].
    + rewrite bool_decide_true by done. simpl. by rewrite IH.
    + rewrite bool_decide_false by done. simpl. by rewrite IH.
Qed.

(** X7: when a declared key is not discovered and the host carries no condition
    saying so already, [validateNetworkInterfaces] is dirty and leaves a
    condition False/InvalidInterfaceNames whose message contains that key
    and the name of every discovered NIC that has one. When the host
    already carries a condition False/InvalidInterfaceNames, the host, and
    with it the message, stays as it is. *)
Theorem invalid_keys_reported (now : Z) (host : BareMetalHost)
    (details : HardwareDetails) (netIf : NetworkInterface) :
  bmh_Status_HardwareDetails host = Some details →
  netIf ∈ elems (bmh_Spec_NetworkInterfaces host) →
  ¬ keyDiscovered (hw_NIC details) (GetKey netIf) →
  let stale := ∃ c, validityCondition host = Some c
                    ∧ cond_Status c = ConditionFalse
                    ∧ cond_Reason c = "InvalidInterfaceNames" in
  (¬ stale →
   (validateNetworkInterfaces now host).2 = (true, None)
   ∧ ∃ c, validityCondition (validateNetworkInterfaces now host).1 = Some c
          ∧ cond_Status c = ConditionFalse
          ∧ cond_Reason c = "InvalidInterfaceNames"
          ∧ Substr (GetKey netIf) (cond_Message c)
          ∧ ∀ nic, nic ∈ hw_NIC details → nic_Name nic ≠ "" →
                   Substr (nic_Name nic) (cond_Message c))
  ∧ (stale → validateNetworkInterfaces now host = (host, (false, None))).
Proof.
  intros Hhw Hin Hnot stale.
  assert (GetKey netIf ∈ invalidInterfacesOf host details) as Hinv
    by (apply invalidInterfacesOf_elem; eauto).
  unfold validateNetworkInterfaces.
  rewrite bool_decide_false
    by (destruct (bmh_Spec_NetworkInterfaces host) as [[|??]|]; simpl in *;
        [by apply elem_of_nil in Hin | done | by apply elem_of_nil in Hin]).
  rewrite Hhw. unfold performNetworkInterfaceValidation.
  rewrite bool_decide_true
    by (destruct (invalidInterfacesOf host details);
        [by apply elem_of_nil in Hinv | simpl; lia]).
  set (message := if bool_decide (length (getAvailableNICNames (hw_NIC details)) = 0%nat)
                  then _ else _).
  split.
  - intros Hfresh.
    set (new := {| cond_Type := ConditionNetworkInterfacesValid;
                   cond_Status := ConditionFalse; cond_ObservedGeneration := 0;
                   cond_LastTransitionTime := 0; cond_Reason := "InvalidInterfaceNames";
                   cond_Message := message |}).
    assert (setNetworkInterfaceValidation now host ConditionFalse
              "InvalidInterfaceNames" message
            = (withConditions host
                 (meta.SetStatusCondition now (bmh_Status_Conditions host) new),
               (true, None))) as ->.
    { unfold setNetworkInterfaceValidation. unfold stale, validityCondition in Hfresh.
      destruct (meta.FindStatusCondition (bmh_Status_Conditions host)
                  ConditionNetworkInterfacesValid) as [e|]; [|done].
      destruct (bool_decide (cond_Status e = ConditionFalse)
                && bool_decide (cond_Reason e = "InvalidInterfaceNames")) eqn:Eup; [|done].
      apply andb_true_iff in Eup as [?%bool_decide_eq_true ?%bool_decide_eq_true].
      destruct Hfresh. eauto. }
    split; [done|]. unfold validityCondition.
    cbn [fst bmh_Status_Conditions withConditions].
    destruct (Find_Set_fields now (bmh_Status_Conditions host) new)
      as (c & Hf & Hs & Hr & Hm).
    exists c. split; [done|]. split; [done|]. split; [done|].
    rewrite Hm. cbn [new cond_Message]. unfold message. split.
    + case_bool_decide; apply Substr_app_r, Substr_app_l; by apply Substr_Join.
    + intros nic Hnic Hname.
      assert (nic_Name nic ∈ getAvailableNICNames (hw_NIC details)) as Hav
        by (apply getAvailableNICNames_elem; eauto).
      case_bool_decide as Hlen.
      * destruct (getAvailableNICNames (hw_NIC details));
          [by apply elem_of_nil in Hav | done].
      * do 3 apply Substr_app_r. by apply Substr_Join.
  - intros (c & Hc & Hs & Hr). by eapply set_noop.
Qed.

End HostMessageFacts.

(** ** Applying the configuration *)

Section ApplyFacts.

Import controllers hostapply.

Context {P : Type} `{Provisioner P}.
Variables StateRegistering StatePreparing StateAvailable StateInspecting : string.

Local Notation "'applyConfigs'" :=
  (applySwitchPortConfigs StateRegistering StatePreparing StateAvailable StateInspecting).
Local Notation "'allows'" :=
  (ironicAllowsPortUpdates StateRegistering StatePreparing StateAvailable StateInspecting).
Local Notation "'manage'" :=
  (manageSwitchPortConfigs StateRegistering StatePreparing StateAvailable StateInspecting).

Lemma len_zero_elems {A} (s : option (list A)) : len s = 0%nat ↔ elems s = [].
Proof. destruct s as [[|??]|]; simpl; split; done. Qed.

(** Port updates are allowed exactly in the four states of the table. *)
Lemma allows_iff (host : BareMetalHost) :
  allows host = true
  ↔ bmh_Status_Provisioning_State host ∈
      [StateRegistering; StatePreparing; StateAvailable; StateInspecting].
Proof.
  unfold ironicAllowsPortUpdates, allowedPortUpdateStates.
  set (st := bmh_Status_Provisioning_State host).
  rewrite !elem_of_cons, elem_of_nil.
  repeat match goal with
         | |- context [<[?k := _]> _ !! st] =>
             let Heq := fresh "Heq" in
             destruct (decide (k = st)) as [Heq|?];
             [rewrite Heq, lookup_insert_eq | rewrite lookup_insert_ne by done]
         end; rewrite ?lookup_empty; simpl; intuition congruence.
Qed.

(** What a due update means for a host that declares interfaces. *)
Lemma needsUpdate_when_declared (host : BareMetalHost) :
  elems (bmh_Spec_NetworkInterfaces host) ≠ [] →
  (switchPortConfigurationNeedsUpdate host).1 = true →
  networkInterfaceValidationPassed host = true
  ∧ bmh_Status_AppliedNetworkInterfaces host ≠ bmh_Spec_NetworkInterfaces host.
Proof.
  intros Hdecl. unfold switchPortConfigurationNeedsUpdate, reflect_DeepEqual.
  rewrite bool_decide_false by (by rewrite len_zero_elems).
  destruct (networkInterfaceValidationPassed host); [|done]. simpl.
  case_bool_decide as Hnil.
  - intros _. split; [done|]. rewrite Hnil. by destruct (bmh_Spec_NetworkInterfaces host).
  - case_bool_decide as Heq; [done|]. intros _. split; [done | congruence].
Qed.

Lemma needsUpdate_after_removal (host : BareMetalHost) :
  elems (bmh_Spec_NetworkInterfaces host) = [] →
  (switchPortConfigurationNeedsUpdate host).1 = true →
  bmh_Status_AppliedNetworkInterfaces host ≠ None.
Proof.
  intros Hdecl. unfold switchPortConfigurationNeedsUpdate.
  rewrite bool_decide_true by (by rewrite len_zero_elems).
  case_bool_decide as Happ; [|done]. intros _ Hnone. rewrite Hnone in Happ. simpl in Happ. lia.
Qed.

(** X8: when [applySwitchPortConfigs] reports dirty, the host has changed and
    no update is due any more: the applied list is nil after a removal and
    a copy of the declared list otherwise. *)
Theorem apply_settles_drift (c : Client) (prov prov' : P) (host host' : BareMetalHost) :
  applyConfigs c prov host = (host', prov', (true, None)) →
  switchPortConfigurationNeedsUpdate host' = (false, "")
  ∧ host' ≠ host
  ∧ bmh_Status_AppliedNetworkInterfaces host'
    = (if bool_decide (elems (bmh_Spec_NetworkInterfaces host) = [])
       then None else Some (elems (bmh_Spec_NetworkInterfaces host))).
Proof.
  unfold applySwitchPortConfigs.
  destruct (switchPortConfigurationNeedsUpdate host) as [needs reason] eqn:En.
  assert ((switchPortConfigurationNeedsUpdate host).1 = needs) as Hneeds by (by rewrite En).
  destruct needs; simpl; [|done].
  destruct (allows host); simpl; [|done].
  case_bool_decide as Hlen.
  - apply len_zero_elems in Hlen.
    destruct (SetSwitchPortConfigs (Some ∅) prov) as [prov1 [e|]]; [done|].
    intros [= <- <-]. rewrite bool_decide_true by done.
    pose proof (needsUpdate_after_removal host Hlen Hneeds) as Happ.
    split; [|split; [|done]].
    + unfold switchPortConfigurationNeedsUpdate. simpl.
      by rewrite bool_decide_true by (by apply len_zero_elems).
    + intros Heq. apply (f_equal bmh_Status_AppliedNetworkInterfaces) in Heq.
      simpl in Heq. congruence.
  - rewrite len_zero_elems in Hlen.
    destruct (resolveSwitchPortConfigs c host) as [configs [e|]]; [done|].
    destruct (SetSwitchPortConfigs configs prov) as [prov1 [e|]]; [done|].
    intros [= <- <-]. rewrite bool_decide_false by done.
    destruct (needsUpdate_when_declared host Hlen Hneeds) as [Hpassed Hdiff].
    assert (bmh_Spec_NetworkInterfaces host
            = Some (elems (bmh_Spec_NetworkInterfaces host))) as Hspec
      by (destruct (bmh_Spec_NetworkInterfaces host); [done | by destruct Hlen]).
    split; [|split; [|done]].
    + set (host1 := withApplied host (Some (elems (bmh_Spec_NetworkInterfaces host)))).
      assert (networkInterfaceValidationPassed host1 = true) as Hpassed1 by exact Hpassed.
      unfold switchPortConfigurationNeedsUpdate, reflect_DeepEqual. rewrite Hpassed1.
      subst host1. cbn [withApplied bmh_Spec_NetworkInterfaces
                        bmh_Status_AppliedNetworkInterfaces negb].
      rewrite bool_decide_false by (by rewrite len_zero_elems).
      rewrite bool_decide_false by done.
      by rewrite bool_decide_true by done.
    + intros Heq. apply (f_equal bmh_Status_AppliedNetworkInterfaces) in Heq.
      simpl in Heq. congruence.
Qed.

(** X9: when [applySwitchPortConfigs] does not report dirty, the host is as it
    was: a failed or deferred apply never advances the applied list. When
    no update is due, or the provisioning state is not in the table, it
    returns no error and does not call the provisioner. *)
Theorem apply_without_effect (c : Client) (prov : P) (host : BareMetalHost) :
  ((applyConfigs c prov host).2.1 = false → (applyConfigs c prov host).1.1 = host)
  ∧ ((switchPortConfigurationNeedsUpdate host).1 = false ∨ allows host = false →
     applyConfigs c prov host = (host, prov, (false, None))).
Proof.
  unfold applySwitchPortConfigs.
  destruct (switchPortConfigurationNeedsUpdate host) as [needs reason].
  destruct needs; simpl.
  - destruct (allows host); simpl.
    + split; [|by intros [?|?]]. case_bool_decide.
      * by destruct (SetSwitchPortConfigs (Some ∅) prov) as [prov1 [e|]].
      * destruct (resolveSwitchPortConfigs c host) as [configs [e|]]; [done|].
        by destruct (SetSwitchPortConfigs configs prov) as [prov1 [e|]].
    + done.
  - done.
Qed.

Lemma validate_dirty_iff_changed (now : Z) (host : BareMetalHost) :
  (validateNetworkInterfaces now host).2.2 = None
  ∧ ((validateNetworkInterfaces now host).2.1 = true
     → (validateNetworkInterfaces now host).1 ≠ host)
  ∧ ((validateNetworkInterfaces now host).2.1 = false
     → (validateNetworkInterfaces now host).1 = host).
Proof.
  assert (∀ status reason message,
            let r := setNetworkInterfaceValidation now host status reason message in
            r.2.2 = None ∧ (r.2.1 = true → r.1 ≠ host) ∧ (r.2.1 = false → r.1 = host))
    as Hset.
  { intros status reason message.
    pose proof (set_establishes now host status reason message) as ((e' & Hf & Hs & Hr) & _).
    cbv zeta. revert Hf. unfold setNetworkInterfaceValidation.
    destruct (meta.FindStatusCondition (bmh_Status_Conditions host)
                ConditionNetworkInterfacesValid) as [e|] eqn:E.
    - destruct (bool_decide (cond_Status e = status)
                && bool_decide (cond_Reason e = reason)) eqn:Eup; [done|].
      intros Hf. split; [done|]. split; [|done].
      intros _ Heq. cbn [fst] in Hf, Heq. rewrite Heq, E in Hf. injection Hf as <-.
      rewrite Hs, Hr, !bool_decide_true in Eup by done. done.
    - intros Hf. split; [done|]. split; [|done].
      intros _ Heq. cbn [fst] in Hf, Heq. rewrite Heq, E in Hf. done. }
  assert (let r := clearNetworkInterfaceValidation host in
          r.2.2 = None ∧ (r.2.1 = true → r.1 ≠ host) ∧ (r.2.1 = false → r.1 = host))
    as Hclear.
  { pose proof (clear_establishes host) as (Hf & _).
    cbv zeta. revert Hf. unfold clearNetworkInterfaceValidation.
    destruct (meta.FindStatusCondition (bmh_Status_Conditions host)
                ConditionNetworkInterfacesValid) as [e|] eqn:E; [|done].
    intros Hf. split; [done|]. split; [|done].
    intros _ Heq. cbn [fst] in Hf, Heq. rewrite Heq, E in Hf. done. }
  unfold validateNetworkInterfaces. case_bool_decide; [done|].
  destruct (bmh_Status_HardwareDetails host); [|done].
  unfold performNetworkInterfaceValidation. case_bool_decide; apply Hset.
Qed.

Lemma apply_gate (c : Client) (prov : P) (host : BareMetalHost) :
  (applyConfigs c prov host).1.2 ≠ prov →
  allows host = true
  ∧ (elems (bmh_Spec_NetworkInterfaces host) = []
     ∨ networkInterfaceValidationPassed host = true).
Proof.
  unfold applySwitchPortConfigs.
  destruct (switchPortConfigurationNeedsUpdate host) as [needs reason] eqn:En.
  assert ((switchPortConfigurationNeedsUpdate host).1 = needs) as Hneeds by (by rewrite En).
  destruct needs; simpl; [|done].
  destruct (allows host); simpl; [|done]. intros _. split; [done|].
  destruct (decide (elems (bmh_Spec_NetworkInterfaces host) = [])) as [?|Hdecl]; [by left|].
  right. by destruct (needsUpdate_when_declared host Hdecl Hneeds).
Qed.

Lemma apply_error_not_dirty (c : Client) (prov : P) (host : BareMetalHost) :
  (applyConfigs c prov host).2.2 ≠ None → (applyConfigs c prov host).2.1 = false.
Proof.
  unfold applySwitchPortConfigs.
  destruct (switchPortConfigurationNeedsUpdate host) as [[] reason]; simpl; [|done].
  destruct (allows host); simpl; [|done]. case_bool_decide.
  - by destruct (SetSwitchPortConfigs (Some ∅) prov) as [? [?|]].
  - destruct (resolveSwitchPortConfigs c host) as [? [?|]]; [done|].
    by destruct (SetSwitchPortConfigs _ prov) as [? [?|]].
Qed.

(** X10: [manageSwitchPortConfigs] asks for an update exactly when it has changed
    the host. It reaches the provisioner only when validation left the host
    as it was, the provisioning state is in the table, and either the host
    declares no interface any more or its declared interfaces have passed
    validation. *)
Theorem manage_update_iff_changed (now : Z) (c : Client) (prov : P) (host : BareMetalHost) :
  let r := manage now c prov host in
  (r.2 = actionUpdate ↔ r.1.1 ≠ host)
  ∧ (r.1.2 ≠ prov →
     (validateNetworkInterfaces now host).2.1 = false
     ∧ bmh_Status_Provisioning_State host ∈
         [StateRegistering; StatePreparing; StateAvailable; StateInspecting]
     ∧ (elems (bmh_Spec_NetworkInterfaces host) = []
        ∨ networkInterfaceValidationPassed host = true)).
Proof.
  cbv zeta. unfold manageSwitchPortConfigs.
  destruct (validate_dirty_iff_changed now host) as (Herr & Hdirty & Hclean).
  destruct (validateNetworkInterfaces now host) as [host1 [dirty err]].
  simpl in Herr, Hdirty, Hclean. subst err.
  destruct dirty; simpl.
  - split; [by split; auto | done].
  - rewrite (Hclean eq_refl).
    destruct (apply_without_effect c prov host) as [Hsame _].
    pose proof (apply_settles_drift c prov) as Hsettle.
    pose proof (apply_gate c prov host) as Hgate.
    pose proof (apply_error_not_dirty c prov host) as Hnd.
    rewrite <- allows_iff.
    destruct (applyConfigs c prov host) as [[host2 prov2] [dirty2 [e2|]]] eqn:Eapply;
      simpl in Hsame, Hgate, Hnd |- *.
    + assert (dirty2 = false) as -> by (by apply Hnd). simpl.
      split; [|intros Hp; split; [done | by apply Hgate]].
      split; [done|]. intros Hne. by destruct Hne; apply Hsame.
    + destruct dirty2; simpl.
      * destruct (Hsettle prov2 host host2 Eapply) as (_ & Hne & _).
        split; [by split | intros Hp; split; [done | by apply Hgate]].
      * split; [|intros Hp; split; [done | by apply Hgate]].
        split; [done|]. intros Hne. by destruct Hne; apply Hsame.
Qed.

End ApplyFacts.

(** ** Resolved configurations *)

Section ResolverFacts.

Import controllers.

(** No interface of the list with this key has an attachment. *)
Local Notation "'unresolved' c ns key netIfs" :=
  (∀ later, later ∈ netIfs → GetKey later = key → ∃ e, fetch c ns later = Err e)
  (at level 10, c, ns, key, netIfs at level 9).

Lemma resolveLoop_lookup (c : Client) (ns : string) (netIfs : list NetworkInterface)
    (m configs : gmap string SwitchPortConfig) :
  resolveLoop c ns netIfs m = (Some configs, None) →
  ∀ key cfg,
    configs !! key = Some cfg
    ↔ (∃ before netIf after a,
         netIfs = before ++ netIf :: after
         ∧ GetKey netIf = key ∧ fetch c ns netIf = Ok a ∧ cfg = configOf a
         ∧ unresolved c ns key after)
      ∨ (unresolved c ns key netIfs ∧ m !! key = Some cfg).
Proof.
  revert m. induction netIfs as [|n rest IH]; intros m.
  - intros [= <-] key cfg. split.
    + intros Hm. right. split; [|done]. intros later Hin. by apply elem_of_nil in Hin.
    + intros [(before & netIf & after & a & Hsplit & _) | [_ Hm]]; [|done].
      by destruct before.
  - cbn [resolveLoop]. fold (fetch c ns n).
    destruct (fetch c ns n) as [a|e] eqn:E.
    + fold (configOf a). intros Hloop key cfg. rewrite (IH _ Hloop key cfg). split.
      * intros [(before & netIf & after & a' & -> & Hrest) | [Hun Hm]].
        -- left. by exists (n :: before), netIf, after, a'.
        -- destruct (decide (GetKey n = key)) as [Hkey|Hkey].
           ++ rewrite Hkey, lookup_insert_eq in Hm. injection Hm as <-.
              left. by exists [], n, rest, a.
           ++ rewrite lookup_insert_ne in Hm by done. right. split; [|done].
              intros later Hin Hk. apply elem_of_cons in Hin as [->|Hin]; [done | eauto].
      * intros [(before & netIf & after & a' & Hsplit & Hkey & Hf & -> & Hun) | [Hun Hm]].
        -- destruct before as [|b before]; simplify_eq/=.
           ++ right. split; [done|]. rewrite lookup_insert_eq. congruence.
           ++ left. by exists before, netIf, after, a'.
        -- right. split; [intros later Hin; apply Hun; by right|].
           rewrite lookup_insert_ne; [done|]. intros Hkey.
           destruct (Hun n) as [e He]; [by left | done | congruence].
    + destruct (IsNotFound e) eqn:Enf; [|done].
      intros Hloop key cfg. rewrite (IH _ Hloop key cfg). split.
      * intros [(before & netIf & after & a' & -> & Hrest) | [Hun Hm]].
        -- left. by exists (n :: before), netIf, after, a'.
        -- right. split; [|done].
           intros later Hin Hk. apply elem_of_cons in Hin as [->|Hin]; [eauto | eauto].
      * intros [(before & netIf & after & a' & Hsplit & Hkey & Hf & -> & Hun) | [Hun Hm]].
        -- destruct before as [|b before]; simplify_eq/=; [congruence|].
           left. by exists before, netIf, after, a'.
        -- right. split; [intros later Hin; apply Hun; by right | done].
Qed.

(** X11: when [resolveSwitchPortConfigs] succeeds, the map holds under a key
    exactly the mode, the native VLAN, the allowed VLANs and the MTU of the
    attachment of the last declared interface with this key whose
    attachment was found: a later interface with the same key replaces an
    earlier one, and a key with no found attachment is absent. *)
Theorem resolved_entry_is_last_found (c : Client) (host : BareMetalHost)
    (configs : gmap string SwitchPortConfig) :
  resolveSwitchPortConfigs c host = (Some configs, None) →
  ∀ key cfg,
    configs !! key = Some cfg
    ↔ ∃ before netIf after a,
        elems (bmh_Spec_NetworkInterfaces host) = before ++ netIf :: after
        ∧ GetKey netIf = key
        ∧ fetch c (bmh_Namespace host) netIf = Ok a
        ∧ cfg = configOf a
        ∧ ∀ later, later ∈ after → GetKey later = key →
            ∃ e, fetch c (bmh_Namespace host) later = Err e.
Proof.
  unfold resolveSwitchPortConfigs. intros Hloop key cfg.
  rewrite (resolveLoop_lookup _ _ _ _ _ Hloop key cfg). rewrite lookup_empty.
  split; [intros [?|[_ ?]]; done | by left].
Qed.

End ResolverFacts.

(** ** Repeated publication *)

Section RepublicationFacts.

Import switchconfig.

Variable filepath_Join : string → string → string.
Variable rangeKeys : gmap string (list byte) → list string.

Lemma updateSecretData_switches (c : Client) (ns name : string)
    (newData : option (gmap string (list byte))) :
  cl_Switches (updateSecretData c ns name newData).1 = cl_Switches c.
Proof.
  unfold updateSecretData.
  destruct (GetSecretObj c ns name) as [secret|e]; [|done].
  destruct (secretDataEqual (sec_Data secret) newData); [done|].
  unfold UpdateSecretObj. cbn [sec_Namespace sec_Name].
  destruct (cl_Fault c _); [done|]. by destruct (cl_Secrets c !! _).
Qed.

(** After a successful [updateSecretData] the stored secret holds the new
    data, a nil map counting as an empty one. *)
Lemma updateSecretData_settled (c : Client) (ns name : string)
    (newData : option (gmap string (list byte))) :
  (updateSecretData c ns name newData).2 = None →
  ∃ secret, GetSecretObj (updateSecretData c ns name newData).1 ns name = Ok secret
            ∧ default ∅ (sec_Data secret) = default ∅ newData.
Proof.
  intros Hok. destruct (GetSecretObj c ns name) as [secret|e] eqn:Hget.
  - pose proof (GetSecretObj_inv c ns name secret Hget) as (Hf & Hs & Hns & Hn).
    destruct (updateSecretData_read c ns name newData secret Hget) as [Heq Hneq].
    destruct (decide (default ∅ (sec_Data secret) = default ∅ newData)) as [Hd|Hd].
    + rewrite (Heq Hd). by exists secret.
    + destruct (Hneq Hd) as (_ & Hfault & _ & Hstore).
      exists (withData secret newData). split; [|done].
      unfold GetSecretObj. rewrite Hfault, Hf, (Hstore Hok), lookup_insert_eq.
      unfold withData. by rewrite Hns, Hn.
  - revert Hok. unfold updateSecretData. by rewrite Hget.
Qed.

(** X12: a second [updateSecretData] with the same data, after a successful
    first one, finds the secret up to date: it makes no update call and
    leaves the cluster as the first call left it. *)
Theorem update_secret_idempotent (c : Client) (ns name : string)
    (newData : option (gmap string (list byte))) :
  (updateSecretData c ns name newData).2 = None →
  updateSecretData (updateSecretData c ns name newData).1 ns name newData
  = ((updateSecretData c ns name newData).1, None).
Proof.
  intros Hok. destruct (updateSecretData_settled c ns name newData Hok) as (secret & Hget & Hd).
  by apply (updateSecretData_read _ ns name newData secret Hget).
Qed.

(** [writeSwitchEntry] reads the cluster through the credentials secret of
    the switch only. *)
Lemma writeSwitchEntry_frame (c c' : Client) (sw : BareMetalSwitch) (path : string)
    (entries keys : gmap string (list byte)) :
  GetSecretObj c' (sw_Namespace sw) (cred_SecretName (Credentials (sw_Spec sw)))
  = GetSecretObj c (sw_Namespace sw) (cred_SecretName (Credentials (sw_Spec sw))) →
  writeSwitchEntry filepath_Join c' sw path entries keys
  = writeSwitchEntry filepath_Join c sw path entries keys.
Proof. intros Hget. unfold writeSwitchEntry. by rewrite Hget. Qed.

Lemma generateLoop_frame (c c' : Client) (path : string) (items : list BareMetalSwitch)
    (entries keys : gmap string (list byte)) :
  (∀ sw, sw ∈ items →
     GetSecretObj c' (sw_Namespace sw) (cred_SecretName (Credentials (sw_Spec sw)))
     = GetSecretObj c (sw_Namespace sw) (cred_SecretName (Credentials (sw_Spec sw)))) →
  generateLoop filepath_Join c' path items entries keys
  = generateLoop filepath_Join c path items entries keys.
Proof.
  revert entries keys. induction items as [|sw rest IH]; intros entries keys Hall; [done|].
  cbn [generateLoop]. rewrite (writeSwitchEntry_frame c c') by (apply Hall; by left).
  destruct (writeSwitchEntry filepath_Join c sw path entries keys) as [[e k] [err|]]; [done|].
  apply IH. intros sw' Hin. apply Hall. by right.
Qed.

Lemma publish_settles (c : Client)
    (ns configSecretName credentialSecretName path : string) :
  configSecretName ≠ credentialSecretName →
  (∀ sw, sw ∈ cl_Switches c → sw_Namespace sw = ns →
     cred_SecretName (Credentials (sw_Spec sw)) ≠ configSecretName
     ∧ cred_SecretName (Credentials (sw_Spec sw)) ≠ credentialSecretName) →
  let after := updateSwitchConfigSecret filepath_Join rangeKeys c ns
                 configSecretName credentialSecretName path in
  after.2 = None →
  updateSwitchConfigSecret filepath_Join rangeKeys after.1 ns
    configSecretName credentialSecretName path
  = (after.1, None)
  ∧ cl_Switches after.1 = cl_Switches c.
Proof.
  intros Hnames Hcreds after. subst after. unfold updateSwitchConfigSecret.
  destruct (generateSwitchConfig filepath_Join c ns path) as [r|e] eqn:Egen; [|done].
  set (config := Some {[ switchConfigKey := assembleConfig rangeKeys (configEntries r) ]}).
  set (first := updateSecretData c ns configSecretName config).
  pose proof (updateSecretData_settled c ns configSecretName config) as Hset1.
  pose proof (updateSecretData_store c ns configSecretName config) as [Hf1 _].
  pose proof (updateSecretData_switches c ns configSecretName config) as Hsw1.
  pose proof (λ other, updateSecretData_frame c ns configSecretName other config) as Hfr1.
  fold first in Hset1, Hf1, Hsw1, Hfr1.
  destruct first as [c1 [e1|]]; [done|]. simpl in Hset1, Hf1, Hsw1, Hfr1.
  set (second := updateSecretData c1 ns credentialSecretName (Some (keyFiles r))).
  pose proof (updateSecretData_settled c1 ns credentialSecretName (Some (keyFiles r)))
    as Hset2.
  pose proof (updateSecretData_store c1 ns credentialSecretName (Some (keyFiles r)))
    as [Hf2 _].
  pose proof (updateSecretData_switches c1 ns credentialSecretName (Some (keyFiles r)))
    as Hsw2.
  pose proof (λ other, updateSecretData_frame c1 ns credentialSecretName other
                         (Some (keyFiles r))) as Hfr2.
  fold second in Hset2, Hf2, Hsw2, Hfr2.
  destruct second as [c2 [e2|]]; [done|]. simpl in Hset2, Hf2, Hsw2, Hfr2.
  intros _. cbn [fst snd]. split; [|by rewrite Hsw2].
  assert (generateSwitchConfig filepath_Join c2 ns path = Ok r) as ->.
  { rewrite <- Egen. unfold generateSwitchConfig, ListSwitchObjs.
    rewrite Hf2, Hf1, Hsw2, Hsw1.
    destruct (cl_Fault c (ListSwitches ns)); [done|].
    apply generateLoop_frame. intros sw Hin.
    apply list_elem_of_filter in Hin as [Hns Hin]. destruct (Hcreds sw Hin Hns) as [Hc1 Hc2].
    rewrite Hns, Hfr2, Hfr1; done. }
  fold config.
  destruct (Hset1 eq_refl) as (secret1 & Hget1 & Hd1).
  destruct (Hset2 eq_refl) as (secret2 & Hget2 & Hd2).
  assert (GetSecretObj c2 ns configSecretName = Ok secret1) as Hget1'
    by (by rewrite Hfr2).
  rewrite (proj1 (updateSecretData_read c2 ns configSecretName config secret1 Hget1') Hd1).
  by rewrite (proj1 (updateSecretData_read c2 ns credentialSecretName (Some (keyFiles r))
                       secret2 Hget2) Hd2).
Qed.

(** X13: a second [updateSwitchConfigSecret], after a successful first one,
    regenerates the same configuration, finds both secrets up to date and
    makes no update call, provided the two secrets are distinct and no
    switch of the namespace takes its credentials from either of them. *)
Theorem publish_idempotent (c : Client)
    (ns configSecretName credentialSecretName path : string) :
  configSecretName ≠ credentialSecretName →
  (∀ sw, sw ∈ cl_Switches c → sw_Namespace sw = ns →
     cred_SecretName (Credentials (sw_Spec sw)) ≠ configSecretName
     ∧ cred_SecretName (Credentials (sw_Spec sw)) ≠ credentialSecretName) →
  let after := updateSwitchConfigSecret filepath_Join rangeKeys c ns
                 configSecretName credentialSecretName path in
  after.2 = None →
  updateSwitchConfigSecret filepath_Join rangeKeys after.1 ns
    configSecretName credentialSecretName path
  = (after.1, None).
Proof. intros Hnames Hcreds after Hok. by apply publish_settles. Qed.

End RepublicationFacts.

(** ** The switch reconciler *)

Section ReconcilerFacts.

Import switchconfig switchcontroller.

Variable filepath_Join : string → string → string.
Variable rangeKeys : gmap string (list byte) → list string.
Variable getSwitchFault : NamespacedName → option error.

Local Notation "'reconcile'" := (Reconcile filepath_Join rangeKeys getSwitchFault).
Local Notation "'publish'" := (updateSwitchConfigSecret filepath_Join rangeKeys).

(** A switch that is loaded lies in the namespace of the request; a get
    that fails without an injected failure fails with not-found. *)
Lemma GetSwitchObj_inv (c : Client) (req : NamespacedName) :
  getSwitchFault req = None →
  (∃ sw, GetSwitchObj getSwitchFault c req = Ok sw
         ∧ sw ∈ cl_Switches c
         ∧ sw_Namespace sw = nn_Namespace req ∧ sw_Name sw = nn_Name req)
  ∨ (∃ e, GetSwitchObj getSwitchFault c req = Err e ∧ IsNotFound e = true
          ∧ ∀ sw, sw ∈ cl_Switches c →
                  ¬ (sw_Namespace sw = nn_Namespace req ∧ sw_Name sw = nn_Name req)).
Proof.
  intros Hfault. unfold GetSwitchObj. rewrite Hfault.
  destruct (list_find _ (cl_Switches c)) as [[i sw]|] eqn:Efind.
  - left. apply list_find_Some in Efind as (Hi & [Hns Hn] & _).
    exists sw. split; [done|]. split; [by eapply list_elem_of_lookup_2 | done].
  - right. eexists. split; [done|]. split; [done|].
    apply list_find_None in Efind. by apply Forall_forall.
Qed.

(** X14: unless loading the switch fails for a reason other than not-found,
    [Reconcile] does what [updateSwitchConfigSecret] does for the namespace
    of the request, whether or not the switch still exists, and returns an
    error exactly when the publication does. A load that fails for another
    reason ends the call with the cluster as it was. *)
Theorem reconcile_publishes_request_namespace (r : BareMetalSwitchReconciler)
    (c : Client) (req : NamespacedName) :
  let published := publish c (nn_Namespace req) (SwitchConfigsSecretName r)
                     (SwitchCredentialSecretName r) (SwitchCredentialPath r) in
  ((∀ e, getSwitchFault req = Some e → IsNotFound e = true) →
   (reconcile r c req).1 = published.1
   ∧ ((reconcile r c req).2 = None ↔ published.2 = None))
  ∧ (∀ e, getSwitchFault req = Some e → IsNotFound e = false →
     reconcile r c req = (c, Some (Errorf_w "could not load BareMetalSwitch: " e))).
Proof.
  cbv zeta. split.
  - intros Hfault. unfold Reconcile.
    destruct (getSwitchFault req) as [e|] eqn:Ef.
    + unfold GetSwitchObj. rewrite Ef, (Hfault e eq_refl).
      by destruct (publish c _ _ _ _) as [c' [e'|]].
    + destruct (GetSwitchObj_inv c req Ef) as [(sw & -> & _ & -> & _) | (e & -> & -> & _)];
        by destruct (publish c _ _ _ _) as [c' [e'|]].
  - intros e Hfault Hnf. unfold Reconcile, GetSwitchObj. by rewrite Hfault, Hnf.
Qed.

(** X15: a second [Reconcile] of the same request, after a successful first one,
    makes no update call and leaves the cluster as the first left it,
    provided the two secrets are distinct and no switch of the namespace
    takes its credentials from either of them. *)
Theorem reconcile_idempotent (r : BareMetalSwitchReconciler)
    (c : Client) (req : NamespacedName) :
  SwitchConfigsSecretName r ≠ SwitchCredentialSecretName r →
  (∀ sw, sw ∈ cl_Switches c → sw_Namespace sw = nn_Namespace req →
     cred_SecretName (Credentials (sw_Spec sw)) ≠ SwitchConfigsSecretName r
     ∧ cred_SecretName (Credentials (sw_Spec sw)) ≠ SwitchCredentialSecretName r) →
  (reconcile r c req).2 = None →
  reconcile r (reconcile r c req).1 req = ((reconcile r c req).1, None).
Proof.
  intros Hnames Hcreds Hok.
  pose proof (publish_settles filepath_Join rangeKeys c (nn_Namespace req)
                (SwitchConfigsSecretName r) (SwitchCredentialSecretName r)
                (SwitchCredentialPath r) Hnames Hcreds) as Hsettle.
  cbv zeta in Hsettle.
  assert (∀ c', cl_Switches c' = cl_Switches c →
                GetSwitchObj getSwitchFault c' req = GetSwitchObj getSwitchFault c req)
    as Hload by (intros c' Hsw; unfold GetSwitchObj; by rewrite Hsw).
  destruct (reconcile r c req) as [c' err] eqn:Erec. simpl in Hok. subst err.
  cbn [fst]. unfold Reconcile in Erec |- *.
  destruct (GetSwitchObj getSwitchFault c req) as [sw|e] eqn:Eget.
  - assert (sw_Namespace sw = nn_Namespace req) as Hns.
    { revert Eget. unfold GetSwitchObj. destruct (getSwitchFault req); [done|].
      destruct (list_find _ (cl_Switches c)) as [[i sw']|] eqn:Efind; [|done].
      intros [= ->]. by apply list_find_Some in Efind as (_ & [? _] & _). }
    rewrite Hns in Erec.
    destruct (publish c _ _ _ _) as [c1 [e1|]]; [done|]. injection Erec as ->.
    destruct (Hsettle eq_refl) as [Hagain Hsw]. cbn [fst snd] in *.
    rewrite (Hload c' Hsw), Hns. by rewrite Hagain.
  - destruct (IsNotFound e) eqn:Enf; [|done].
    destruct (publish c _ _ _ _) as [c1 [e1|]]; [done|]. injection Erec as ->.
    destruct (Hsettle eq_refl) as [Hagain Hsw]. cbn [fst snd] in *.
    rewrite (Hload c' Hsw), Enf. by rewrite Hagain.
Qed.

End ReconcilerFacts.

Section SecretWatchFacts.

Import switchcontroller.

(** X16: [findSwitchesForSecret] asks for a reconcile of exactly the switches of
    the namespace of the secret that name it as their credentials secret;
    every request is for that namespace, and there is none when the list
    call fails. *)
Theorem secret_change_requests (c : Client) (secret req : NamespacedName) :
  (req ∈ findSwitchesForSecret c secret
   ↔ cl_Fault c (ListSwitches (nn_Namespace secret)) = None
     ∧ ∃ sw, sw ∈ cl_Switches c
             ∧ sw_Namespace sw = nn_Namespace secret
             ∧ cred_SecretName (Credentials (sw_Spec sw)) = nn_Name secret
             ∧ req = {| nn_Namespace := sw_Namespace sw; nn_Name := sw_Name sw |})
  ∧ (req ∈ findSwitchesForSecret c secret → nn_Namespace req = nn_Namespace secret).
Proof.
  assert (req ∈ findSwitchesForSecret c secret
          ↔ cl_Fault c (ListSwitches (nn_Namespace secret)) = None
            ∧ ∃ sw, sw ∈ cl_Switches c
                    ∧ sw_Namespace sw = nn_Namespace secret
                    ∧ cred_SecretName (Credentials (sw_Spec sw)) = nn_Name secret
                    ∧ req = {| nn_Namespace := sw_Namespace sw; nn_Name := sw_Name sw |})
    as Hiff.
  { unfold findSwitchesForSecret, ListSwitchObjs.
    destruct (cl_Fault c (ListSwitches (nn_Namespace secret))) as [e|].
    - split; [intros Hin; by apply elem_of_nil in Hin | by intros [? _]].
    - rewrite elem_of_flat_map. split.
      + intros (sw & Hin & Hreq). apply list_elem_of_filter in Hin as [Hns Hin].
        case_bool_decide as Hname; [|by apply elem_of_nil in Hreq].
        apply list_elem_of_singleton in Hreq. split; [done|]. by exists sw.
      + intros (_ & sw & Hin & Hns & Hname & ->). exists sw.
        split; [by apply list_elem_of_filter|].
        rewrite bool_decide_true by done. by apply list_elem_of_singleton. }
  split; [done|]. intros (_ & sw & _ & Hns & _ & ->)%Hiff. done.
Qed.

End SecretWatchFacts.

(** ** Credentials and key files *)

Section InsertFacts.

Context {A K V : Type} `{Countable K}.

(** A loop that stores some of the elements of a list in a map: the map
    holds under a key what the last element stored there. *)
Lemma foldl_insert_last (f : A → option (K * V)) (l : list A) (m : gmap K V)
    (k : K) (v : V) :
  foldl (fun m a => match f a with Some (k, v) => <[k := v]> m | None => m end) m l !! k
  = Some v
  ↔ (∃ before a after,
       l = before ++ a :: after ∧ f a = Some (k, v)
       ∧ ∀ b, b ∈ after → ∀ v', f b ≠ Some (k, v'))
    ∨ ((∀ b, b ∈ l → ∀ v', f b ≠ Some (k, v')) ∧ m !! k = Some v).
Proof.
  revert m. induction l as [|a l IH]; intros m.
  - simpl. split.
    + intros Hm. right. split; [|done]. intros b Hin. by apply elem_of_nil in Hin.
    + intros [(before & a & after & Hsplit & _) | [_ Hm]]; [by destruct before | done].
  - cbn [foldl]. rewrite IH. split.
    + intros [(before & a' & after & -> & Hrest) | [Hun Hm]].
      * left. by exists (a :: before), a', after.
      * destruct (f a) as [[k' v']|] eqn:Ef.
        -- destruct (decide (k' = k)) as [->|Hne].
           ++ rewrite lookup_insert_eq in Hm. injection Hm as ->.
              left. by exists [], a, l.
           ++ rewrite lookup_insert_ne in Hm by done. right. split; [|done].
              intros b Hin v''. apply elem_of_cons in Hin as [->|Hin]; [congruence | eauto].
        -- right. split; [|done].
           intros b Hin v''. apply elem_of_cons in Hin as [->|Hin]; [congruence | eauto].
    + intros [(before & a' & after & Hsplit & Hf & Hun) | [Hun Hm]].
      * destruct before as [|b before]; simplify_eq/=.
        -- right. split; [done|]. rewrite Hf. by rewrite lookup_insert_eq.
        -- left. by exists before, a', after.
      * right. split; [intros b Hin; apply Hun; by right|].
        destruct (f a) as [[k' v']|] eqn:Ef; [|done].
        rewrite lookup_insert_ne; [done|]. intros ->.
        by destruct (Hun a (ltac:(by left)) v').
Qed.

End InsertFacts.

Section CredentialFacts.

Import switchconfig.

Variable filepath_Join : string → string → string.

(** X17: [writeSwitchEntry] succeeds exactly when the credentials secret of the
    switch can be read and holds a username and, for public-key
    authentication, an SSH private key, for any other type a password. On
    failure the two maps are as they were. On success the section is
    recorded under the name of the switch, and a key file is added for
    public-key authentication only, under the name made from the MAC
    address. *)
Theorem switch_entry_requirements (c : Client) (sw : BareMetalSwitch) (path : string)
    (entries keys : gmap string (list byte)) :
  let r := writeSwitchEntry filepath_Join c sw path entries keys in
  (r.2 = None ↔ credentialsComplete c sw)
  ∧ (r.2 ≠ None → r.1 = (entries, keys))
  ∧ (r.2 = None →
     r.1.1 = <[sw_Name sw := sectionBytes filepath_Join c path sw]> entries
     ∧ r.1.2 = (if bool_decide (usesPublicKey sw)
                then <[keyFileName sw := default [] (credential c sw "ssh-privatekey")]> keys
                else keys)).
Proof.
  cbv zeta.
  destruct (writeSwitchEntry_outcome filepath_Join c sw path) as [[Hc Hw] | [Hc [e Hw]]]; rewrite Hw.
  - split; [done|]. split; [done|]. intros _. split; [done|]. cbn [fst snd].
    unfold withKeyFile, privateKeyOf. destruct Hc as [_ Hkey]. unfold secretKeyOf in Hkey.
    case_bool_decide; [|done]. by destruct Hkey as [key ->].
  - split; [done|]. split; done.
Qed.

(** X18: [updateSwitchConfigSecret] publishes nothing unless every listed switch
    has complete credentials: the first switch, in list order, whose
    credentials are incomplete ends the call with an error that names it,
    and the cluster is as it was. *)
Theorem publish_fails_fast (rangeKeys : gmap string (list byte) → list string)
    (c : Client) (ns configSecretName credentialSecretName path : string)
    (before after : list BareMetalSwitch) (sw : BareMetalSwitch) :
  ListSwitchObjs c ns = Ok (before ++ sw :: after) →
  Forall (credentialsComplete c) before →
  ¬ credentialsComplete c sw →
  ∃ e,
    (∀ entries keys,
       writeSwitchEntry filepath_Join c sw path entries keys = (entries, keys, Some e))
    ∧ updateSwitchConfigSecret filepath_Join rangeKeys c ns
        configSecretName credentialSecretName path
      = (c, Some (Errorf_w ("failed to generate config for switch " +:+ sw_Name sw +:+ ": ")
                    e)).
Proof.
  intros Hlist Hbefore Hsw. unfold updateSwitchConfigSecret, generateSwitchConfig.
  rewrite Hlist.
  destruct (generateLoop_outcome filepath_Join c path (before ++ sw :: after) ∅ ∅)
    as [[Hall _] | (before' & sw' & after' & e & Hsplit & Hall & Hbad & Hw & ->)].
  - apply Forall_app in Hall as [_ Hall]. by apply Forall_cons in Hall as [? _].
  - assert (before = before' ∧ sw = sw') as [-> ->].
    { clear -Hsplit Hbefore Hsw Hall Hbad. revert before' Hsplit Hall.
      induction before as [|b before IH]; intros [|b' before'] Hsplit Hall; simplify_eq/=.
      - done.
      - by apply Forall_cons in Hall as [? _].
      - by apply Forall_cons in Hbefore as [? _].
      - apply Forall_cons in Hbefore as [_ Hbefore]. apply Forall_cons in Hall as [_ Hall].
        match goal with
        | Heq : _ ++ _ = _ ++ _ |- _ => by destruct (IH Hbefore before' Heq Hall) as [-> ->]
        end. }
    by exists e.
Qed.

(** X19: after a successful [generateSwitchConfig] the key files hold, under a
    name, the SSH private key of the last listed public-key switch with
    this key file name; switches with another credential type contribute
    no key file. *)
Theorem key_files_of_publickey_switches (c : Client) (ns path : string)
    (items : list BareMetalSwitch) (r : switchConfigResult) :
  ListSwitchObjs c ns = Ok items →
  generateSwitchConfig filepath_Join c ns path = Ok r →
  (∀ name key,
     keyFiles r !! name = Some key
     ↔ ∃ before sw after,
         items = before ++ sw :: after
         ∧ usesPublicKey sw ∧ keyFileName sw = name
         ∧ credential c sw "ssh-privatekey" = Some key
         ∧ ∀ later, later ∈ after → usesPublicKey later → keyFileName later ≠ name)
  ∧ ((∀ sw, sw ∈ items → ¬ usesPublicKey sw) → keyFiles r = ∅).
Proof.
  intros Hlist. unfold generateSwitchConfig. rewrite Hlist. intros Hgen.
  destruct (generateLoop_outcome filepath_Join c path items ∅ ∅)
    as [[Hall (r' & Hr & Hkeys)] | (before & sw & after & e & _ & _ & _ & _ & Hr)];
    [|congruence].
  assert (r' = r) as -> by congruence.
  assert (∀ m, foldl (fun m sw => withKeyFile c sw m) m items
               = foldl (fun m sw => match (fun sw => pair (keyFileName sw) <$> privateKeyOf c sw) sw
                                    with Some (k, v) => <[k := v]> m | None => m end) m items)
    as Hfold.
  { clear. induction items as [|sw rest IH]; intros m; [done|]. cbn [foldl].
    rewrite <- IH. f_equal. unfold withKeyFile. by destruct (privateKeyOf c sw). }
  rewrite Hfold in Hkeys.
  assert (∀ sw name key,
            pair (keyFileName sw) <$> privateKeyOf c sw = Some (name, key)
            ↔ usesPublicKey sw ∧ keyFileName sw = name
              ∧ credential c sw "ssh-privatekey" = Some key) as Hcontrib.
  { intros sw name key. unfold privateKeyOf. case_bool_decide as Hpk.
    - destruct (credential c sw "ssh-privatekey") as [k|]; simpl;
        [split; [by intros [= <- <-] | by intros (_ & <- & [= <-])]
        | split; [done | by intros (_ & _ & ?)]].
    - simpl. split; [done | by intros [? _]]. }
  assert (∀ sw, sw ∈ items → usesPublicKey sw →
                is_Some (credential c sw "ssh-privatekey")) as Hhas.
  { intros sw Hin Hpk. rewrite Forall_forall in Hall. destruct (Hall sw Hin) as [_ Hkey].
    unfold secretKeyOf in Hkey. by rewrite bool_decide_true in Hkey. }
  split.
  - intros name key. rewrite Hkeys, foldl_insert_last, lookup_empty. split.
    + intros [(before & sw & after & -> & Hf & Hun) | [_ ?]]; [|done].
      apply Hcontrib in Hf as (Hpk & Hname & Hcred).
      exists before, sw, after. split; [done|]. split; [done|]. split; [done|].
      split; [done|]. intros later Hin Hpk' Hname'.
      destruct (Hhas later) as [key' Hkey'];
        [apply elem_of_app; right; by right | done |].
      apply (Hun later Hin key'). by apply Hcontrib.
    + intros (before & sw & after & -> & Hpk & Hname & Hcred & Hun). left.
      exists before, sw, after. split; [done|]. split; [by apply Hcontrib|].
      intros later Hin key' (Hpk' & Hname' & _)%Hcontrib. by apply (Hun later).
  - intros Hnone. rewrite Hkeys. apply map_eq. intros name. rewrite lookup_empty.
    apply eq_None_not_Some. intros [key Hkey].
    apply foldl_insert_last in Hkey as [(before & sw & after & -> & Hf & _) | [_ Hkey]];
      [|by rewrite lookup_empty in Hkey].
    apply Hcontrib in Hf as (Hpk & _). apply (Hnone sw); [apply elem_of_app; right; by left | done].
Qed.

End CredentialFacts.

(** ** Key file names *)

Section KeyFileNameFacts.

Import switchconfig.

Lemma replaceAll_colon_cons (ch : ascii) (s : string) :
  replaceAll_go 0 (String ch s) ":" "-"
  = String (if decide (ch = ":"%char) then "-"%char else ch) (replaceAll_go 0 s ":" "-").
Proof.
  cbn [replaceAll_go String.prefix].
  change (String.length ":" - 1)%nat with 0%nat.
  change ("-" +:+ replaceAll_go 0 s ":" "-") with (String "-" (replaceAll_go 0 s ":" "-")).
  destruct (ascii_dec ":" ch) as [<-|Hne].
  - rewrite decide_True by done. by destruct s.
  - by rewrite decide_False by done.
Qed.

Lemma Substr_char_nil (ch : ascii) : ¬ Substr (String ch "") "".
Proof. intros (p & q & Heq). by destruct p. Qed.

Lemma Substr_char_cons (ch c : ascii) (s : string) :
  Substr (String ch "") (String c s) ↔ c = ch ∨ Substr (String ch "") s.
Proof.
  split.
  - intros (p & q & Heq). destruct p as [|c' p].
    + left. rewrite append_nil_l, append_cons in Heq. congruence.
    + right. rewrite append_cons in Heq. injection Heq as _ ->. by exists p, q.
  - intros [->|(p & q & ->)].
    + exists "", s. by rewrite append_nil_l, append_cons, append_nil_l.
    + exists (String c p), q. by rewrite append_cons.
Qed.

Lemma Substr_char_app (ch : ascii) (a b : string) :
  Substr (String ch "") (a +:+ b) ↔ Substr (String ch "") a ∨ Substr (String ch "") b.
Proof.
  induction a as [|c a IH].
  - rewrite append_nil_l. split; [by right | intros [?%Substr_char_nil | ?]; done].
  - rewrite append_cons, !Substr_char_cons, IH. tauto.
Qed.

Lemma append_length (a b : string) :
  String.length (a +:+ b) = (String.length a + String.length b)%nat.
Proof. induction a as [|c a IH]; [done|]. rewrite append_cons. simpl. by rewrite IH. Qed.

Lemma append_inj_l (a b s : string) : a +:+ s = b +:+ s → a = b.
Proof.
  revert b. induction a as [|x a IH]; intros [|y b] Heq.
  - done.
  - apply (f_equal String.length) in Heq. rewrite append_nil_l, append_length in Heq.
    simpl in Heq. lia.
  - apply (f_equal String.length) in Heq. rewrite append_nil_l, append_length in Heq.
    simpl in Heq. lia.
  - rewrite !append_cons in Heq. injection Heq as -> Heq. f_equal. by apply IH.
Qed.

Lemma replaceAll_colon_free (s : string) :
  ¬ Substr ":" (strings_ReplaceAll s ":" "-").
Proof.
  unfold strings_ReplaceAll. induction s as [|ch s IH].
  - apply Substr_char_nil.
  - rewrite replaceAll_colon_cons, Substr_char_cons. intros [Heq | ?]; [|done].
    destruct (decide (ch = ":"%char)); [done | congruence].
Qed.

Lemma replaceAll_colon_inj (s1 s2 : string) :
  ¬ Substr "-" s1 → ¬ Substr "-" s2 →
  strings_ReplaceAll s1 ":" "-" = strings_ReplaceAll s2 ":" "-" → s1 = s2.
Proof.
  unfold strings_ReplaceAll. revert s2.
  induction s1 as [|c1 s1 IH]; intros [|c2 s2] H1 H2 Heq.
  - done.
  - by rewrite replaceAll_colon_cons in Heq.
  - by rewrite replaceAll_colon_cons in Heq.
  - rewrite !replaceAll_colon_cons in Heq. rewrite Substr_char_cons in H1, H2.
    injection Heq as Hc Hs. f_equal.
    + destruct (decide (c1 = ":"%char)), (decide (c2 = ":"%char)); subst; tauto.
    + apply IH; tauto.
Qed.

(** X20: the name of a key file contains no colon, and switches whose MAC
    addresses contain no dash share a key file name only when their MAC
    addresses are equal, so that the key of one switch does not replace
    the key of another. *)
Theorem key_file_names_distinct (sw1 sw2 : BareMetalSwitch) :
  ¬ Substr ":" (keyFileName sw1)
  ∧ (¬ Substr "-" (MACAddress (sw_Spec sw1)) →
     ¬ Substr "-" (MACAddress (sw_Spec sw2)) →
     keyFileName sw1 = keyFileName sw2 →
     MACAddress (sw_Spec sw1) = MACAddress (sw_Spec sw2)).
Proof.
  unfold keyFileName. split.
  - rewrite Substr_char_app. intros [Hin | Hin].
    + by apply replaceAll_colon_free in Hin.
    + repeat (apply Substr_char_cons in Hin as [Hin | Hin]; [done|]).
      by apply Substr_char_nil in Hin.
  - intros H1 H2 Heq. apply replaceAll_colon_inj; [done..|]. by eapply append_inj_l.
Qed.

End KeyFileNameFacts.

(** ** Comparing BMC addresses *)

Section DriverInfoFacts.

Import ironicnode.

Context {V : Type} `{EqDecision V}.

(** With at most one address key, the loop picks the address entry of the
    map, whatever the range order. *)
Lemma firstAddress_unique (rangeEntries : gmap string V → list (string * V))
    (m : gmap string V) :
  rangeEntries m ≡ₚ map_to_list m →
  atMostOneAddress m →
  firstAddress rangeEntries m = filter (fun kv => matchesAddress kv.1 = true) m.
Proof.
  intros Hperm Hone. unfold firstAddress. apply map_eq. intros key.
  destruct (list_find _ (rangeEntries m)) as [[i [k v]]|] eqn:Efind.
  - apply list_find_Some in Efind as (Hi & Hmatch & _). simpl in Hmatch.
    assert (m !! k = Some v) as Hk.
    { apply elem_of_map_to_list. rewrite <- Hperm. by eapply list_elem_of_lookup_2. }
    destruct (decide (key = k)) as [->|Hne].
    + rewrite lookup_singleton_eq. symmetry. by apply map_lookup_filter_Some.
    + rewrite lookup_singleton_ne by done. symmetry.
      apply map_lookup_filter_None. destruct (m !! key) as [v'|] eqn:Ekey; [|by left].
      right. intros v'' _ Hm. simpl in Hm. destruct Hne. by apply Hone.
  - rewrite lookup_empty. symmetry. apply map_lookup_filter_None.
    destruct (m !! key) as [v'|] eqn:Ekey; [|by left].
    right. intros v'' [= <-] Hm. simpl in Hm.
    apply list_find_None in Efind. rewrite Forall_forall in Efind.
    apply (Efind (key, v')); [|done]. rewrite Hperm. by apply elem_of_map_to_list.
Qed.

(** X21: when each of the two driver-info maps has at most one key that ends
    with "_address", [bmcAddressMatches] holds exactly when the maps agree
    on every such key, in whatever order [range] yields the entries: both
    have the same address under the same key, or neither has one. *)
Theorem bmc_addresses_compared (rangeEntries : gmap string V → list (string * V))
    (nodeDriverInfo driverInfo : gmap string V) :
  rangeEntries nodeDriverInfo ≡ₚ map_to_list nodeDriverInfo →
  rangeEntries driverInfo ≡ₚ map_to_list driverInfo →
  atMostOneAddress nodeDriverInfo →
  atMostOneAddress driverInfo →
  bmcAddressMatches rangeEntries nodeDriverInfo driverInfo = true
  ↔ ∀ key, matchesAddress key = true → driverInfo !! key = nodeDriverInfo !! key.
Proof.
  intros Hp1 Hp2 H1 H2. unfold bmcAddressMatches, reflect_DeepEqual.
  rewrite !firstAddress_unique by done. rewrite bool_decide_eq_true. split.
  - intros Heq key Hkey.
    apply (f_equal (fun m : gmap string V => m !! key)) in Heq.
    rewrite !map_lookup_filter in Heq.
    destruct (driverInfo !! key) as [a|], (nodeDriverInfo !! key) as [b|]; simpl in Heq;
      rewrite ?option_guard_True in Heq by done; done.
  - intros Hagree. apply map_eq. intros key. rewrite !map_lookup_filter.
    destruct (matchesAddress key) eqn:Ekey.
    + by rewrite (Hagree key Ekey).
    + destruct (driverInfo !! key) as [a|], (nodeDriverInfo !! key) as [b|]; simpl;
        rewrite ?option_guard_False by (simpl; congruence); done.
Qed.

Lemma rangeFirst_Permutation (first : string) (m : gmap string V) :
  rangeFirst first m ≡ₚ map_to_list m.
Proof.
  unfold rangeFirst. induction (map_to_list m) as [|[k v] l IH]; [done|].
  rewrite !filter_cons. simpl. destruct (decide (k = first)) as [Heq|Hne].
  - rewrite decide_False by (intros ?; done). simpl. by rewrite IH.
  - rewrite decide_True by done. rewrite <- Permutation_middle. by rewrite IH.
Qed.

Lemma firstAddress_rangeFirst (first : string) (v : V) (m : gmap string V) :
  m !! first = Some v → matchesAddress first = true →
  firstAddress (rangeFirst first) m = {[ first := v ]}.
Proof.
  intros Hm Hmatch. unfold firstAddress, rangeFirst.
  destruct (filter (fun kv => kv.1 = first) (map_to_list m)) as [|[k' v'] rest] eqn:E.
  - assert ((first, v) ∈ filter (fun kv : string * V => kv.1 = first) (map_to_list m)) as Hin
      by (apply list_elem_of_filter; split; [done | by apply elem_of_map_to_list]).
    rewrite E in Hin. by apply elem_of_nil in Hin.
  - assert ((k', v') ∈ filter (fun kv : string * V => kv.1 = first) (map_to_list m)) as Hin
      by (rewrite E; by left).
    apply list_elem_of_filter in Hin as [Hk Hin]. simpl in Hk. subst k'.
    apply elem_of_map_to_list in Hin. assert (v' = v) as -> by congruence.
    cbn [app list_find]. by rewrite decide_True by done.
Qed.

(** X22: when a driver-info map has two keys that end with "_address", the
    outcome of [bmcAddressMatches] depends on the order in which [range]
    yields the entries: against a node that has the first of the two
    addresses, one order gives a match and another none. *)
Theorem bmc_match_depends_on_range_order (k1 k2 : string) (v1 v2 : V) :
  matchesAddress k1 = true → matchesAddress k2 = true → k1 ≠ k2 →
  let nodeDriverInfo : gmap string V := {[ k1 := v1 ]} in
  let driverInfo : gmap string V := <[k1 := v1]> {[ k2 := v2 ]} in
  (∀ m : gmap string V, rangeFirst k1 m ≡ₚ map_to_list m)
  ∧ (∀ m : gmap string V, rangeFirst k2 m ≡ₚ map_to_list m)
  ∧ bmcAddressMatches (rangeFirst k1) nodeDriverInfo driverInfo = true
  ∧ bmcAddressMatches (rangeFirst k2) nodeDriverInfo driverInfo = false.
Proof.
  intros Hk1 Hk2 Hne nodeDriverInfo driverInfo.
  split; [apply rangeFirst_Permutation|]. split; [apply rangeFirst_Permutation|].
  assert (atMostOneAddress nodeDriverInfo) as Hone.
  { intros a b [x Ha] [y Hb] _ _. unfold nodeDriverInfo in Ha, Hb.
    apply lookup_singleton_Some in Ha as [<- _]. by apply lookup_singleton_Some in Hb as [<- _]. }
  assert (∀ k, firstAddress (rangeFirst k) nodeDriverInfo = {[ k1 := v1 ]}) as Hnode.
  { intros k. rewrite firstAddress_unique by (done || apply rangeFirst_Permutation).
    unfold nodeDriverInfo. rewrite map_filter_singleton. by rewrite decide_True by done. }
  unfold bmcAddressMatches, reflect_DeepEqual. rewrite !Hnode.
  rewrite (firstAddress_rangeFirst k1 v1 driverInfo)
    by (done || by unfold driverInfo; rewrite lookup_insert_eq).
  rewrite (firstAddress_rangeFirst k2 v2 driverInfo)
    by (done || by unfold driverInfo; rewrite lookup_insert_ne, lookup_singleton_eq).
  split; [by apply bool_decide_eq_true|]. apply bool_decide_eq_false.
  intros Heq. apply (f_equal (fun m : gmap string V => m !! k2)) in Heq.
  rewrite lookup_singleton_eq, lookup_singleton_ne in Heq; done.
Qed.

End DriverInfoFacts.

(** ** Existing ports *)

Section ExistingPortFacts.

Import ironic.

(** X23: the port that [ensurePorts] finds for a MAC address is the last listed
    port whose address equals it up to the case of the letters. *)
Theorem existing_port_by_mac (existingPorts : list Port) (mac : string) (port : Port) :
  portsByMAC existingPorts !! strings_ToLower mac = Some port
  ↔ ∃ before after,
      existingPorts = before ++ port :: after
      ∧ strings_ToLower (port_Address port) = strings_ToLower mac
      ∧ ∀ later, later ∈ after →
                 strings_ToLower (port_Address later) ≠ strings_ToLower mac.
Proof.
  unfold portsByMAC.
  pose proof (foldl_insert_last
                (fun port : Port => Some (strings_ToLower (port_Address port), port))
                existingPorts ∅ (strings_ToLower mac) port) as Hlast.
  cbv beta iota in Hlast. rewrite Hlast, lookup_empty. clear Hlast. split.
  - intros [(before & p & after & -> & [= Haddr ->] & Hun) | [_ ?]]; [|done].
    exists before, after. split; [done|]. split; [done|].
    intros later Hin Heq. apply (Hun later Hin later). by rewrite Heq.
  - intros (before & after & -> & Haddr & Hun). left.
    exists before, port, after. split; [done|]. split; [by rewrite Haddr|].
    intros later Hin v' [= Heq _]. by apply (Hun later).
Qed.

End ExistingPortFacts.

(** ** The further properties on the scenarios *)

Section CoverageWitnesses.

Import webhooks controllers hostapply switchconfig switchcontroller ironicnode.

Lemma index_lookup_is_namespace_scan_witness :
  let c := clusterOf [hostWithRef "test-ns" ""; hostWithRef "other-ns" "test-ns"] in
  findBMHReferences c (testAttachment "access" 100)
  = Ok (flat_map (referencesOf (testAttachment "access" 100))
          (namespaceHosts c (testAttachment "access" 100))).
Proof.
  intros c.
  destruct (index_lookup_is_namespace_scan c (testAttachment "access" 100)) as [Hscan _];
    [done | reflexivity | exact Hscan].
Defined.

Lemma invalid_keys_reported_witness :
  (validateNetworkInterfaces 0 (inspectedHost "eth9")).2 = (true, None).
Proof.
  destruct (invalid_keys_reported 0 (inspectedHost "eth9")
              {| hw_NIC := [discoveredNIC "eth1" "00:11:22:33:44:56";
                            discoveredNIC "eth0" "00:11:22:33:44:55"] |}
              (namedInterface "eth9")) as [Hfresh _].
  - reflexivity.
  - left.
  - intros [_ (nic & Hin & Hkey)].
    apply elem_of_cons in Hin as [->|Hin]; [by destruct Hkey|].
    apply elem_of_cons in Hin as [->|Hin]; [by destruct Hkey|].
    by apply elem_of_nil in Hin.
  - apply Hfresh. by intros (cond & Hcond & _).
Defined.

Lemma apply_settles_drift_witness :
  switchPortConfigurationNeedsUpdate
    (withApplied pendingHost (Some [namedInterface "eth0"])) = (false, "").
Proof.
  destruct (apply_settles_drift "registering" "preparing" "available" "inspecting"
              netACluster [] [Some {[ "eth0" := netAConfig ]}] pendingHost
              (withApplied pendingHost (Some [namedInterface "eth0"])))
    as [Hsettled _]; [by vm_compute | exact Hsettled].
Defined.

Lemma resolved_entry_is_last_found_witness :
  ({[ "eth0" := netAConfig ]} : gmap string SwitchPortConfig) !! "eth0" = Some netAConfig
  ↔ ∃ before netIf after a,
      elems (bmh_Spec_NetworkInterfaces pendingHost) = before ++ netIf :: after
      ∧ GetKey netIf = "eth0"
      ∧ fetch netACluster (bmh_Namespace pendingHost) netIf = Ok a
      ∧ netAConfig = configOf a
      ∧ ∀ later, later ∈ after → GetKey later = "eth0" →
          ∃ e, fetch netACluster (bmh_Namespace pendingHost) later = Err e.
Proof.
  apply (resolved_entry_is_last_found netACluster pendingHost {[ "eth0" := netAConfig ]}).
  by vm_compute.
Defined.

Lemma update_secret_idempotent_witness :
  let data := Some {[ "a.key" := String.list_byte_of_string "K" ]} in
  let first := updateSecretData twoSwitchCluster "test-ns" "switch-credentials" data in
  updateSecretData first.1 "test-ns" "switch-credentials" data = (first.1, None).
Proof.
  intros data first.
  apply (update_secret_idempotent twoSwitchCluster "test-ns" "switch-credentials" data).
  by vm_compute.
Defined.

Lemma twoSwitchCluster_credentials (sw : BareMetalSwitch) :
  sw ∈ cl_Switches twoSwitchCluster → sw_Namespace sw = "test-ns" →
  cred_SecretName (Credentials (sw_Spec sw)) ≠ "switch-configs"
  ∧ cred_SecretName (Credentials (sw_Spec sw)) ≠ "switch-credentials".
Proof.
  intros Hin _.
  apply elem_of_cons in Hin as [->|Hin]; [done|].
  apply elem_of_cons in Hin as [->|Hin]; [done|].
  by apply elem_of_nil in Hin.
Defined.

Lemma publish_idempotent_witness :
  let first := updateSwitchConfigSecret simpleJoin keysInMapOrder twoSwitchCluster
                 "test-ns" "switch-configs" "switch-credentials" "/creds" in
  updateSwitchConfigSecret simpleJoin keysInMapOrder first.1
    "test-ns" "switch-configs" "switch-credentials" "/creds" = (first.1, None).
Proof.
  intros first.
  apply (publish_idempotent simpleJoin keysInMapOrder twoSwitchCluster
           "test-ns" "switch-configs" "switch-credentials" "/creds").
  - done.
  - apply twoSwitchCluster_credentials.
  - by vm_compute.
Defined.

Lemma reconcile_idempotent_witness :
  let req := {| nn_Namespace := "test-ns"; nn_Name := "switch1" |} in
  let first := Reconcile simpleJoin keysInMapOrder (fun _ => None) testReconciler
                 twoSwitchCluster req in
  Reconcile simpleJoin keysInMapOrder (fun _ => None) testReconciler first.1 req
  = (first.1, None).
Proof.
  intros req first.
  apply (reconcile_idempotent simpleJoin keysInMapOrder (fun _ => None) testReconciler
           twoSwitchCluster req).
  - done.
  - apply twoSwitchCluster_credentials.
  - by vm_compute.
Defined.

Lemma publish_fails_fast_witness :
  ∃ e,
    updateSwitchConfigSecret simpleJoin keysInMapOrder orphanCluster
      "test-ns" "switch-configs" "switch-credentials" "/creds"
    = (orphanCluster,
       Some (Errorf_w ("failed to generate config for switch " +:+ sw_Name orphanSwitch
                         +:+ ": ") e)).
Proof.
  destruct (publish_fails_fast simpleJoin keysInMapOrder orphanCluster
              "test-ns" "switch-configs" "switch-credentials" "/creds"
              [switch2] [switch1 "test-ns" "switch1-creds"] orphanSwitch)
    as (e & _ & Hfails).
  - reflexivity.
  - constructor; [|constructor]. split; eexists; by vm_compute.
  - intros [[username Huser] _]. by vm_compute in Huser.
  - by exists e.
Defined.

Lemma key_files_of_publickey_switches_witness :
  keyFiles twoSwitchResult !! "aa-bb-cc-dd-ee-ff.key"
  = Some (String.list_byte_of_string "KEY").
Proof.
  destruct (key_files_of_publickey_switches simpleJoin twoSwitchCluster "test-ns" "/creds"
              [switch2; switch1 "test-ns" "switch1-creds"] twoSwitchResult)
    as [Hkeys _]; [reflexivity | by vm_compute |].
  apply Hkeys. exists [], switch2, [switch1 "test-ns" "switch1-creds"].
  split; [done|]. split; [done|]. split; [by vm_compute|]. split; [by vm_compute|].
  intros later Hin Hpk. apply list_elem_of_singleton in Hin as ->. done.
Defined.

Lemma redfishInfo_one_address (address username : string) :
  atMostOneAddress (redfishInfo address username).
Proof.
  assert (∀ k, is_Some (redfishInfo address username !! k) → matchesAddress k = true →
               k = "redfish_address") as Hkey.
  { intros k [v Hv] Hk. unfold redfishInfo in Hv.
    apply lookup_insert_Some in Hv as [[<- _] | [_ Hv]]; [done|].
    apply lookup_singleton_Some in Hv as [<- _]. by vm_compute in Hk. }
  intros k1 k2 H1 H2 Hm1 Hm2. by rewrite (Hkey k1), (Hkey k2).
Defined.

Lemma bmc_addresses_compared_witness :
  bmcAddressMatches map_to_list (redfishInfo "10.0.0.1" "admin")
    (redfishInfo "10.0.0.1" "operator") = true.
Proof.
  apply (bmc_addresses_compared map_to_list (redfishInfo "10.0.0.1" "admin")
           (redfishInfo "10.0.0.1" "operator")).
  - reflexivity.
  - reflexivity.
  - apply redfishInfo_one_address.
  - apply redfishInfo_one_address.
  - intros key Hkey. unfold redfishInfo.
    destruct (decide (key = "redfish_address")) as [->|Hne]; [reflexivity|].
    rewrite !lookup_insert_ne by done.
    destruct (decide (key = "redfish_username")) as [->|Hne']; [by vm_compute in Hkey|].
    by rewrite !lookup_singleton_ne.
Defined.

Lemma bmc_match_depends_on_range_order_witness :
  let info : gmap string string :=
    <["redfish_address" := "10.0.0.1"]> {[ "ipmi_address" := "10.0.0.2" ]} in
  bmcAddressMatches (rangeFirst "redfish_address") {[ "redfish_address" := "10.0.0.1" ]} info
  = true
  ∧ bmcAddressMatches (rangeFirst "ipmi_address") {[ "redfish_address" := "10.0.0.1" ]} info
    = false.
Proof.
  intros info.
  destruct (bmc_match_depends_on_range_order "redfish_address" "ipmi_address"
              "10.0.0.1" "10.0.0.2") as (_ & _ & Hmatch & Hdiffer);
    [reflexivity | reflexivity | done | by split].
Defined.

End CoverageWitnesses.
